(** * santoku.salesforce.objects_handler: the Salesforce REST connector

    A shallow embedding of [ObjectsHandler] (src/santoku/salesforce/
    objects_handler.py) and the properties of its request protocol:
    lazy authentication, derivation of the object name from a request
    path, the two schema caches, payload validation and the flag that
    suspends validation during a schema fetch.

    Characters are modelled by [ascii], so a path is a [string] of 8-bit
    characters; a position in a path is a position in that string. *)

From Stdlib Require Import String Ascii List Bool Arith Lia.
From stdpp Require Import base option list gmap strings.

Local Open Scope string_scope.
Local Open Scope list_scope.

(** ** Python exceptions and results *)

Inductive exn : Type :=
| AssertionError (msg : string)
| RequestException            (* requests.exceptions.RequestException, any subclass *)
| JSONDecodeError             (* json.loads / Response.json() on text that is not JSON *)
| KeyError (key : string)
| TypeError
| IndexError
| ValueError (msg : string)
| UnboundLocalError (name : string).

(** What a call produces: a value, a raised exception, or (only for the
    fuel-indexed functions below) exhaustion of the recursion budget. *)
Inductive outcome (A : Type) : Type :=
| Ok (a : A)
| Raise (e : exn)
| OutOfFuel.
Arguments Ok {A} a.
Arguments Raise {A} e.
Arguments OutOfFuel {A}.

Definition is_ok {A} (o : outcome A) : bool :=
  match o with Ok _ => true | _ => false end.

(** ** Python string primitives used by the connector *)

Module PyStr.

(** [needle in hay] *)
Definition contains (needle hay : string) : bool :=
  match String.index 0 needle hay with Some _ => true | None => false end.

(** [hay.index(needle)]: the position of the first occurrence; Python
    raises ValueError when there is none. *)
Definition index (hay needle : string) : outcome nat :=
  match String.index 0 needle hay with
  | Some i => Ok i
  | None => Raise (ValueError "substring not found")
  end.

(** [s.split(sep)] for a one-character separator: empty segments are
    kept and the result is never empty. *)
Fixpoint split (sep : ascii) (s : string) : list string :=
  match s with
  | EmptyString => [EmptyString]
  | String c rest =>
      if Ascii.eqb c sep then EmptyString :: split sep rest
      else match split sep rest with
           | seg :: segs => String c seg :: segs
           | [] => [String c EmptyString]
           end
  end.

(** [l[i]] for a non-negative index. *)
Definition item {A} (l : list A) (i : nat) : outcome A :=
  match l !! i with
  | Some x => Ok x
  | None => Raise IndexError
  end.

(** Truth value of a string: non-empty. *)
Definition truthy (s : string) : bool :=
  match s with EmptyString => false | _ => true end.

(** [s.replace(old, new)] for one-character [old] and [new]. *)
Fixpoint replace (old new : ascii) (s : string) : string :=
  match s with
  | EmptyString => EmptyString
  | String c rest =>
      String (if Ascii.eqb c old then new else c) (replace old new rest)
  end.

End PyStr.

(** ** The fragment of Python's [re] the connector relies on

    Patterns are compiled from their text, as [re.search] does.  The
    fragment covers literal characters, [.], the postfix quantifiers [*]
    and [+] (greedy) and capturing groups; any other metacharacter makes
    [compile] answer [None]. *)

Module Re.

Inductive regex : Type :=
| Lit (c : ascii)
| AnyChar                          (* "." : every character but a newline *)
| Empty
| Seq (r1 r2 : regex)
| MaxRepeat (min : nat) (r : regex) (* greedy r{min,} *)
| Group (n : nat) (r : regex).

Definition seq_of (items : list regex) : regex :=
  foldr Seq Empty items.

Definition unsupported (c : ascii) : bool :=
  existsb (Ascii.eqb c) (list_ascii_of_string "?[]\|^${}").

(** [cur] holds the items of the sequence being read, last first;
    [stack] the enclosing unfinished groups; [next] the number the next
    opening parenthesis gets.  A quantifier applies to the item just
    before it. *)
Fixpoint parse (p : list ascii) (cur : list regex)
    (stack : list (nat * list regex)) (next : nat) : option regex :=
  match p with
  | [] => match stack with
          | [] => Some (seq_of (rev cur))
          | _ :: _ => None
          end
  | c :: p' =>
      if Ascii.eqb c "(" then parse p' [] ((next, cur) :: stack) (S next)
      else if Ascii.eqb c ")" then
        match stack with
        | (n, outer) :: stack' =>
            parse p' (Group n (seq_of (rev cur)) :: outer) stack' next
        | [] => None
        end
      else if Ascii.eqb c "*" then
        match cur with
        | r :: cur' => parse p' (MaxRepeat 0 r :: cur') stack next
        | [] => None
        end
      else if Ascii.eqb c "+" then
        match cur with
        | r :: cur' => parse p' (MaxRepeat 1 r :: cur') stack next
        | [] => None
        end
      else if Ascii.eqb c "." then parse p' (AnyChar :: cur) stack next
      else if unsupported c then None
      else parse p' (Lit c :: cur) stack next
  end.

Definition compile (pattern : string) : option regex :=
  parse (list_ascii_of_string pattern) [] [] 1.

(** Captured groups, most recently closed first. *)
Definition captures : Type := list (nat * string).

Definition result : Type := option (list ascii * captures).

Definition newline : ascii := ascii_of_nat 10.

(** Backtracking matcher in continuation-passing style.  A position is
    the suffix of the subject that is still to be read.  [MaxRepeat]
    follows the greedy repeat of CPython's engine: try one more
    iteration first, the continuation afterwards; once [min] iterations
    are done, an iteration is not attempted at the position where the
    previous one started (an iteration that consumed nothing is not
    repeated).  A group records the text of its last iteration. *)
Fixpoint run (r : regex) (s : list ascii) (g : captures)
    (k : list ascii -> captures -> result) : result :=
  match r with
  | Lit c =>
      match s with
      | x :: s' => if Ascii.eqb x c then k s' g else None
      | [] => None
      end
  | AnyChar =>
      match s with
      | x :: s' => if Ascii.eqb x newline then None else k s' g
      | [] => None
      end
  | Empty => k s g
  | Seq r1 r2 => run r1 s g (fun s' g' => run r2 s' g' k)
  | Group n r' =>
      run r' s g
        (fun s' g' =>
           k s' ((n, string_of_list_ascii (take (length s - length s') s)) :: g'))
  | MaxRepeat min r' =>
      (fix until (budget count : nat) (last : option nat)
           (s : list ascii) (g : captures) {struct budget} : result :=
         match budget with
         | 0 => None
         | S budget' =>
             if Nat.ltb count min then
               run r' s g (fun s' g' => until budget' (S count) last s' g')
             else
               let more :=
                 if bool_decide (last = Some (length s)) then None
                 else run r' s g
                        (fun s' g' =>
                           until budget' (S count) (Some (length s)) s' g') in
               match more with
               | Some res => Some res
               | None => k s g
               end
         end) (min + length s + 2) 0 None s g
  end.

(** The loop of a greedy repeat on its own, with the matcher of the
    repeated item as [step]: [run] on [MaxRepeat min r] is this loop with
    [run r] for [step]. *)
Definition max_until
    (step : list ascii -> captures -> (list ascii -> captures -> result) -> result)
    (min : nat) (k : list ascii -> captures -> result)
  : nat -> nat -> option nat -> list ascii -> captures -> result :=
  fix until (budget count : nat) (last : option nat)
      (s : list ascii) (g : captures) {struct budget} : result :=
    match budget with
    | 0 => None
    | S budget' =>
        if Nat.ltb count min then
          step s g (fun s' g' => until budget' (S count) last s' g')
        else
          let more :=
            if bool_decide (last = Some (length s)) then None
            else step s g
                   (fun s' g' =>
                      until budget' (S count) (Some (length s)) s' g') in
          match more with
          | Some res => Some res
          | None => k s g
          end
    end.

(** [re.search]: the first position, from the left, at which the
    pattern matches. *)
Fixpoint search_at (r : regex) (s : list ascii) : option captures :=
  match run r s [] (fun rest g => Some (rest, g)) with
  | Some (_, g) => Some g
  | None =>
      match s with
      | [] => None
      | _ :: s' => search_at r s'
      end
  end.

Definition search (pattern subject : string) : option captures :=
  match compile pattern with
  | Some r => search_at r (list_ascii_of_string subject)
  | None => None
  end.

(** [m.group(n)] for a group that took part in the match. *)
Definition group (n : nat) (m : captures) : string :=
  match find (fun e => Nat.eqb (fst e) n) m with
  | Some (_, txt) => txt
  | None => EmptyString
  end.

End Re.

(** A step all of whose successes are successes of its continuation. *)
Definition through
    (step : list ascii -> Re.captures ->
            (list ascii -> Re.captures -> Re.result) -> Re.result) : Prop :=
  forall s g k, step s g k = None \/ exists s' g', step s g k = k s' g'.

(** A match, if there is one, in which group 1 holds the empty text. *)
Definition empty_group (res : Re.result) : Prop :=
  match res with
  | Some (_, g) => Re.group 1 g = ""
  | None => True
  end.

(** The matcher of a run of literal characters, and the group of the
    SOQL patterns. *)
Definition literals (cs : list ascii) : Re.regex := Re.seq_of (map Re.Lit cs).

Definition rest_group : Re.regex :=
  Re.Group 1 (Re.Seq (Re.MaxRepeat 0 Re.AnyChar) Re.Empty).

Definition whole (rest : list ascii) (g : Re.captures) : Re.result := Some (rest, g).

(** ** PathInterpreter: [_obtain_salesforce_object_name_from_path] *)

(** The two patterns the source builds with [str.format] from the tokens
    FROM+ and +WHERE around one capturing group. *)
Definition pattern_from_where : string := "FROM+" +:+ "(.*)" +:+ "+WHERE".
Definition pattern_from : string := "FROM+" +:+ "(.*)".

Definition _obtain_salesforce_object_name_from_path (path : string)
  : outcome string :=
  if PyStr.contains "describe" path then
    PyStr.item (PyStr.split "/" path) 1
  else if PyStr.contains "query?q=SELECT" path then
    if PyStr.contains "WHERE" path then
      match Re.search pattern_from_where path with
      | Some m => Ok (Re.group 1 m)
      | None => Ok EmptyString
      end
    else
      match Re.search pattern_from path with
      | Some m => Ok (Re.group 1 m)
      | None => Ok EmptyString
      end
  else if String.eqb path "sobjects" then Ok EmptyString
  else
    match PyStr.index path "sobjects" with
    | Ok i => PyStr.item (PyStr.split "/" path) (i + 1)
    | Raise e => Raise e
    | OutOfFuel => OutOfFuel
    end.

(** ** Parsed JSON values, with the Python operations applied to them *)

#[warnings="-register-all"]
Inductive json : Type :=
| JNull
| JBool (b : bool)
| JInt (z : Z)
| JFloat (lexeme : string)
| JStr (s : string)
| JArr (items : list json)
| JObj (members : list (string * json)).  (* keys distinct, in insertion order *)

Module PyJson.

(** [v[key]] for a string key *)
Definition getitem (v : json) (key : string) : outcome json :=
  match v with
  | JObj members =>
      match find (fun kv => String.eqb (fst kv) key) members with
      | Some (_, x) => Ok x
      | None => Raise (KeyError key)
      end
  | _ => Raise TypeError
  end.

(** The items [for x in v] visits: the elements of a list, the keys of
    a dict, the characters of a str; other values are not iterable. *)
Definition iter (v : json) : outcome (list json) :=
  match v with
  | JArr items => Ok items
  | JObj members => Ok (map (fun kv => JStr (fst kv)) members)
  | JStr s => Ok (map (fun c => JStr (String c EmptyString)) (list_ascii_of_string s))
  | _ => Raise TypeError
  end.

(** [[x[key] for x in xs]]: stops at the first element that raises. *)
Fixpoint getitems (xs : list json) (key : string) : outcome (list json) :=
  match xs with
  | [] => Ok []
  | x :: rest =>
      match getitem x key with
      | Ok y =>
          match getitems rest key with
          | Ok ys => Ok (y :: ys)
          | Raise e => Raise e
          | OutOfFuel => OutOfFuel
          end
      | Raise e => Raise e
      | OutOfFuel => OutOfFuel
      end
  end.

(** [s == v] for a str [s] *)
Definition eq_str (s : string) (v : json) : bool :=
  match v with
  | JStr t => String.eqb s t
  | _ => false
  end.

(** [s in vs] for a str [s] and a list [vs] *)
Definition str_in (s : string) (vs : list json) : bool :=
  existsb (eq_str s) vs.

End PyJson.

(** ** The HTTP transport and the other library calls *)

Definition payload_t : Type := list (string * string).

Inductive body_t : Type :=
| NoBody
| Form (data : list (string * string))   (* requests.post(url, data=...) *)
| Json (payload : payload_t).            (* requests.post(url=..., json=...) *)

Record request : Type := {
  verb : string;
  url : string;
  headers : list (string * string);
  body : body_t
}.

#[global] Instance body_t_eq_dec : EqDecision body_t.
Proof. solve_decision. Defined.

#[global] Instance request_eq_dec : EqDecision request.
Proof. solve_decision. Defined.

Inductive reply : Type :=
| Failed                                   (* the call raised a RequestException *)
| Response (status_code : nat) (text : string).

(** What the connector is run against: the remote side reached through
    [requests], [json.loads], and the rendering of a parsed value by
    [str.format] when that value is not a str. *)
Class Platform : Type := {
  server : Type;
  send : server -> request -> server * reply;
  json_loads : string -> option json;
  format_other : json -> string
}.

(** [Response.raise_for_status] raises for 4xx and 5xx. *)
Definition is_http_error (status_code : nat) : bool :=
  Nat.leb 400 status_code && Nat.ltb status_code 600.

(** ** The connector object *)

Record config : Type := {
  _auth_url : string;
  _username : string;
  _password : string;
  _client_id : string;
  _client_secret : string;
  _api_version : string;   (* the float, as "{:.1f}" renders it: 47.0 *)
  _grant_type : string
}.

Record ObjectsHandler : Type := {
  cfg : config;
  _instance_scheme_and_authority : json;
  _access_token : json;
  _salesforce_object_names_cache : list json;
  _salesforce_object_fields_cache : gmap string (list json);
  request_headers : list (string * string);
  _validate_salesforce_object : bool;
  _is_authenticated : bool
}.

Definition __init__ (c : config) : ObjectsHandler := {|
  cfg := c;
  _instance_scheme_and_authority := JStr "";
  _access_token := JStr "";
  _salesforce_object_names_cache := [];
  _salesforce_object_fields_cache := ∅;
  request_headers := [("Authorization", "OAuth"); ("Content-type", "application/json")];
  _validate_salesforce_object := true;
  _is_authenticated := false
|}.

Definition set_instance (v : json) (h : ObjectsHandler) : ObjectsHandler :=
  {| cfg := cfg h;
     _instance_scheme_and_authority := v;
     _access_token := _access_token h;
     _salesforce_object_names_cache := _salesforce_object_names_cache h;
     _salesforce_object_fields_cache := _salesforce_object_fields_cache h;
     request_headers := request_headers h;
     _validate_salesforce_object := _validate_salesforce_object h;
     _is_authenticated := _is_authenticated h |}.

Definition set_access_token (v : json) (h : ObjectsHandler) : ObjectsHandler :=
  {| cfg := cfg h;
     _instance_scheme_and_authority := _instance_scheme_and_authority h;
     _access_token := v;
     _salesforce_object_names_cache := _salesforce_object_names_cache h;
     _salesforce_object_fields_cache := _salesforce_object_fields_cache h;
     request_headers := request_headers h;
     _validate_salesforce_object := _validate_salesforce_object h;
     _is_authenticated := _is_authenticated h |}.

Definition set_names_cache (v : list json) (h : ObjectsHandler) : ObjectsHandler :=
  {| cfg := cfg h;
     _instance_scheme_and_authority := _instance_scheme_and_authority h;
     _access_token := _access_token h;
     _salesforce_object_names_cache := v;
     _salesforce_object_fields_cache := _salesforce_object_fields_cache h;
     request_headers := request_headers h;
     _validate_salesforce_object := _validate_salesforce_object h;
     _is_authenticated := _is_authenticated h |}.

Definition set_fields_cache (v : gmap string (list json)) (h : ObjectsHandler)
  : ObjectsHandler :=
  {| cfg := cfg h;
     _instance_scheme_and_authority := _instance_scheme_and_authority h;
     _access_token := _access_token h;
     _salesforce_object_names_cache := _salesforce_object_names_cache h;
     _salesforce_object_fields_cache := v;
     request_headers := request_headers h;
     _validate_salesforce_object := _validate_salesforce_object h;
     _is_authenticated := _is_authenticated h |}.

Definition set_request_headers (v : list (string * string)) (h : ObjectsHandler)
  : ObjectsHandler :=
  {| cfg := cfg h;
     _instance_scheme_and_authority := _instance_scheme_and_authority h;
     _access_token := _access_token h;
     _salesforce_object_names_cache := _salesforce_object_names_cache h;
     _salesforce_object_fields_cache := _salesforce_object_fields_cache h;
     request_headers := v;
     _validate_salesforce_object := _validate_salesforce_object h;
     _is_authenticated := _is_authenticated h |}.

Definition set_validate (v : bool) (h : ObjectsHandler) : ObjectsHandler :=
  {| cfg := cfg h;
     _instance_scheme_and_authority := _instance_scheme_and_authority h;
     _access_token := _access_token h;
     _salesforce_object_names_cache := _salesforce_object_names_cache h;
     _salesforce_object_fields_cache := _salesforce_object_fields_cache h;
     request_headers := request_headers h;
     _validate_salesforce_object := v;
     _is_authenticated := _is_authenticated h |}.

Definition set_is_authenticated (v : bool) (h : ObjectsHandler) : ObjectsHandler :=
  {| cfg := cfg h;
     _instance_scheme_and_authority := _instance_scheme_and_authority h;
     _access_token := _access_token h;
     _salesforce_object_names_cache := _salesforce_object_names_cache h;
     _salesforce_object_fields_cache := _salesforce_object_fields_cache h;
     request_headers := request_headers h;
     _validate_salesforce_object := _validate_salesforce_object h;
     _is_authenticated := v |}.

(** [d[key] = value] on a dict kept as its items in insertion order *)
Fixpoint dict_set (key value : string) (d : list (string * string))
  : list (string * string) :=
  match d with
  | [] => [(key, value)]
  | (k, v) :: rest =>
      if String.eqb k key then (k, value) :: rest
      else (k, v) :: dict_set key value rest
  end.

(** ** PayloadValidator: [_validate_payload_content] *)

Fixpoint _validate_payload_content (payload : payload_t) (object_fields : list json)
  : outcome unit :=
  match payload with
  | [] => Ok tt
  | (field, _) :: rest =>
      if negb (PyJson.str_in field object_fields)
      then Raise (ValueError (field +:+ " isn't a valid field"))
      else _validate_payload_content rest object_fields
  end.

(** ** Running the connector: state, trace and exceptions

    A method call transforms a [machine]: the connector object, the state
    of the remote side and the trace of requests handed to the transport.
    Each trace entry also notes the value [_validate_salesforce_object]
    had when the request left; the note is an observation only and is
    never read back.  A raised exception keeps every assignment made
    before it, as in Python. *)

Record call : Type := {
  c_request : request;
  c_guard : bool
}.

Section Connector.

Context {P : Platform}.

Record machine : Type := {
  self : ObjectsHandler;
  remote : server;
  calls : list call
}.

Definition M (A : Type) : Type := machine -> outcome A * machine.

Definition ret {A} (a : A) : M A := fun m => (Ok a, m).

Definition raise {A} (e : exn) : M A := fun m => (Raise e, m).

Definition lift {A} (o : outcome A) : M A := fun m => (o, m).

Definition bind {A B} (c : M A) (f : A -> M B) : M B :=
  fun m =>
    match c m with
    | (Ok a, m') => f a m'
    | (Raise e, m') => (Raise e, m')
    | (OutOfFuel, m') => (OutOfFuel, m')
    end.

Notation "x <- c ;; k" := (bind c (fun x => k))
  (at level 62, c at next level, right associativity).
Notation "c ;;; k" := (bind c (fun _ => k))
  (at level 62, right associativity).

Definition get_self : M ObjectsHandler := fun m => (Ok (self m), m).

Definition update (f : ObjectsHandler -> ObjectsHandler) : M unit :=
  fun m => (Ok tt, {| self := f (self m); remote := remote m; calls := calls m |}).

Definition py_assert (b : bool) (msg : string) : M unit :=
  if b then ret tt else raise (AssertionError msg).

(** One call of [requests.<verb>]. *)
Definition transport (r : request) : M reply :=
  fun m =>
    let (s', rep) := send (remote m) r in
    (Ok rep,
     {| self := self m;
        remote := s';
        calls := calls m ++
                 [{| c_request := r;
                     c_guard := _validate_salesforce_object (self m) |}] |}).

(** [response = requests.<verb>(...); response.raise_for_status()],
    which leaves through RequestException or with the response text. *)
Definition checked (r : request) : M string :=
  rep <- transport r ;;
  match rep with
  | Failed => raise RequestException
  | Response status_code text =>
      if is_http_error status_code then raise RequestException else ret text
  end.

Definition loads (text : string) : outcome json :=
  match json_loads text with
  | Some v => Ok v
  | None => Raise JSONDecodeError
  end.

(** ["{}".format(v)] *)
Definition format (v : json) : string :=
  match v with
  | JStr s => s
  | _ => format_other v
  end.

(** [self._url_to_format.format(instance, api_version, path)] *)
Definition format_url (h : ObjectsHandler) (path : string) : string :=
  format (_instance_scheme_and_authority h) +:+ "/services/data/v" +:+
  _api_version (cfg h) +:+ "/" +:+ path.

Definition auth_request (h : ObjectsHandler) : request :=
  {| verb := "POST";
     url := _auth_url (cfg h);
     headers := [("Accept", "application/json")];
     body := Form [("grant_type", _grant_type (cfg h));
                   ("username", _username (cfg h));
                   ("password", _password (cfg h));
                   ("client_id", _client_id (cfg h));
                   ("client_secret", _client_secret (cfg h))] |}.

Definition _authenticate : M unit :=
  h <- get_self ;;
  text <- checked (auth_request h) ;;
  update (set_is_authenticated true) ;;;
  response_as_dict <- lift (loads text) ;;
  instance_url <- lift (PyJson.getitem response_as_dict "instance_url") ;;
  update (set_instance instance_url) ;;;
  access_token <- lift (PyJson.getitem response_as_dict "access_token") ;;
  update (set_access_token access_token) ;;;
  h <- get_self ;;
  update (set_request_headers
            (dict_set "Authorization" ("OAuth " +:+ format (_access_token h))
               (request_headers h))).

(** Lines 221-222 of [do_request]: authenticate unless already done. *)
Definition ensure_authenticated : M unit :=
  h <- get_self ;;
  if negb (_is_authenticated h) then _authenticate else ret tt.

(** The type of [do_request], through which the two schema fetches call
    back into the dispatcher. *)
Definition dispatcher : Type := string -> string -> option payload_t -> M string.

(** [[x["name"] for x in json.loads(response)[key]]] *)
Definition names_under (key response : string) : outcome (list json) :=
  match loads response with
  | Ok v =>
      match PyJson.getitem v key with
      | Ok l =>
          match PyJson.iter l with
          | Ok xs => PyJson.getitems xs "name"
          | Raise e => Raise e
          | OutOfFuel => OutOfFuel
          end
      | Raise e => Raise e
      | OutOfFuel => OutOfFuel
      end
  | Raise e => Raise e
  | OutOfFuel => OutOfFuel
  end.

Definition get_salesforce_object_names_via (do_request : dispatcher)
  : M (list json) :=
  h <- get_self ;;
  (match _salesforce_object_names_cache h with
   | [] =>
       update (set_validate false) ;;;
       response <- do_request "GET" "sobjects" None ;;
       names <- lift (names_under "sobjects" response) ;;
       update (set_names_cache names)
   | _ :: _ => ret tt
   end) ;;;
  h <- get_self ;;
  ret (_salesforce_object_names_cache h).

Definition get_salesforce_object_fields_via (do_request : dispatcher)
    (salesforce_object_name : string) : M (list json) :=
  h <- get_self ;;
  (match _salesforce_object_fields_cache h !! salesforce_object_name with
   | None =>
       update (set_validate false) ;;;
       response <- do_request "GET"
                     ("sobjects/" +:+ salesforce_object_name +:+ "/describe") None ;;
       fields <- lift (names_under "fields" response) ;;
       h <- get_self ;;
       update (set_fields_cache
                 (<[salesforce_object_name := fields]>
                    (_salesforce_object_fields_cache h)))
   | Some _ => ret tt
   end) ;;;
  h <- get_self ;;
  match _salesforce_object_fields_cache h !! salesforce_object_name with
  | Some fields => ret fields
  | None => raise (KeyError salesforce_object_name)
  end.

Definition supported (method : string) : bool :=
  existsb (String.eqb method) ["POST"; "GET"; "PATCH"; "DELETE"].

Definition has_payload (method : string) : bool :=
  existsb (String.eqb method) ["POST"; "PATCH"].

(** [assert payload]: neither None nor an empty dict *)
Definition payload_truthy (payload : option payload_t) : bool :=
  match payload with
  | Some (_ :: _) => true
  | _ => false
  end.

Definition json_of (payload : option payload_t) : body_t :=
  match payload with
  | Some p => Json p
  | None => NoBody
  end.

(** Lines 224-229 of [do_request]: with the guard on, derive the object
    name and, when there is one, require it among the object names.
    The local [salesforce_object_name] is bound only if this block
    runs.  [recur] stands for [self.do_request] in the schema fetch. *)
Definition check_object (recur : dispatcher) (path : string)
  : M (option string) :=
  h <- get_self ;;
  if _validate_salesforce_object h then
    name <- lift (_obtain_salesforce_object_name_from_path path) ;;
    (if PyStr.truthy name then
       names <- get_salesforce_object_names_via recur ;;
       py_assert (PyJson.str_in name names) (name +:+ " isn't a valid object")
     else ret tt) ;;;
    ret (Some name)
  else ret None.

(** Lines 235-258: the body of the try block, up to and including
    [raise_for_status]. *)
Definition attempt (recur : dispatcher) (method url : string)
    (payload : option payload_t) (salesforce_object_name : option string)
  : M string :=
  if has_payload method then
    py_assert (payload_truthy payload)
      "Payload must be defined for a POST, PATCH request." ;;;
    h <- get_self ;;
    (if _validate_salesforce_object h then
       name <- match salesforce_object_name with
               | Some name => ret name
               | None => raise (UnboundLocalError "salesforce_object_name")
               end ;;
       object_fields <- get_salesforce_object_fields_via recur name ;;
       lift (_validate_payload_content (default [] payload) object_fields)
     else ret tt) ;;;
    h <- get_self ;;
    checked {| verb := method; url := url;
               headers := request_headers h; body := json_of payload |}
  else
    h <- get_self ;;
    checked {| verb := method; url := url;
               headers := request_headers h; body := NoBody |}.

(** The body of [do_request]. *)
Definition do_request_body (recur : dispatcher)
    (method path : string) (payload : option payload_t) : M string :=
  py_assert (supported method) "Method isn't supported." ;;;
  ensure_authenticated ;;;
  salesforce_object_name <- check_object recur path ;;
  h <- get_self ;;
  let url := format_url h path in
  text <- attempt recur method url payload salesforce_object_name ;;
  update (set_validate true) ;;;
  ret text.

(** [fuel] bounds the nesting of [do_request] inside itself. *)
Fixpoint do_request (fuel : nat) (method path : string)
    (payload : option payload_t) : M string :=
  match fuel with
  | 0 => fun m => (OutOfFuel, m)
  | S fuel' => do_request_body (do_request fuel') method path payload
  end.

Definition _get_salesforce_object_names (fuel : nat) : M (list json) :=
  get_salesforce_object_names_via (do_request fuel).

Definition _get_salesforce_object_fields (fuel : nat)
    (salesforce_object_name : string) : M (list json) :=
  get_salesforce_object_fields_via (do_request fuel) salesforce_object_name.

(** [do_query_with_SOQL]: the query with its spaces turned into plus
    signs is sent as a GET, and the records of the decoded answer are
    returned. *)
Definition soql_path (query : string) : string :=
  "query?q=" +:+ PyStr.replace " " "+" query.

Definition do_query_with_SOQL (fuel : nat) (query : string) : M json :=
  text <- do_request fuel "GET" (soql_path query) None ;;
  response <- lift (loads text) ;;
  lift (PyJson.getitem response "records").

Definition fresh (c : config) (s : server) : machine :=
  {| self := __init__ c; remote := s; calls := [] |}.

(** *** Notions used to state the properties *)

(** A dispatch with validation left out: the method check,
    authentication if still needed, the payload check and the one HTTP
    call; no object-name check, no payload validation, no schema
    fetch. *)
Definition unvalidated_request (method path : string)
    (payload : option payload_t) : M string :=
  py_assert (supported method) "Method isn't supported." ;;;
  ensure_authenticated ;;;
  h <- get_self ;;
  let url := format_url h path in
  text <-
    (if has_payload method then
       py_assert (payload_truthy payload)
         "Payload must be defined for a POST, PATCH request." ;;;
       h <- get_self ;;
       checked {| verb := method; url := url;
                  headers := request_headers h; body := json_of payload |}
     else
       h <- get_self ;;
       checked {| verb := method; url := url;
                  headers := request_headers h; body := NoBody |}) ;;
  update (set_validate true) ;;;
  ret text.

(** The request a dispatch sends for [method] and [path] from the
    connector [h]. *)
Definition dispatch_request (h : ObjectsHandler) (method path : string)
    (b : body_t) : request :=
  {| verb := method; url := format_url h path;
     headers := request_headers h; body := b |}.

(** The authentication exchange is the only request with form data. *)
Definition is_auth_call (c : call) : bool :=
  match body (c_request c) with
  | Form _ => true
  | _ => false
  end.

(** A trace entry sent by a dispatch of the connector [h]. *)
Definition sent_by (h : ObjectsHandler) (c : call) : Prop :=
  is_auth_call c = false /\
  headers (c_request c) = request_headers h /\
  exists path, url (c_request c) = format_url h path.

(** How often a request occurs in a trace. *)
Definition occurrences (r : request) (cs : list call) : nat :=
  length (filter (fun c => c_request c = r) cs).

(** What every operation of the connector preserves. *)
Record evolves (m m' : machine) : Prop := {
  ev_cfg : cfg (self m') = cfg (self m);
  ev_session :
    _is_authenticated (self m) = true ->
    _is_authenticated (self m') = true /\
    _instance_scheme_and_authority (self m') = _instance_scheme_and_authority (self m) /\
    _access_token (self m') = _access_token (self m) /\
    request_headers (self m') = request_headers (self m);
  ev_calls :
    exists new, calls m' = calls m ++ new /\
      (_is_authenticated (self m) = true -> Forall (sent_by (self m)) new);
  ev_names :
    _salesforce_object_names_cache (self m) <> [] ->
    _salesforce_object_names_cache (self m') = _salesforce_object_names_cache (self m);
  ev_fields :
    forall name fields,
      _salesforce_object_fields_cache (self m) !! name = Some fields ->
      _salesforce_object_fields_cache (self m') !! name = Some fields
}.

(** What one operation leaves alone: the guard, the caches, and the
    guard noted on every request it sends. *)
Record quiet (m m' : machine) : Prop := {
  q_guard : _validate_salesforce_object (self m') = _validate_salesforce_object (self m);
  q_names : _salesforce_object_names_cache (self m') = _salesforce_object_names_cache (self m);
  q_fields : _salesforce_object_fields_cache (self m') = _salesforce_object_fields_cache (self m);
  q_calls : exists new, calls m' = calls m ++ new /\
                        Forall (fun c => c_guard c = _validate_salesforce_object (self m)) new
}.

(** Two dispatchers that agree whenever the guard is off. *)
Definition agree_off (r1 r2 : dispatcher) : Prop :=
  forall method path payload m,
    _validate_salesforce_object (self m) = false -> r1 method path payload m = r2 method path payload m.

(** The remote side accepts [r] and answers [text]. *)
Definition answers (s : server) (r : request) (s' : server) (text : string)
  : Prop :=
  exists status_code,
    send s r = (s', Response status_code text) /\ is_http_error status_code = false.

(** The remote side cannot be reached, or answers [r] with an error
    status. *)
Definition refuses (s : server) (r : request) (s' : server) : Prop :=
  fst (send s r) = s' /\
  match snd (send s r) with
  | Failed => True
  | Response status_code _ => is_http_error status_code = true
  end.

(** The state after [r] has been sent and the remote side is in [s']. *)
Definition sent (r : request) (s' : server) (m : machine) : machine :=
  {| self := self m; remote := s';
     calls := calls m ++
              [{| c_request := r;
                  c_guard := _validate_salesforce_object (self m) |}] |}.

Definition with_self (f : ObjectsHandler -> ObjectsHandler) (m : machine)
  : machine :=
  {| self := f (self m); remote := remote m; calls := calls m |}.

(** The connector after a completed authentication. *)
Definition logged_in (instance_url access_token : json) (h : ObjectsHandler)
  : ObjectsHandler :=
  set_request_headers
    (dict_set "Authorization" ("OAuth " +:+ format access_token) (request_headers h))
    (set_access_token access_token
       (set_instance instance_url (set_is_authenticated true h))).

(** The body a dispatch attaches to its request. *)
Definition sent_body (method : string) (payload : option payload_t) : body_t :=
  if has_payload method then json_of payload else NoBody.

(** The state after a schema fetch sent [r]: the guard was off while the
    request left, is on again once the answer is in, and [f] stores the
    result. *)
Definition fetched (f : ObjectsHandler -> ObjectsHandler) (r : request)
    (s' : server) (m : machine) : machine :=
  with_self (fun h => f (set_validate true h))
    (sent r s' (with_self (set_validate false) m)).

(** A dispatcher that keeps the invariant. *)
Definition keeps_evolving (recur : dispatcher) : Prop :=
  forall method path payload m o m',
    recur method path payload m = (o, m') -> evolves m m'.

(** A computation that never exhausts the recursion budget. *)
Definition total {A} (c : M A) : Prop :=
  forall m, fst (c m) <> OutOfFuel.

(** A trace entry whose request carries a JSON body. *)
Definition carries_json (c : call) : bool :=
  match body (c_request c) with
  | Json _ => true
  | _ => false
  end.

(** From [m] to [m'] at most [k] requests were sent, none with a JSON
    body. *)
Definition adds (k : nat) (m m' : machine) : Prop :=
  exists new, calls m' = calls m ++ new /\ length new <= k /\
              Forall (fun c => carries_json c = false) new.

(** [n] calls of [c] in a row, stopping at the first that does not
    return. *)
Fixpoint times {A} (n : nat) (c : M A) : M (list A) :=
  match n with
  | 0 => ret []
  | S n' => x <- c ;; xs <- times n' c ;; ret (x :: xs)
  end.

(** In a list of guard values: once false, false up to the end. *)
Fixpoint stays_off (gs : list bool) : bool :=
  match gs with
  | [] => true
  | true :: rest => stays_off rest
  | false :: rest => forallb negb rest
  end.

End Connector.

(** ** Scripted platforms for the worked examples

    A remote side that answers from a table keyed by verb and URL (404
    for anything else), and a decoder that knows the bodies in use. *)

Module Script.

Definition route : Type := (string * string * reply)%type.

Definition answer (table : list route) (r : request) : reply :=
  match find (fun e => String.eqb (fst (fst e)) (verb r) &&
                       String.eqb (snd (fst e)) (url r)) table with
  | Some (_, rep) => rep
  | None => Response 404 "not found"
  end.

Definition decode (bodies : list (string * json)) (text : string) : option json :=
  match find (fun e => String.eqb (fst e) text) bodies with
  | Some (_, v) => Some v
  | None => None
  end.

Definition platform (table : list route) (bodies : list (string * json))
  : Platform :=
  {| server := unit;
     send := fun s r => (s, answer table r);
     json_loads := decode bodies;
     format_other := fun _ => "?" |}.

Definition settings : config :=
  {| _auth_url := "https://login.example/token";
     _username := "user";
     _password := "secret";
     _client_id := "id";
     _client_secret := "key";
     _api_version := "47.0";
     _grant_type := "password" |}.

Definition base : string := "https://na1.example/services/data/v47.0/".

Definition bodies : list (string * json) :=
  [("auth-body",
    JObj [("instance_url", JStr "https://na1.example"); ("access_token", JStr "T0K")]);
   ("auth-body-without-token",
    JObj [("instance_url", JStr "https://na1.example")]);
   ("sobjects-body",
    JObj [("sobjects", JArr [JObj [("name", JStr "Account")];
                             JObj [("name", JStr "Contact")]])]);
   ("no-sobjects-body", JObj [("sobjects", JArr [])]);
   ("contact-body",
    JObj [("fields", JArr [JObj [("name", JStr "FirstName")];
                           JObj [("name", JStr "LastName")];
                           JObj [("name", JStr "Email")]])]);
   ("account-body",
    JObj [("fields", JArr [JObj [("name", JStr "Name")]])])].

(** Every exchange succeeds. *)
Definition healthy : Platform :=
  platform
    [("POST", "https://login.example/token", Response 200 "auth-body");
     ("GET", base +:+ "sobjects", Response 200 "sobjects-body");
     ("GET", base +:+ "sobjects/Contact/describe", Response 200 "contact-body");
     ("GET", base +:+ "sobjects/Account/describe", Response 200 "account-body");
     ("POST", base +:+ "sobjects/Contact", Response 201 "created")]
    bodies.

(** An organisation that lists no object at all. *)
Definition bare : Platform :=
  platform
    [("POST", "https://login.example/token", Response 200 "auth-body");
     ("GET", base +:+ "sobjects", Response 200 "no-sobjects-body")]
    bodies.

(** The listing of objects is down. *)
Definition listing_down : Platform :=
  platform
    [("POST", "https://login.example/token", Response 200 "auth-body");
     ("GET", base +:+ "sobjects", Response 503 "unavailable");
     ("POST", base +:+ "sobjects/Nonsense", Response 201 "created")]
    bodies.

(** The token endpoint answers 200 with a body that has no access_token. *)
Definition tokenless : Platform :=
  platform
    [("POST", "https://login.example/token", Response 200 "auth-body-without-token");
     ("GET", base +:+ "sobjects", Response 200 "sobjects-body")]
    bodies.

(** The remote side also answers one SOQL query. *)
Definition query_bodies : list (string * json) :=
  ("records-body", JObj [("records", JArr [JObj [("Name", JStr "Acme")]])]) :: bodies.

Definition querying : Platform :=
  platform
    [("POST", "https://login.example/token", Response 200 "auth-body");
     ("GET", base +:+ "sobjects", Response 200 "sobjects-body");
     ("GET", base +:+ "query?q=SELECT+Name+from+Account", Response 200 "records-body")]
    query_bodies.

(** The description of Account lists no field. *)
Definition blank : Platform :=
  platform
    [("POST", "https://login.example/token", Response 200 "auth-body");
     ("GET", base +:+ "sobjects/Account/describe", Response 200 "no-fields-body")]
    (("no-fields-body", JObj [("fields", JArr [])]) :: bodies).

(** The token endpoint turns the connector away. *)
Definition locked_out : Platform :=
  platform [("POST", "https://login.example/token", Response 401 "denied")] bodies.

Definition start (P : Platform) (s : @server P) : @machine P :=
  @fresh P settings s.

End Script.

(** The connectors and the payload of the worked examples. *)

Definition example_payload : payload_t := [("FirstName", "A"); ("LastName", "B")].

Definition example_session : ObjectsHandler :=
  @logged_in Script.healthy (JStr "https://na1.example") (JStr "T0K")
    (__init__ Script.settings).

(** The connector of the examples, as constructed. *)
Definition healthy_start : @machine Script.healthy := Script.start Script.healthy tt.

(** The same connector once authenticated. *)
Definition healthy_authenticated : @machine Script.healthy :=
  snd (@ensure_authenticated Script.healthy healthy_start).

Definition listing_down_authenticated : @machine Script.listing_down :=
  snd (@ensure_authenticated Script.listing_down
         (Script.start Script.listing_down tt)).

Definition tokenless_start : @machine Script.tokenless :=
  Script.start Script.tokenless tt.

Definition bare_start : @machine Script.bare := Script.start Script.bare tt.

(** The connector after the POST of the end-to-end example:
    authenticated, with the object names and the fields of Contact
    cached. *)
Definition healthy_warm : @machine Script.healthy :=
  snd (@do_request Script.healthy 2 "POST" "sobjects/Contact" (Some example_payload)
         healthy_start).

Definition querying_authenticated : @machine Script.querying :=
  snd (@ensure_authenticated Script.querying (Script.start Script.querying tt)).

Definition locked_out_start : @machine Script.locked_out :=
  Script.start Script.locked_out tt.

Definition blank_start : @machine Script.blank := Script.start Script.blank tt.


(** * Properties *)

(** ** PathInterpreter *)

(** Python reads the text FROM+ as: F, R, O, then one or more M; and the
    text +WHERE after the group as a quantifier on the group followed by
    WHERE.  Neither plus sign is a literal character of the pattern. *)
Lemma pattern_from_compiled :
  Re.compile pattern_from =
  Some (Re.seq_of [Re.Lit "F"; Re.Lit "R"; Re.Lit "O"; Re.MaxRepeat 1 (Re.Lit "M");
                   Re.Group 1 (Re.seq_of [Re.MaxRepeat 0 Re.AnyChar])]).
Proof. reflexivity. Qed.

Lemma pattern_from_where_compiled :
  Re.compile pattern_from_where =
  Some (Re.seq_of [Re.Lit "F"; Re.Lit "R"; Re.Lit "O"; Re.MaxRepeat 1 (Re.Lit "M");
                   Re.MaxRepeat 1 (Re.Group 1 (Re.seq_of [Re.MaxRepeat 0 Re.AnyChar]));
                   Re.Lit "W"; Re.Lit "H"; Re.Lit "E"; Re.Lit "R"; Re.Lit "E"]).
Proof. reflexivity. Qed.

(** C1.  On the five tabulated paths the code returns the listed value for
    the three sobjects paths, but for the two SOQL paths it returns
    "+Account" (no WHERE) and the empty string (with WHERE) where the
    table lists "Account". *)
Theorem object_name_on_tabulated_paths :
  _obtain_salesforce_object_name_from_path "sobjects/Account/describe" = Ok "Account" /\
  _obtain_salesforce_object_name_from_path "sobjects/Contact" = Ok "Contact" /\
  _obtain_salesforce_object_name_from_path "sobjects" = Ok "" /\
  _obtain_salesforce_object_name_from_path "query?q=SELECT+Name+FROM+Account"
    = Ok "+Account" /\
  _obtain_salesforce_object_name_from_path
    "query?q=SELECT+Name+FROM+Account+WHERE+Id='1'" = Ok "".
Proof. repeat split; vm_compute; reflexivity. Qed.

(** A path outside the four shapes makes [str.index] raise. *)
Lemma object_name_without_sobjects (path : string) :
  PyStr.contains "describe" path = false ->
  PyStr.contains "query?q=SELECT" path = false ->
  PyStr.contains "sobjects" path = false ->
  _obtain_salesforce_object_name_from_path path
    = Raise (ValueError "substring not found").
Proof.
  intros Hd Hq Hs. unfold _obtain_salesforce_object_name_from_path.
  rewrite Hd, Hq.
  destruct (String.eqb_spec path "sobjects") as [-> | _].
  - discriminate Hs.
  - unfold PyStr.index. unfold PyStr.contains in Hs.
    destruct (String.index 0 "sobjects" path); [discriminate | reflexivity].
Qed.

(** C5.  The function is not total: a path without the substring sobjects
    (here a SOQL query written in lower case), a describe path without a
    slash, and a path in which sobjects is not the first segment all
    raise. *)
Theorem object_name_raises :
  _obtain_salesforce_object_name_from_path "query?q=select+Name+from+Account"
    = Raise (ValueError "substring not found") /\
  _obtain_salesforce_object_name_from_path "describe" = Raise IndexError /\
  _obtain_salesforce_object_name_from_path "v47.0/sobjects/Account" = Raise IndexError.
Proof. repeat split; vm_compute; reflexivity. Qed.

(** ** PayloadValidator *)

Lemma validate_all_allowed (payload : payload_t) (allowed : list json) :
  Forall (fun kv => PyJson.str_in (fst kv) allowed = true) payload ->
  _validate_payload_content payload allowed = Ok tt.
Proof.
  induction 1 as [| [k v] rest Hk _ IH]; simpl; [reflexivity |].
  simpl in Hk. rewrite Hk. exact IH.
Qed.

Lemma validate_first_offender (before after : payload_t) (k v : string)
    (allowed : list json) :
  Forall (fun kv => PyJson.str_in (fst kv) allowed = true) before ->
  PyJson.str_in k allowed = false ->
  _validate_payload_content (before ++ (k, v) :: after) allowed
    = Raise (ValueError (k +:+ " isn't a valid field")).
Proof.
  intros Hb Hk. induction Hb as [| [k' v'] rest Hk' _ IH]; simpl.
  - rewrite Hk. reflexivity.
  - simpl in Hk'. rewrite Hk'. exact IH.
Qed.

(** C8.  Validation raises for the first key, in payload order, that is
    not an allowed field, whatever follows it; it returns normally when
    every key is allowed, in particular on the empty payload.  The
    function only computes a result. *)
Theorem validate_payload_fail_fast (allowed : list json) :
  (forall before after k v,
      Forall (fun kv => PyJson.str_in (fst kv) allowed = true) before ->
      PyJson.str_in k allowed = false ->
      _validate_payload_content (before ++ (k, v) :: after) allowed
        = Raise (ValueError (k +:+ " isn't a valid field"))) /\
  (forall payload,
      Forall (fun kv => PyJson.str_in (fst kv) allowed = true) payload ->
      _validate_payload_content payload allowed = Ok tt) /\
  _validate_payload_content [] allowed = Ok tt.
Proof.
  split; [| split].
  - intros. by apply validate_first_offender.
  - intros. by apply validate_all_allowed.
  - reflexivity.
Qed.

Lemma validate_payload_fail_fast_witness :
  _validate_payload_content
    ([("Name", "x")] ++ ("Bogus", "y") :: [("Worse", "z"); ("Email", "e")])
    [JStr "Name"; JStr "Email"]
    = Raise (ValueError ("Bogus" +:+ " isn't a valid field")) /\
  _validate_payload_content [("Email", "e"); ("Name", "x")] [JStr "Name"; JStr "Email"]
    = Ok tt.
Proof.
  split.
  - apply (proj1 (validate_payload_fail_fast [JStr "Name"; JStr "Email"])).
    + repeat constructor.
    + reflexivity.
  - apply (proj1 (proj2 (validate_payload_fail_fast [JStr "Name"; JStr "Email"]))).
    repeat constructor.
Defined.

(** ** The stateful protocol *)

Section Protocol.

Context {P : Platform}.

Abbreviation guard m := (_validate_salesforce_object (self m)).
Abbreviation authed m := (_is_authenticated (self m)).
Abbreviation names_cache m := (_salesforce_object_names_cache (self m)).
Abbreviation fields_cache m := (_salesforce_object_fields_cache (self m)).

(** Case analysis on the scrutinees of the goal, innermost first. *)
Ltac crunch :=
  repeat (simpl in *;
          match goal with
          | |- context [match ?x with _ => _ end] =>
              lazymatch x with
              | context [match _ with _ => _ end] => fail
              | _ => destruct x eqn:?
              end
          end);
  simpl in *.

Lemma loads_fuel text : loads text <> OutOfFuel.
Proof. unfold loads. by destruct (json_loads text). Qed.

Lemma getitem_fuel v key : PyJson.getitem v key <> OutOfFuel.
Proof.
  destruct v; simpl; try discriminate.
  destruct (find _ members) as [[? ?] |]; discriminate.
Qed.

Lemma iter_fuel v : PyJson.iter v <> OutOfFuel.
Proof. by destruct v. Qed.

Lemma getitems_fuel xs key : PyJson.getitems xs key <> OutOfFuel.
Proof.
  induction xs as [| x xs IH]; simpl; [discriminate |].
  pose proof (getitem_fuel x key).
  destruct (PyJson.getitem x key); try congruence.
  destruct (PyJson.getitems xs key); congruence.
Qed.

Lemma names_under_fuel key text : names_under key text <> OutOfFuel.
Proof.
  unfold names_under.
  pose proof (loads_fuel text).
  destruct (loads text) as [v | |]; try congruence.
  pose proof (getitem_fuel v key).
  destruct (PyJson.getitem v key) as [l | |]; try congruence.
  pose proof (iter_fuel l).
  destruct (PyJson.iter l); try congruence.
  apply getitems_fuel.
Qed.

Lemma item_fuel {A} (l : list A) i : PyStr.item l i <> OutOfFuel.
Proof. unfold PyStr.item. by destruct (l !! i). Qed.

Lemma obtain_fuel path :
  _obtain_salesforce_object_name_from_path path <> OutOfFuel.
Proof.
  unfold _obtain_salesforce_object_name_from_path, PyStr.index.
  destruct (PyStr.contains "describe" path); [apply item_fuel |].
  destruct (PyStr.contains "query?q=SELECT" path).
  - destruct (PyStr.contains "WHERE" path).
    + by destruct (Re.search pattern_from_where path).
    + by destruct (Re.search pattern_from path).
  - destruct (String.eqb path "sobjects"); [discriminate |].
    destruct (String.index 0 "sobjects" path); [apply item_fuel | discriminate].
Qed.

Lemma validate_fuel payload allowed :
  _validate_payload_content payload allowed <> OutOfFuel.
Proof.
  induction payload as [| [k v] rest IH]; simpl; [discriminate |].
  destruct (PyJson.str_in k allowed); simpl; [exact IH | discriminate].
Qed.

(** Discharge a case in which a library call would have run out of fuel. *)
Ltac nofuel :=
  exfalso;
  match goal with
  | H : loads _ = OutOfFuel |- _ => exact (loads_fuel _ H)
  | H : PyJson.getitem _ _ = OutOfFuel |- _ => exact (getitem_fuel _ _ H)
  | H : names_under _ _ = OutOfFuel |- _ => exact (names_under_fuel _ _ H)
  | H : _obtain_salesforce_object_name_from_path _ = OutOfFuel |- _ =>
      exact (obtain_fuel _ H)
  | H : _validate_payload_content _ _ = OutOfFuel |- _ =>
      exact (validate_fuel _ _ H)
  end.

Lemma authenticate_frame (m : machine) :
  fst (_authenticate m) <> OutOfFuel /\
  guard (snd (_authenticate m)) = guard m /\
  names_cache (snd (_authenticate m)) = names_cache m /\
  fields_cache (snd (_authenticate m)) = fields_cache m /\
  cfg (self (snd (_authenticate m))) = cfg (self m) /\
  calls (snd (_authenticate m)) =
    calls m ++ [{| c_request := auth_request (self m); c_guard := guard m |}] /\
  (is_ok (fst (_authenticate m)) = true -> authed (snd (_authenticate m)) = true).
Proof.
  unfold _authenticate, checked, transport, bind, get_self, update, lift, ret, raise.
  crunch; repeat split; try congruence; try reflexivity; nofuel.
Qed.

Lemma ensure_authenticated_done (m : machine) :
  authed m = true -> ensure_authenticated m = (Ok tt, m).
Proof.
  intros H. unfold ensure_authenticated, bind, get_self. simpl. by rewrite H.
Qed.

Lemma evolves_refl (m : machine) : evolves m m.
Proof.
  split; auto.
  exists []. split; [by rewrite app_nil_r | by constructor].
Qed.

Lemma sent_by_same (h h' : ObjectsHandler) (c : call) :
  cfg h' = cfg h ->
  _instance_scheme_and_authority h' = _instance_scheme_and_authority h ->
  request_headers h' = request_headers h ->
  sent_by h c -> sent_by h' c.
Proof.
  intros Hc Hi Hh (Ha & Hhd & path & Hu). repeat split; [done | congruence |].
  exists path. rewrite Hu. unfold format_url. by rewrite Hc, Hi.
Qed.

Lemma evolves_trans (m1 m2 m3 : machine) :
  evolves m1 m2 -> evolves m2 m3 -> evolves m1 m3.
Proof.
  intros [c1 s1 (n1 & e1 & f1) nm1 fl1] [c2 s2 (n2 & e2 & f2) nm2 fl2].
  split.
  - congruence.
  - intros Ha. destruct (s1 Ha) as (a1 & i1 & t1 & h1).
    destruct (s2 a1) as (a2 & i2 & t2 & h2). repeat split; congruence.
  - exists (n1 ++ n2). split; [by rewrite e2, e1, app_assoc |].
    intros Ha. destruct (s1 Ha) as (a1 & i1 & t1 & h1).
    apply Forall_app. split; [by apply f1 |].
    eapply Forall_impl; [by apply f2 |].
    intros c. apply sent_by_same; congruence.
  - intros Hn. rewrite nm2; [by apply nm1 |]. by rewrite nm1.
  - intros name fields Hl. by apply fl2, fl1.
Qed.

Lemma checked_run (r : request) (m : machine) :
  checked r m =
  (match snd (send (remote m) r) with
   | Failed => Raise RequestException
   | Response status_code text =>
       if is_http_error status_code then Raise RequestException else Ok text
   end,
   {| self := self m;
      remote := fst (send (remote m) r);
      calls := calls m ++ [{| c_request := r; c_guard := guard m |}] |}).
Proof.
  unfold checked, transport, bind.
  destruct (send (remote m) r) as [s [| status_code text]]; simpl; [done |].
  by destruct (is_http_error status_code).
Qed.

Lemma quiet_refl (m : machine) : quiet m m.
Proof. split; auto. exists []. by rewrite app_nil_r. Qed.

Lemma ensure_authenticated_spec (m m' : machine) (o : outcome unit) :
  ensure_authenticated m = (o, m') ->
  o <> OutOfFuel /\ quiet m m' /\ evolves m m' /\
  (is_ok o = true -> authed m' = true).
Proof.
  unfold ensure_authenticated, bind, get_self. simpl.
  destruct (authed m) eqn:Ha; simpl.
  - intros [= <- <-]. split_and!; auto using quiet_refl, evolves_refl.
  - intros E.
    destruct (authenticate_frame m) as (Hf & Hg & Hn & Hfl & Hc & Hcalls & Hok).
    rewrite E in *. simpl in *. split_and!; try done.
    + split; try done. eexists. split; [exact Hcalls |]. by repeat constructor.
    + split; try congruence.
      eexists. split; [exact Hcalls | congruence].
Qed.

(** Open the outermost [bind] of a run recorded in [E]. *)
Ltac open_bind E a m1 E1 :=
  unfold bind at 1 in E;
  match type of E with
  | (match ?c with _ => _ end) = _ => destruct c as [[a | ? |] m1] eqn:E1
  end;
  cbv beta iota in E.

Lemma evolves_send (m : machine) (s : server) (method path : string) (b : body_t) :
  (forall data, b <> Form data) ->
  evolves m
    {| self := self m; remote := s;
       calls := calls m ++
                [{| c_request := dispatch_request (self m) method path b;
                    c_guard := guard m |}] |}.
Proof.
  intros Hb. split; simpl; auto.
  eexists. split; [done |]. intros _. constructor; [| constructor].
  split_and!; simpl; eauto.
  unfold is_auth_call. simpl. destruct b; try done. by destruct (Hb data).
Qed.

Lemma json_of_not_form (payload : option payload_t) data : json_of payload <> Form data.
Proof. by destruct payload. Qed.

Lemma evolves_set_validate (m : machine) (b : bool) :
  evolves m {| self := set_validate b (self m); remote := remote m; calls := calls m |}.
Proof.
  split; simpl; auto. exists []. split; [by rewrite app_nil_r | by constructor].
Qed.

(** The two ways a checked request ends. *)
Lemma checked_cases (r : request) (m m' : machine) (o : outcome string) :
  checked r m = (o, m') ->
  m' = {| self := self m; remote := fst (send (remote m) r);
          calls := calls m ++ [{| c_request := r; c_guard := guard m |}] |} /\
  (o = Raise RequestException \/ exists text, o = Ok text).
Proof.
  rewrite checked_run. intros [= <- <-]. split; [done |].
  destruct (snd (send (remote m) r)) as [| status_code text]; [by left |].
  destruct (is_http_error status_code); [by left | right; by eexists].
Qed.

(** Steps of a run that need no case analysis. *)
Lemma bind_get {A} (k : ObjectsHandler -> M A) (m : machine) :
  bind get_self k m = k (self m) m.
Proof. reflexivity. Qed.

Lemma bind_ret {A B} (a : A) (k : A -> M B) (m : machine) :
  bind (ret a) k m = k a m.
Proof. reflexivity. Qed.

Lemma bind_raise {A B} (e : exn) (k : A -> M B) (m : machine) :
  bind (raise e) k m = (Raise e, m).
Proof. reflexivity. Qed.

Lemma bind_update {A} (f : ObjectsHandler -> ObjectsHandler) (k : unit -> M A)
    (m : machine) :
  bind (update f) k m =
  k tt {| self := f (self m); remote := remote m; calls := calls m |}.
Proof. reflexivity. Qed.

Lemma bind_lift {A B} (o : outcome A) (k : A -> M B) (m : machine) :
  bind (lift o) k m =
  match o with
  | Ok a => k a m
  | Raise e => (Raise e, m)
  | OutOfFuel => (OutOfFuel, m)
  end.
Proof. unfold bind, lift. by destruct o. Qed.

Lemma bind_assert {A} (b : bool) (msg : string) (k : unit -> M A) (m : machine) :
  bind (py_assert b msg) k m =
  if b then k tt m else (Raise (AssertionError msg), m).
Proof. by destruct b. Qed.

(** Everything a dispatch without validation does. *)
Lemma unvalidated_request_spec (method path : string)
    (payload : option payload_t) (m m' : machine) (o : outcome string) :
  unvalidated_request method path payload m = (o, m') ->
  o <> OutOfFuel /\
  guard m' = (if is_ok o then true else guard m) /\
  names_cache m' = names_cache m /\
  fields_cache m' = fields_cache m /\
  (exists new, calls m' = calls m ++ new /\
               Forall (fun c => c_guard c = guard m) new) /\
  (is_ok o = true -> authed m' = true) /\
  evolves m m'.
Proof.
  unfold unvalidated_request. intros E.
  rewrite bind_assert in E. destruct (supported method).
  2: { inversion E; subst. simpl. split_and!; try done; auto using evolves_refl.
       exists []. by rewrite app_nil_r. }
  open_bind E u1 m2 E2;
    apply ensure_authenticated_spec in E2 as (Hf & [Hg Hn Hfl (new & Hc & Hgs)] & Hev & Hok);
    [| inversion E; subst; simpl; split_and!; try done; eauto | done].
  rewrite bind_get in E.
  assert (forall b o1 m3,
             checked (dispatch_request (self m2) method path b) m2 = (o1, m3) ->
             (forall data, b <> Form data) ->
             (o1 = Raise RequestException \/ exists text, o1 = Ok text) /\
             guard m3 = guard m /\ names_cache m3 = names_cache m /\
             fields_cache m3 = fields_cache m /\ authed m3 = true /\
             (exists new, calls m3 = calls m ++ new /\
                          Forall (fun c => c_guard c = guard m) new) /\
             evolves m m3) as Hsend.
  { intros b o1 m3 Ec Hb. apply checked_cases in Ec as [-> Ho]. simpl.
    split_and!; auto.
    - exists (new ++ [{| c_request := dispatch_request (self m2) method path b;
                        c_guard := guard m2 |}]).
      split; [by rewrite Hc, app_assoc |].
      apply Forall_app. split; [done |]. by repeat constructor.
    - eapply evolves_trans; [exact Hev |]. by apply evolves_send. }
  open_bind E text m3 E3.
  - (* the request returned *)
    assert (guard m3 = guard m /\ names_cache m3 = names_cache m /\
            fields_cache m3 = fields_cache m /\ authed m3 = true /\
            (exists new, calls m3 = calls m ++ new /\
                         Forall (fun c => c_guard c = guard m) new) /\
            evolves m m3) as (Hg3 & Hn3 & Hf3 & Ha3 & Hc3 & Hev3).
    { destruct (has_payload method).
      - rewrite bind_assert in E3. destruct (payload_truthy payload); [| done].
        rewrite bind_get in E3.
        apply Hsend in E3; [tauto | apply json_of_not_form].
      - rewrite bind_get in E3. apply Hsend in E3; [tauto | done]. }
    rewrite bind_update in E. unfold ret in E. inversion E; subst. simpl.
    split_and!; auto.
    eapply evolves_trans; [exact Hev3 | apply evolves_set_validate].
  - (* the request, or the payload assertion, raised *)
    inversion E; subst. simpl.
    destruct (has_payload method).
    + rewrite bind_assert in E3. destruct (payload_truthy payload).
      * rewrite bind_get in E3. apply Hsend in E3; [| apply json_of_not_form].
        split_and!; try tauto; try done.
      * inversion E3; subst. split_and!; eauto; try done.
    + rewrite bind_get in E3. apply Hsend in E3; [| done]. split_and!; try tauto; try done.
  - (* out of fuel: impossible *)
    exfalso. destruct (has_payload method).
    + rewrite bind_assert in E3. destruct (payload_truthy payload); [| done].
      rewrite bind_get in E3.
      apply Hsend in E3 as ([? | [? ?]] & _); [done | done | apply json_of_not_form].
    + rewrite bind_get in E3. apply Hsend in E3 as ([? | [? ?]] & _); done.
Qed.

Lemma bind_of {A B} (c : M A) (k : A -> M B) (m m1 : machine) (o : outcome A) :
  c m = (o, m1) ->
  bind c k m = match o with
               | Ok a => k a m1
               | Raise e => (Raise e, m1)
               | OutOfFuel => (OutOfFuel, m1)
               end.
Proof. intros E. unfold bind. rewrite E. by destruct o. Qed.

Lemma bind_ext {A B} (c1 c2 : M A) (k1 k2 : A -> M B) (m : machine) :
  c1 m = c2 m ->
  (forall a m', k1 a m' = k2 a m') ->
  bind c1 k1 m = bind c2 k2 m.
Proof.
  intros Hc Hk. unfold bind. rewrite Hc.
  destruct (c2 m) as [[a | e |] m']; auto.
Qed.

Lemma check_object_guard_off (recur : dispatcher) (path : string) (m : machine) :
  guard m = false -> check_object recur path m = (Ok None, m).
Proof. intros Hg. unfold check_object. by rewrite bind_get, Hg. Qed.

(** With the guard off, a dispatch is the dispatch without validation,
    whatever it would call back into. *)
Lemma do_request_body_guard_off (recur : dispatcher) (method path : string)
    (payload : option payload_t) (m : machine) :
  guard m = false ->
  do_request_body recur method path payload m
    = unvalidated_request method path payload m.
Proof.
  intros Hg. unfold do_request_body, unvalidated_request.
  rewrite !bind_assert. destruct (supported method); [| done].
  destruct (ensure_authenticated m) as [o m1] eqn:E.
  rewrite !(bind_of _ _ _ _ _ E).
  apply ensure_authenticated_spec in E as (_ & [Hg1 _ _ _] & _).
  destruct o as [[] | e |]; try done.
  rewrite Hg in Hg1.
  rewrite (bind_of _ _ _ _ _ (check_object_guard_off recur path m1 Hg1)).
  rewrite !bind_get.
  apply bind_ext; [| done].
  unfold attempt. destruct (has_payload method); [| done].
  rewrite !bind_assert. destruct (payload_truthy payload); [| done].
  by rewrite !bind_get, Hg1, bind_ret, bind_get.
Qed.

Lemma names_via_ext (r1 r2 : dispatcher) (m : machine) :
  agree_off r1 r2 ->
  get_salesforce_object_names_via r1 m = get_salesforce_object_names_via r2 m.
Proof.
  intros H. unfold get_salesforce_object_names_via. rewrite !bind_get.
  apply bind_ext; [| done].
  destruct (names_cache m); [| done].
  rewrite !bind_update. apply bind_ext; [| done]. by apply H.
Qed.

Lemma fields_via_ext (r1 r2 : dispatcher) (name : string) (m : machine) :
  agree_off r1 r2 ->
  get_salesforce_object_fields_via r1 name m
    = get_salesforce_object_fields_via r2 name m.
Proof.
  intros H. unfold get_salesforce_object_fields_via. rewrite !bind_get.
  apply bind_ext; [| done].
  destruct (fields_cache m !! name); [done |].
  rewrite !bind_update. apply bind_ext; [| done]. by apply H.
Qed.

(** The body of [do_request] calls back only with the guard off. *)
Lemma do_request_body_ext (r1 r2 : dispatcher) (method path : string)
    (payload : option payload_t) (m : machine) :
  agree_off r1 r2 ->
  do_request_body r1 method path payload m = do_request_body r2 method path payload m.
Proof.
  intros H. unfold do_request_body, check_object, attempt.
  repeat first
    [ reflexivity
    | apply names_via_ext; exact H
    | apply fields_via_ext; exact H
    | apply bind_ext; [| intros ? ?]
    | progress rewrite !bind_get
    | match goal with
      | |- (if ?b then _ else _) _ = _ => destruct b
      | |- bind (match ?x with _ => _ end) _ _ = _ => destruct x
      end ].
Qed.

Lemma do_request_guard_off (fuel : nat) (method path : string)
    (payload : option payload_t) (m : machine) :
  guard m = false ->
  do_request (S fuel) method path payload m
    = unvalidated_request method path payload m.
Proof. apply do_request_body_guard_off. Qed.

(** From two levels on, more fuel changes nothing. *)
Lemma do_request_two_levels (fuel : nat) (method path : string)
    (payload : option payload_t) (m : machine) :
  do_request (S (S fuel)) method path payload m
    = do_request_body unvalidated_request method path payload m.
Proof.
  simpl. apply do_request_body_ext.
  intros me pa pl m0 Hg. by apply do_request_body_guard_off.
Qed.

(** *** Runs against a remote side whose answers are known *)

Lemma checked_ok (r : request) (m : machine) (s' : server) (text : string) :
  answers (remote m) r s' text -> checked r m = (Ok text, sent r s' m).
Proof.
  intros (status_code & Hs & He). rewrite checked_run, Hs. simpl. by rewrite He.
Qed.

Lemma checked_refused (r : request) (m : machine) (s' : server) :
  refuses (remote m) r s' -> checked r m = (Raise RequestException, sent r s' m).
Proof.
  intros [Hs He]. rewrite checked_run. unfold sent. rewrite Hs. f_equal.
  destruct (snd (send (remote m) r)) as [| status_code text]; [done |].
  by rewrite He.
Qed.

Lemma authenticate_ok (m : machine) (s' : server) (text : string)
    (d instance_url access_token : json) :
  answers (remote m) (auth_request (self m)) s' text ->
  loads text = Ok d ->
  PyJson.getitem d "instance_url" = Ok instance_url ->
  PyJson.getitem d "access_token" = Ok access_token ->
  _authenticate m =
  (Ok tt, with_self (logged_in instance_url access_token)
            (sent (auth_request (self m)) s' m)).
Proof.
  intros Ha Hl Hi Ht. unfold _authenticate.
  rewrite bind_get, (bind_of _ _ _ _ _ (checked_ok _ _ _ _ Ha)).
  by rewrite bind_update, bind_lift, Hl, bind_lift, Hi, bind_update, bind_lift, Ht,
    bind_update, bind_get.
Qed.

Lemma authenticate_without_instance_url (m : machine) (s' : server) (text : string)
    (d : json) (e : exn) :
  answers (remote m) (auth_request (self m)) s' text ->
  loads text = Ok d ->
  PyJson.getitem d "instance_url" = Raise e ->
  _authenticate m =
  (Raise e, with_self (set_is_authenticated true) (sent (auth_request (self m)) s' m)).
Proof.
  intros Ha Hl Hi. unfold _authenticate.
  rewrite bind_get, (bind_of _ _ _ _ _ (checked_ok _ _ _ _ Ha)).
  by rewrite bind_update, bind_lift, Hl, bind_lift, Hi.
Qed.

Lemma authenticate_without_access_token (m : machine) (s' : server) (text : string)
    (d instance_url : json) (e : exn) :
  answers (remote m) (auth_request (self m)) s' text ->
  loads text = Ok d ->
  PyJson.getitem d "instance_url" = Ok instance_url ->
  PyJson.getitem d "access_token" = Raise e ->
  _authenticate m =
  (Raise e,
   with_self (fun h => set_instance instance_url (set_is_authenticated true h))
     (sent (auth_request (self m)) s' m)).
Proof.
  intros Ha Hl Hi Ht. unfold _authenticate.
  rewrite bind_get, (bind_of _ _ _ _ _ (checked_ok _ _ _ _ Ha)).
  by rewrite bind_update, bind_lift, Hl, bind_lift, Hi, bind_update, bind_lift, Ht.
Qed.

Lemma unvalidated_request_ok (method path : string) (payload : option payload_t)
    (m : machine) (s' : server) (text : string) :
  authed m = true ->
  supported method = true ->
  (has_payload method = true -> payload_truthy payload = true) ->
  answers (remote m)
    (dispatch_request (self m) method path (sent_body method payload)) s' text ->
  unvalidated_request method path payload m =
  (Ok text,
   with_self (set_validate true)
     (sent (dispatch_request (self m) method path (sent_body method payload)) s' m)).
Proof.
  intros Ha Hm Hp Hs. unfold unvalidated_request.
  rewrite bind_assert, Hm, (bind_of _ _ _ _ _ (ensure_authenticated_done _ Ha)).
  rewrite bind_get. unfold sent_body in *.
  destruct (has_payload method).
  - erewrite bind_of;
      last by (rewrite bind_assert, Hp, bind_get by done; apply checked_ok).
    done.
  - erewrite bind_of; last by (rewrite bind_get; apply checked_ok).
    done.
Qed.


Lemma names_fetch_ok (m : machine) (s' : server) (text : string)
    (names : list json) :
  authed m = true ->
  names_cache m = [] ->
  answers (remote m) (dispatch_request (self m) "GET" "sobjects" NoBody) s' text ->
  names_under "sobjects" text = Ok names ->
  get_salesforce_object_names_via unvalidated_request m =
  (Ok names,
   fetched (set_names_cache names)
     (dispatch_request (self m) "GET" "sobjects" NoBody) s' m).
Proof.
  intros Ha Hn Hs Hx. unfold get_salesforce_object_names_via.
  rewrite bind_get, Hn.
  erewrite bind_of; last first.
  { rewrite bind_update.
    erewrite bind_of; last by (apply unvalidated_request_ok; [done .. | exact Hs]).
    cbv beta iota. rewrite bind_lift, Hx. reflexivity. }
  reflexivity.
Qed.

Lemma fields_fetch_ok (name : string) (m : machine) (s' : server) (text : string)
    (fields : list json) :
  authed m = true ->
  fields_cache m !! name = None ->
  answers (remote m)
    (dispatch_request (self m) "GET" ("sobjects/" +:+ name +:+ "/describe") NoBody)
    s' text ->
  names_under "fields" text = Ok fields ->
  get_salesforce_object_fields_via unvalidated_request name m =
  (Ok fields,
   fetched (fun h => set_fields_cache (<[name := fields]> (_salesforce_object_fields_cache h)) h)
     (dispatch_request (self m) "GET" ("sobjects/" +:+ name +:+ "/describe") NoBody)
     s' m).
Proof.
  intros Ha Hn Hs Hx. unfold get_salesforce_object_fields_via.
  rewrite bind_get, Hn.
  erewrite bind_of; last first.
  { rewrite bind_update.
    erewrite bind_of; last by (apply unvalidated_request_ok; [done .. | exact Hs]).
    cbv beta iota. rewrite bind_lift, Hx, bind_get. reflexivity. }
  cbv beta iota. rewrite bind_get. simpl. by rewrite lookup_insert_eq.
Qed.

(** C2.  A POST to sobjects/Contact with a non-empty payload of valid
    fields, on a connector just constructed, against a remote side that
    accepts the four exchanges: the trace is the authentication, GET
    sobjects, GET sobjects/Contact/describe and the POST, in that order
    and nothing else, and the result is the text of the POST response. *)
Theorem end_to_end_post (c : config) (s0 s1 s2 s3 s4 : server) (fuel : nat)
    (payload : payload_t) (auth_text names_text fields_text post_text : string)
    (d instance_url access_token : json) (names fields : list json) :
  let h := logged_in instance_url access_token (__init__ c) in
  2 <= fuel ->
  payload <> [] ->
  answers s0 (auth_request (__init__ c)) s1 auth_text ->
  loads auth_text = Ok d ->
  PyJson.getitem d "instance_url" = Ok instance_url ->
  PyJson.getitem d "access_token" = Ok access_token ->
  answers s1 (dispatch_request h "GET" "sobjects" NoBody) s2 names_text ->
  names_under "sobjects" names_text = Ok names ->
  PyJson.str_in "Contact" names = true ->
  answers s2 (dispatch_request h "GET" "sobjects/Contact/describe" NoBody) s3
    fields_text ->
  names_under "fields" fields_text = Ok fields ->
  Forall (fun kv => PyJson.str_in (fst kv) fields = true) payload ->
  answers s3 (dispatch_request h "POST" "sobjects/Contact" (Json payload)) s4
    post_text ->
  exists m',
    do_request fuel "POST" "sobjects/Contact" (Some payload) (fresh c s0)
      = (Ok post_text, m') /\
    remote m' = s4 /\
    map c_request (calls m') =
      [auth_request (__init__ c);
       dispatch_request h "GET" "sobjects" NoBody;
       dispatch_request h "GET" "sobjects/Contact/describe" NoBody;
       dispatch_request h "POST" "sobjects/Contact" (Json payload)].
Proof.
  intros h Hfuel Hpayload Hauth Hd Hi Ht Hnames Hns Hin Hdesc Hfs Hvalid Hpost.
  destruct fuel as [| [| fuel]]; [lia | lia |].
  rewrite do_request_two_levels. unfold do_request_body.
  rewrite bind_assert. change (supported "POST") with true. cbv iota.
  (* authentication *)
  erewrite bind_of; last first.
  { unfold ensure_authenticated. rewrite bind_get. simpl negb. cbv iota.
    eapply authenticate_ok; eauto. }
  cbv beta iota.
  set (m1 := with_self _ _).
  (* the object name and its check *)
  erewrite bind_of; last first.
  { unfold check_object. rewrite bind_get. change (guard m1) with true. cbv iota.
    rewrite bind_lift.
    change (_obtain_salesforce_object_name_from_path "sobjects/Contact")
      with (Ok (A:=string) "Contact").
    cbv iota. change (PyStr.truthy "Contact") with true. cbv iota.
    erewrite bind_of; last first.
    { erewrite bind_of;
        last by (eapply names_fetch_ok; [done | done | exact Hnames | exact Hns]).
      cbv beta iota. rewrite Hin. reflexivity. }
    reflexivity. }
  cbv beta iota.
  set (m2 := fetched _ _ _ _).
  rewrite bind_get.
  (* the payload, validated against the fields, and the request *)
  erewrite bind_of; last first.
  { unfold attempt. change (has_payload "POST") with true. cbv iota.
    rewrite bind_assert.
    replace (payload_truthy (Some payload)) with true by (by destruct payload).
    rewrite bind_get. change (guard m2) with true. cbv iota.
    erewrite bind_of; last first.
    { rewrite bind_ret.
      erewrite bind_of;
        last by (eapply fields_fetch_ok; [done | done | exact Hdesc | exact Hfs]).
      cbv beta iota. simpl default. rewrite (validate_all_allowed _ _ Hvalid).
      reflexivity. }
    cbv beta iota. rewrite bind_get. apply checked_ok. exact Hpost. }
  cbv beta iota. rewrite bind_update.
  eexists. split; [reflexivity |]. split; reflexivity.
Qed.

(** *** What the schema fetches do, whatever the remote side answers *)

Lemma ensure_authenticated_calls (m m' : machine) (o : outcome unit) :
  ensure_authenticated m = (o, m') ->
  exists pre, calls m' = calls m ++ pre /\
              Forall (fun c => is_auth_call c = true) pre /\
              (authed m = true -> pre = []).
Proof.
  unfold ensure_authenticated. rewrite bind_get.
  destruct (authed m) eqn:Ha; simpl.
  - intros [= <- <-]. exists []. by rewrite app_nil_r.
  - intros E. destruct (authenticate_frame m) as (_ & _ & _ & _ & _ & Hc & _).
    rewrite E in Hc. simpl in Hc. eexists. split; [exact Hc |].
    split; [by repeat constructor | done].
Qed.

(** A dispatch without validation that returns has sent exactly one
    request of its own, the last of the trace. *)
Lemma unvalidated_request_sent (method path : string) (payload : option payload_t)
    (m m' : machine) (text : string) :
  unvalidated_request method path payload m = (Ok text, m') ->
  exists pre,
    calls m' = calls m ++ pre ++
               [{| c_request :=
                     dispatch_request (self m') method path (sent_body method payload);
                   c_guard := guard m |}] /\
    Forall (fun c => is_auth_call c = true) pre /\
    (authed m = true -> pre = []).
Proof.
  unfold unvalidated_request. intros E.
  rewrite bind_assert in E. destruct (supported method); [| done].
  open_bind E u1 m2 E2; [| done | done].
  pose proof (ensure_authenticated_spec _ _ _ E2) as (_ & [Hg _ _ _] & _).
  apply ensure_authenticated_calls in E2 as (pre & Hc & Hpre & Hnil).
  rewrite bind_get in E.
  open_bind E text' m3 E3; [| done | done].
  rewrite bind_update in E. unfold ret in E. inversion E; subst. clear E.
  exists pre. split; [| done].
  assert (checked (dispatch_request (self m2) method path (sent_body method payload)) m2
          = (Ok text, m3)) as Ec.
  { unfold sent_body. destruct (has_payload method).
    - rewrite bind_assert in E3. destruct (payload_truthy payload); [| done].
      by rewrite bind_get in E3.
    - by rewrite bind_get in E3. }
  apply checked_cases in Ec as [-> _]. simpl.
  rewrite Hc, Hg, <- app_assoc. reflexivity.
Qed.

Lemma names_cached (recur : dispatcher) (m : machine) :
  names_cache m <> [] ->
  get_salesforce_object_names_via recur m = (Ok (names_cache m), m).
Proof.
  intros Hn. unfold get_salesforce_object_names_via. rewrite bind_get.
  destruct (names_cache m) as [| x xs] eqn:E; [done |].
  by rewrite bind_ret, bind_get, E.
Qed.

Lemma fields_cached (recur : dispatcher) (name : string) (fields : list json)
    (m : machine) :
  fields_cache m !! name = Some fields ->
  get_salesforce_object_fields_via recur name m = (Ok fields, m).
Proof.
  intros Hn. unfold get_salesforce_object_fields_via.
  rewrite bind_get, Hn, bind_ret, bind_get, Hn. reflexivity.
Qed.

(** Reading the names out of a response never raises a
    RequestException. *)
Lemma getitem_not_request v key : PyJson.getitem v key <> Raise RequestException.
Proof.
  destruct v; simpl; try discriminate.
  destruct (find _ members) as [[? ?] |]; discriminate.
Qed.

Lemma getitems_not_request xs key : PyJson.getitems xs key <> Raise RequestException.
Proof.
  induction xs as [| x xs IH]; simpl; [discriminate |].
  pose proof (getitem_not_request x key).
  destruct (PyJson.getitem x key); try congruence.
  destruct (PyJson.getitems xs key); congruence.
Qed.

Lemma names_under_not_request key text :
  names_under key text <> Raise RequestException.
Proof.
  unfold names_under, loads.
  destruct (json_loads text) as [v |]; [| discriminate].
  pose proof (getitem_not_request v key).
  destruct (PyJson.getitem v key) as [l | |]; try congruence.
  destruct l; simpl; try discriminate; apply getitems_not_request.
Qed.

Lemma names_fetch_spec (m m' : machine) (o : outcome (list json)) :
  names_cache m = [] ->
  get_salesforce_object_names_via unvalidated_request m = (o, m') ->
  o <> OutOfFuel /\
  fields_cache m' = fields_cache m /\
  (exists new, calls m' = calls m ++ new /\
               Forall (fun c => c_guard c = false) new) /\
  (forall names, o = Ok names ->
     guard m' = true /\ authed m' = true /\ names_cache m' = names /\
     exists pre,
       calls m' = calls m ++ pre ++
                  [{| c_request := dispatch_request (self m') "GET" "sobjects" NoBody;
                      c_guard := false |}] /\
       Forall (fun c => is_auth_call c = true) pre /\
       (authed m = true -> pre = [])) /\
  (o = Raise RequestException -> guard m' = false /\ names_cache m' = []).
Proof.
  intros Hn. unfold get_salesforce_object_names_via.
  rewrite bind_get, Hn. intros E.
  open_bind E u m1 E1.
  - (* the fetch went through *)
    rewrite bind_get in E. unfold ret in E. inversion E; subst. clear E.
    rewrite bind_update in E1.
    open_bind E1 response m2 E2; [| done | done].
    pose proof (unvalidated_request_spec _ _ _ _ _ _ E2)
      as (_ & Hg & Hnm & Hfl & Hc & Hok & _).
    apply unvalidated_request_sent in E2 as (pre & Hsent & Hpre & Hnil).
    rewrite bind_lift in E1.
    destruct (names_under "sobjects" response) as [names | |] eqn:Hx; [| done | done].
    unfold update in E1. inversion E1; subst. clear E1. simpl in *.
    split_and!; try done.
    intros names' [= <-]. split_and!; auto. exists pre. by split_and!.
  - (* something raised *)
    inversion E; subst. clear E.
    rewrite bind_update in E1.
    open_bind E1 response m2 E2.
    + pose proof (unvalidated_request_spec _ _ _ _ _ _ E2)
        as (_ & Hg & Hnm & Hfl & Hc & Hok & _).
      rewrite bind_lift in E1.
      destruct (names_under "sobjects" response) as [names | e' |] eqn:Hx;
        [done | | done].
      inversion E1; subst. clear E1. simpl in *. split_and!; try done.
      intros [= ->]. by destruct (names_under_not_request _ _ Hx).
    + inversion E1; subst. clear E1.
      pose proof (unvalidated_request_spec _ _ _ _ _ _ E2)
        as (_ & Hg & Hnm & Hfl & Hc & Hok & _).
      simpl in *. split_and!; try done. by rewrite Hnm.
    + by apply unvalidated_request_spec in E2 as (? & _).
  - (* out of fuel: impossible *)
    exfalso. rewrite bind_update in E1.
    open_bind E1 response m2 E2.
    + rewrite bind_lift in E1.
      pose proof (names_under_fuel "sobjects" response).
      by destruct (names_under "sobjects" response).
    + done.
    + by apply unvalidated_request_spec in E2 as (? & _).
Qed.

Lemma fields_fetch_spec (name : string) (m m' : machine) (o : outcome (list json)) :
  fields_cache m !! name = None ->
  get_salesforce_object_fields_via unvalidated_request name m = (o, m') ->
  o <> OutOfFuel /\
  names_cache m' = names_cache m /\
  (exists new, calls m' = calls m ++ new /\
               Forall (fun c => c_guard c = false) new) /\
  (forall fields, o = Ok fields ->
     guard m' = true /\ authed m' = true /\
     fields_cache m' = <[name := fields]> (fields_cache m) /\
     exists pre,
       calls m' = calls m ++ pre ++
                  [{| c_request :=
                        dispatch_request (self m') "GET"
                          ("sobjects/" +:+ name +:+ "/describe") NoBody;
                      c_guard := false |}] /\
       Forall (fun c => is_auth_call c = true) pre /\
       (authed m = true -> pre = [])) /\
  (o = Raise RequestException ->
     guard m' = false /\ fields_cache m' = fields_cache m).
Proof.
  intros Hn. unfold get_salesforce_object_fields_via.
  rewrite bind_get, Hn. intros E.
  open_bind E u m1 E1.
  - (* the fetch went through *)
    rewrite bind_get in E.
    rewrite bind_update in E1.
    open_bind E1 response m2 E2; [| done | done].
    pose proof (unvalidated_request_spec _ _ _ _ _ _ E2)
      as (_ & Hg & Hnm & Hfl & Hc & Hok & _).
    apply unvalidated_request_sent in E2 as (pre & Hsent & Hpre & Hnil).
    rewrite bind_lift in E1.
    destruct (names_under "fields" response) as [fields | |] eqn:Hx; [| done | done].
    rewrite bind_get in E1. unfold update in E1. inversion E1; subst. clear E1.
    simpl in *. rewrite lookup_insert_eq in E. inversion E; subst. clear E.
    simpl in *. rewrite Hfl.
    split_and!; try done.
    intros fields' [= <-]. split_and!; auto. exists pre. by split_and!.
  - (* something raised *)
    inversion E; subst. clear E.
    rewrite bind_update in E1.
    open_bind E1 response m2 E2.
    + pose proof (unvalidated_request_spec _ _ _ _ _ _ E2)
        as (_ & Hg & Hnm & Hfl & Hc & Hok & _).
      rewrite bind_lift in E1.
      destruct (names_under "fields" response) as [fields | e' |] eqn:Hx;
        [done | | done].
      inversion E1; subst. clear E1. simpl in *. split_and!; try done.
      intros [= ->]. by destruct (names_under_not_request _ _ Hx).
    + inversion E1; subst. clear E1.
      pose proof (unvalidated_request_spec _ _ _ _ _ _ E2)
        as (_ & Hg & Hnm & Hfl & Hc & Hok & _).
      simpl in *. split_and!; try done.
    + by apply unvalidated_request_spec in E2 as (? & _).
  - (* out of fuel: impossible *)
    exfalso. rewrite bind_update in E1.
    open_bind E1 response m2 E2.
    + rewrite bind_lift in E1.
      pose proof (names_under_fuel "fields" response).
      by destruct (names_under "fields" response).
    + done.
    + by apply unvalidated_request_spec in E2 as (? & _).
Qed.

(** *** Invariants of every run *)

Lemma evolves_with_self (f : ObjectsHandler -> ObjectsHandler) (m : machine) :
  cfg (f (self m)) = cfg (self m) ->
  _is_authenticated (f (self m)) = _is_authenticated (self m) ->
  _instance_scheme_and_authority (f (self m)) = _instance_scheme_and_authority (self m) ->
  _access_token (f (self m)) = _access_token (self m) ->
  request_headers (f (self m)) = request_headers (self m) ->
  (names_cache m <> [] ->
   _salesforce_object_names_cache (f (self m)) = names_cache m) ->
  (forall name fields, fields_cache m !! name = Some fields ->
     _salesforce_object_fields_cache (f (self m)) !! name = Some fields) ->
  evolves m (with_self f m).
Proof.
  intros Hc Ha Hi Ht Hh Hn Hf. split; simpl; auto.
  - intros H. split_and!; congruence.
  - exists []. split; [by rewrite app_nil_r | by constructor].
Qed.

Lemma names_fetch_evolves (recur : dispatcher) (m m1 : machine) (o1 : outcome unit) :
  keeps_evolving recur ->
  names_cache m = [] ->
  bind (update (set_validate false))
    (fun _ => bind (recur "GET" "sobjects" None)
       (fun response => bind (lift (names_under "sobjects" response))
          (fun names => update (set_names_cache names)))) m = (o1, m1) ->
  evolves m m1.
Proof.
  intros Hrec Hn E1. rewrite bind_update in E1.
  open_bind E1 response m2 E2; apply Hrec in E2.
  - assert (evolves m m2) as Hev.
    { eapply evolves_trans; [| exact E2]. apply (evolves_set_validate m false). }
    rewrite bind_lift in E1.
    destruct (names_under "sobjects" response) as [names | e |];
      [| by inversion E1; subst ..].
    unfold update in E1. inversion E1; subst. clear E1.
    destruct Hev as [c s cs nm fl]. split; simpl; auto. by rewrite Hn.
  - inversion E1; subst.
    eapply evolves_trans; [| exact E2]. apply (evolves_set_validate m false).
  - inversion E1; subst.
    eapply evolves_trans; [| exact E2]. apply (evolves_set_validate m false).
Qed.

Lemma names_via_evolves (recur : dispatcher) (m m' : machine)
    (o : outcome (list json)) :
  keeps_evolving recur ->
  get_salesforce_object_names_via recur m = (o, m') -> evolves m m'.
Proof.
  intros Hrec. unfold get_salesforce_object_names_via. rewrite bind_get.
  destruct (names_cache m) as [| x xs] eqn:Hn.
  2: { rewrite bind_ret, bind_get. intros [= <- <-]. apply evolves_refl. }
  intros E.
  open_bind E u m1 E1; apply names_fetch_evolves in E1; try done.
  - rewrite bind_get in E. unfold ret in E. by inversion E; subst.
  - by inversion E; subst.
  - by inversion E; subst.
Qed.

Lemma fields_fetch_evolves (recur : dispatcher) (name : string) (m m1 : machine)
    (o1 : outcome unit) :
  keeps_evolving recur ->
  fields_cache m !! name = None ->
  bind (update (set_validate false))
    (fun _ => bind (recur "GET" ("sobjects/" +:+ name +:+ "/describe") None)
       (fun response => bind (lift (names_under "fields" response))
          (fun fields => bind get_self
             (fun h => update
                (set_fields_cache
                   (<[name := fields]> (_salesforce_object_fields_cache h)))))))
    m = (o1, m1) ->
  evolves m m1.
Proof.
  intros Hrec Hn E1. rewrite bind_update in E1.
  open_bind E1 response m2 E2; apply Hrec in E2.
  - assert (evolves m m2) as Hev.
    { eapply evolves_trans; [| exact E2]. apply (evolves_set_validate m false). }
    rewrite bind_lift in E1.
    destruct (names_under "fields" response) as [fields | e |];
      [| by inversion E1; subst ..].
    rewrite bind_get in E1. unfold update in E1. inversion E1; subst. clear E1.
    destruct Hev as [c s cs nm fl]. split; simpl; auto.
    intros name' fields' Hl. rewrite lookup_insert_ne; [by apply fl |].
    intros ->. congruence.
  - inversion E1; subst.
    eapply evolves_trans; [| exact E2]. apply (evolves_set_validate m false).
  - inversion E1; subst.
    eapply evolves_trans; [| exact E2]. apply (evolves_set_validate m false).
Qed.

Lemma fields_via_evolves (recur : dispatcher) (name : string) (m m' : machine)
    (o : outcome (list json)) :
  keeps_evolving recur ->
  get_salesforce_object_fields_via recur name m = (o, m') -> evolves m m'.
Proof.
  intros Hrec. unfold get_salesforce_object_fields_via. rewrite bind_get.
  destruct (fields_cache m !! name) as [fs |] eqn:Hn.
  { rewrite bind_ret, bind_get, Hn. intros [= <- <-]. apply evolves_refl. }
  intros E.
  open_bind E u m1 E1; apply fields_fetch_evolves in E1; try done.
  - rewrite bind_get in E.
    destruct (fields_cache m1 !! name); by inversion E; subst.
  - by inversion E; subst.
  - by inversion E; subst.
Qed.

Lemma evolves_checked (r : request) (m m' : machine) (o : outcome string) :
  sent_by (self m) {| c_request := r; c_guard := guard m |} ->
  checked r m = (o, m') -> evolves m m'.
Proof.
  intros Hs E. apply checked_cases in E as [-> _].
  split; simpl; auto. eexists. split; [done |]. intros _.
  constructor; [exact Hs | constructor].
Qed.

Lemma sent_by_dispatch (h h' : ObjectsHandler) (method path : string) (b : body_t)
    (g : bool) :
  (forall data, b <> Form data) ->
  cfg h = cfg h' ->
  _instance_scheme_and_authority h = _instance_scheme_and_authority h' ->
  sent_by h' {| c_request := {| verb := method; url := format_url h path;
                                headers := request_headers h'; body := b |};
                c_guard := g |}.
Proof.
  intros Hb Hc Hi. split_and!; simpl; auto.
  - unfold is_auth_call. simpl. destruct b; try done. by destruct (Hb data).
  - exists path. unfold format_url. by rewrite Hc, Hi.
Qed.

Lemma check_object_evolves (recur : dispatcher) (path : string) (m m' : machine)
    (o : outcome (option string)) :
  keeps_evolving recur ->
  check_object recur path m = (o, m') -> evolves m m'.
Proof.
  intros Hrec. unfold check_object. rewrite bind_get.
  destruct (guard m); [| intros [= <- <-]; apply evolves_refl].
  rewrite bind_lift.
  destruct (_obtain_salesforce_object_name_from_path path) as [name | e |];
    [| intros [= <- <-]; apply evolves_refl ..].
  intros E. open_bind E u m1 E1.
  all: assert (evolves m m1) as Hev;
    [| unfold ret in E; by inversion E; subst].
  all: destruct (PyStr.truthy name);
    [| unfold ret in E1; inversion E1; subst; apply evolves_refl].
  all: open_bind E1 names m2 E2; apply (names_via_evolves _ _ _ _ Hrec) in E2;
    [| by inversion E1; subst ..].
  all: unfold py_assert, ret, raise in E1;
    destruct (PyJson.str_in name names); inversion E1; by subst.
Qed.

Lemma attempt_evolves (recur : dispatcher) (method path : string)
    (payload : option payload_t) (name_opt : option string) (h : ObjectsHandler)
    (m m' : machine) (o : outcome string) :
  keeps_evolving recur ->
  authed m = true ->
  cfg h = cfg (self m) ->
  _instance_scheme_and_authority h = _instance_scheme_and_authority (self m) ->
  attempt recur method (format_url h path) payload name_opt m = (o, m') ->
  evolves m m'.
Proof.
  intros Hrec Ha Hc Hi. unfold attempt.
  destruct (has_payload method).
  - rewrite bind_assert.
    destruct (payload_truthy payload); [| intros [= <- <-]; apply evolves_refl].
    rewrite bind_get. intros E. open_bind E u m1 E1.
    all: assert (evolves m m1) as Hev.
    1, 3, 5:
      destruct (guard m);
      [| unfold ret in E1; inversion E1; subst; apply evolves_refl];
      destruct name_opt as [name |];
      [| unfold bind, raise in E1; inversion E1; subst; apply evolves_refl];
      rewrite bind_ret in E1;
      open_bind E1 fields m2 E2; apply (fields_via_evolves _ _ _ _ _ Hrec) in E2;
      [| by inversion E1; subst ..];
      unfold lift in E1; inversion E1; by subst.
    2, 3: by inversion E; subst.
    rewrite bind_get in E.
    eapply evolves_trans; [exact Hev |].
    eapply evolves_checked; [| exact E].
    destruct Hev as [c s _ _ _]. destruct (s Ha) as (_ & Hi1 & _).
    apply sent_by_dispatch; [apply json_of_not_form | congruence | congruence].
  - rewrite bind_get. intros E.
    eapply evolves_checked; [| exact E].
    by apply sent_by_dispatch.
Qed.

(** Every dispatch keeps the invariant if the dispatcher it calls back
    into does. *)
Lemma do_request_body_evolves (recur : dispatcher) (method path : string)
    (payload : option payload_t) (m m' : machine) (o : outcome string) :
  keeps_evolving recur ->
  do_request_body recur method path payload m = (o, m') -> evolves m m'.
Proof.
  intros Hrec. unfold do_request_body. intros E.
  rewrite bind_assert in E. destruct (supported method).
  2: { inversion E; subst. apply evolves_refl. }
  open_bind E u1 m1 E1;
    apply ensure_authenticated_spec in E1 as (_ & _ & Hev1 & Ha1);
    [| by inversion E; subst ..].
  specialize (Ha1 eq_refl).
  open_bind E name_opt m2 E2; apply (check_object_evolves _ _ _ _ _ Hrec) in E2;
    [| inversion E; subst; by eapply evolves_trans ..].
  assert (authed m2 = true) as Ha2.
  { destruct E2 as [_ s _ _ _]. by destruct (s Ha1). }
  rewrite bind_get in E.
  open_bind E text m3 E3;
    apply (attempt_evolves _ _ _ _ _ _ _ _ _ Hrec Ha2 eq_refl eq_refl) in E3.
  - rewrite bind_update in E. unfold ret in E. inversion E; subst.
    eapply evolves_trans; [exact Hev1 |].
    eapply evolves_trans; [exact E2 |].
    eapply evolves_trans; [exact E3 |]. apply evolves_set_validate.
  - inversion E; subst.
    eapply evolves_trans; [exact Hev1 |]. by eapply evolves_trans.
  - inversion E; subst.
    eapply evolves_trans; [exact Hev1 |]. by eapply evolves_trans.
Qed.

Lemma do_request_evolves (fuel : nat) : keeps_evolving (do_request fuel).
Proof.
  induction fuel as [| fuel IH]; intros method path payload m o m' E.
  - simpl in E. inversion E; subst. apply evolves_refl.
  - simpl in E. by eapply do_request_body_evolves.
Qed.

Lemma unvalidated_request_evolves : keeps_evolving unvalidated_request.
Proof.
  intros method path payload m o m' E.
  by apply unvalidated_request_spec in E as (_ & _ & _ & _ & _ & _ & ?).
Qed.

(** *** Termination within two levels *)

Lemma total_bind {A B} (c : M A) (k : A -> M B) :
  total c -> (forall a, total (k a)) -> total (bind c k).
Proof.
  intros Hc Hk m. unfold bind. specialize (Hc m).
  destruct (c m) as [[a | e |] m1]; simpl in *; [apply Hk | done | done].
Qed.

Lemma total_ret {A} (a : A) : total (ret a).
Proof. by intros m. Qed.

Lemma total_raise {A} (e : exn) : total (raise (A:=A) e).
Proof. by intros m. Qed.

Lemma total_lift {A} (o : outcome A) : o <> OutOfFuel -> total (lift o).
Proof. by intros H m. Qed.

Lemma total_get : total get_self.
Proof. by intros m. Qed.

Lemma total_update f : total (update f).
Proof. by intros m. Qed.

Lemma total_assert b msg : total (py_assert b msg).
Proof. intros m. by destruct b. Qed.

Lemma total_checked r : total (checked r).
Proof.
  intros m. rewrite checked_run. simpl.
  destruct (snd (send (remote m) r)) as [| status_code text]; [done |].
  by destruct (is_http_error status_code).
Qed.

Lemma total_ensure_authenticated : total ensure_authenticated.
Proof.
  intros m. destruct (ensure_authenticated m) as [o m'] eqn:E.
  by apply ensure_authenticated_spec in E as (? & _).
Qed.

Lemma total_unvalidated_request method path payload :
  total (unvalidated_request method path payload).
Proof.
  intros m. destruct (unvalidated_request method path payload m) as [o m'] eqn:E.
  by apply unvalidated_request_spec in E as (? & _).
Qed.

Lemma total_names_via : total (get_salesforce_object_names_via unvalidated_request).
Proof.
  intros m.
  destruct (get_salesforce_object_names_via unvalidated_request m) as [o m'] eqn:E.
  destruct (names_cache m) as [| x xs] eqn:Hn.
  - by apply names_fetch_spec in E as (? & _).
  - rewrite names_cached in E by (by rewrite Hn). by inversion E.
Qed.

Lemma total_fields_via name :
  total (get_salesforce_object_fields_via unvalidated_request name).
Proof.
  intros m.
  destruct (get_salesforce_object_fields_via unvalidated_request name m)
    as [o m'] eqn:E.
  destruct (fields_cache m !! name) as [fields |] eqn:Hn.
  - erewrite fields_cached in E by done. by inversion E.
  - by apply fields_fetch_spec in E as (? & _).
Qed.

Lemma total_check_object path : total (check_object unvalidated_request path).
Proof.
  unfold check_object. apply total_bind; [apply total_get |]. intros h.
  destruct (_validate_salesforce_object h); [| apply total_ret].
  apply total_bind; [apply total_lift, obtain_fuel |]. intros name.
  apply total_bind; [| intros; apply total_ret].
  destruct (PyStr.truthy name); [| apply total_ret].
  apply total_bind; [apply total_names_via | intros; apply total_assert].
Qed.

Lemma total_attempt method url payload name_opt :
  total (attempt unvalidated_request method url payload name_opt).
Proof.
  unfold attempt. destruct (has_payload method).
  - apply total_bind; [apply total_assert |]. intros _.
    apply total_bind; [apply total_get |]. intros h.
    apply total_bind.
    + destruct (_validate_salesforce_object h); [| apply total_ret].
      apply total_bind; [destruct name_opt; [apply total_ret | apply total_raise] |].
      intros name. apply total_bind; [apply total_fields_via |].
      intros fields. apply total_lift, validate_fuel.
    + intros _. apply total_bind; [apply total_get |]. intros. apply total_checked.
  - apply total_bind; [apply total_get |]. intros. apply total_checked.
Qed.

Lemma total_do_request_body method path payload :
  total (do_request_body unvalidated_request method path payload).
Proof.
  unfold do_request_body.
  apply total_bind; [apply total_assert |]. intros _.
  apply total_bind; [apply total_ensure_authenticated |]. intros _.
  apply total_bind; [apply total_check_object |]. intros name_opt.
  apply total_bind; [apply total_get |]. intros h.
  apply total_bind; [apply total_attempt |]. intros text.
  apply total_bind; [apply total_update | intros; apply total_ret].
Qed.

Lemma names_one_level (fuel : nat) (m : machine) :
  _get_salesforce_object_names (S fuel) m
    = get_salesforce_object_names_via unvalidated_request m.
Proof.
  apply names_via_ext. intros method path payload m0 Hg.
  by apply do_request_guard_off.
Qed.

Lemma fields_one_level (fuel : nat) (name : string) (m : machine) :
  _get_salesforce_object_fields (S fuel) name m
    = get_salesforce_object_fields_via unvalidated_request name m.
Proof.
  apply fields_via_ext. intros method path payload m0 Hg.
  by apply do_request_guard_off.
Qed.

(** C4.  The dispatch issued by a schema fetch runs with the guard off
    and is therefore the dispatch without validation: no object-name
    check, no payload validation, no schema fetch of its own.  So a
    schema fetch needs one level of [do_request] and a dispatch two,
    whatever budget is given beyond that, and neither exhausts it:
    every call returns or raises. *)
Theorem dispatch_nesting_bounded (fuel : nat) (method path : string)
    (payload : option payload_t) (m : machine) :
  (forall path',
      do_request (S fuel) "GET" path' None (with_self (set_validate false) m)
        = unvalidated_request "GET" path' None (with_self (set_validate false) m)) /\
  _get_salesforce_object_names (S fuel) m = _get_salesforce_object_names 1 m /\
  (forall name,
      _get_salesforce_object_fields (S fuel) name m
        = _get_salesforce_object_fields 1 name m) /\
  do_request (S (S fuel)) method path payload m = do_request 2 method path payload m /\
  fst (_get_salesforce_object_names (S fuel) m) <> OutOfFuel /\
  (forall name, fst (_get_salesforce_object_fields (S fuel) name m) <> OutOfFuel) /\
  fst (do_request (S (S fuel)) method path payload m) <> OutOfFuel.
Proof.
  split_and!.
  - intros path'. by apply do_request_guard_off.
  - by rewrite !names_one_level.
  - intros name. by rewrite !fields_one_level.
  - by rewrite !do_request_two_levels.
  - rewrite names_one_level. apply total_names_via.
  - intros name. rewrite fields_one_level. apply total_fields_via.
  - rewrite do_request_two_levels. apply total_do_request_body.
Qed.

(** *** The guard around a schema fetch *)

Lemma check_object_guard (path : string) (m m' : machine) (x : option string) :
  guard m = true ->
  check_object unvalidated_request path m = (Ok x, m') ->
  guard m' = true.
Proof.
  intros Hg. unfold check_object. rewrite bind_get, Hg, bind_lift.
  destruct (_obtain_salesforce_object_name_from_path path) as [name | e |];
    [| done | done].
  intros E. open_bind E u m1 E1; [| done | done].
  unfold ret in E. inversion E; subst. clear E.
  destruct (PyStr.truthy name); [| unfold ret in E1; by inversion E1; subst].
  open_bind E1 names m2 E2; [| done | done].
  assert (guard m2 = true) as Hg2.
  { destruct (names_cache m) as [| y ys] eqn:Hn.
    - apply names_fetch_spec in E2 as (_ & _ & _ & H & _); [| done].
      by destruct (H _ eq_refl).
    - rewrite names_cached in E2 by (by rewrite Hn). by inversion E2; subst. }
  unfold py_assert, ret, raise in E1.
  destruct (PyJson.str_in name names); by inversion E1; subst.
Qed.

Lemma attempt_guard (method target : string) (payload : option payload_t)
    (name_opt : option string) (m m' : machine) (text : string) :
  guard m = true ->
  attempt unvalidated_request method target payload name_opt m = (Ok text, m') ->
  exists cs r,
    calls m' = cs ++ [{| c_request := r; c_guard := true |}] /\
    verb r = method /\ url r = target /\ body r = sent_body method payload.
Proof.
  intros Hg. unfold attempt, sent_body. destruct (has_payload method).
  - rewrite bind_assert. destruct (payload_truthy payload); [| done].
    rewrite bind_get, Hg. intros E. open_bind E u m1 E1; [| done | done].
    assert (guard m1 = true) as Hg1.
    { destruct name_opt as [name |]; [| done]. rewrite bind_ret in E1.
      open_bind E1 fields m2 E2; [| done | done].
      unfold lift in E1.
      assert (guard m2 = true) as Hg2.
      { destruct (fields_cache m !! name) as [fs |] eqn:Hn.
        - erewrite fields_cached in E2 by done. by inversion E2; subst.
        - apply fields_fetch_spec in E2 as (_ & _ & _ & H & _); [| done].
          by destruct (H _ eq_refl). }
      by inversion E1; subst. }
    rewrite bind_get in E. apply checked_cases in E as [-> _].
    simpl. rewrite Hg1. by eexists _, _.
  - rewrite bind_get. intros E. apply checked_cases in E as [-> _].
    simpl. rewrite Hg. by eexists _, _.
Qed.

(** A dispatch entered with the guard on sends its own request with the
    guard on, whether or not a schema fetch came before it. *)
Lemma outer_request_guard (fuel : nat) (method path : string)
    (payload : option payload_t) (m m' : machine) (text : string) :
  guard m = true ->
  do_request (S (S fuel)) method path payload m = (Ok text, m') ->
  exists cs r,
    calls m' = cs ++ [{| c_request := r; c_guard := true |}] /\
    verb r = method /\ body r = sent_body method payload.
Proof.
  intros Hg. rewrite do_request_two_levels. unfold do_request_body. intros E.
  rewrite bind_assert in E. destruct (supported method); [| done].
  open_bind E u1 m1 E1; [| done | done].
  apply ensure_authenticated_spec in E1 as (_ & [Hg1 _ _ _] & _).
  rewrite Hg in Hg1.
  open_bind E name_opt m2 E2; [| done | done].
  apply (check_object_guard _ _ _ _ Hg1) in E2.
  rewrite bind_get in E.
  open_bind E text' m3 E3; [| done | done].
  apply (attempt_guard _ _ _ _ _ _ _ E2) in E3 as (cs & r & Hc & Hv & _ & Hb).
  rewrite bind_update in E. unfold ret in E. inversion E; subst. clear E.
  simpl. by exists cs, r.
Qed.

(** C3, as the code has it.  A schema fetch that has to go to the remote
    side sends every request with the guard off, and the guard is on
    again as soon as the fetch has returned, that is once the nested
    request has completed; the request of the outer dispatch therefore
    leaves with the guard on. *)
Theorem guard_during_schema_fetch (fuel : nat) (m : machine) :
  (forall o m',
      names_cache m = [] ->
      _get_salesforce_object_names (S fuel) m = (o, m') ->
      (exists new, calls m' = calls m ++ new /\
                   Forall (fun c => c_guard c = false) new) /\
      (is_ok o = true -> guard m' = true)) /\
  (forall name o m',
      fields_cache m !! name = None ->
      _get_salesforce_object_fields (S fuel) name m = (o, m') ->
      (exists new, calls m' = calls m ++ new /\
                   Forall (fun c => c_guard c = false) new) /\
      (is_ok o = true -> guard m' = true)) /\
  (forall method path payload text m',
      guard m = true ->
      do_request (S (S fuel)) method path payload m = (Ok text, m') ->
      exists cs r,
        calls m' = cs ++ [{| c_request := r; c_guard := true |}] /\
        verb r = method /\ body r = sent_body method payload).
Proof.
  split_and!.
  - intros o m' Hn E. rewrite names_one_level in E.
    apply names_fetch_spec in E as (_ & _ & Hc & Hok & _); [| done].
    split; [done |]. destruct o as [names | |]; [| done | done].
    intros _. by destruct (Hok _ eq_refl).
  - intros name o m' Hn E. rewrite fields_one_level in E.
    apply fields_fetch_spec in E as (_ & _ & Hc & Hok & _); [| done].
    split; [done |]. destruct o as [fields | |]; [| done | done].
    intros _. by destruct (Hok _ eq_refl).
  - intros method path payload text m' Hg E. by eapply outer_request_guard.
Qed.

(** *** A schema fetch that fails *)



(** *** Authentication *)

Lemma sent_by_not_auth (h : ObjectsHandler) (cs : list call) :
  Forall (sent_by h) cs -> Forall (fun c => is_auth_call c = false) cs.
Proof. intros H. eapply Forall_impl; [exact H |]. by intros c (? & _). Qed.

(** Once authenticated, no dispatch authenticates again or touches the
    session, and the requests it sends are built from that session. *)
Lemma dispatch_keeps_session (fuel : nat) (method path : string)
    (payload : option payload_t) (m m' : machine) (o : outcome string) :
  authed m = true ->
  do_request fuel method path payload m = (o, m') ->
  authed m' = true /\
  _instance_scheme_and_authority (self m') = _instance_scheme_and_authority (self m) /\
  _access_token (self m') = _access_token (self m) /\
  request_headers (self m') = request_headers (self m) /\
  exists new, calls m' = calls m ++ new /\ Forall (sent_by (self m)) new.
Proof.
  intros Ha E. apply do_request_evolves in E as [_ s (new & Hc & Hf) _ _].
  destruct (s Ha) as (? & ? & ? & ?). split_and!; try done.
  exists new. split; [done | by apply Hf].
Qed.

(** C7.  When [ensure_authenticated] has returned, calling it again
    returns at once, sends nothing and changes nothing, so two calls in
    a row cost the one exchange of the first; and no later dispatch
    sends an authentication request or changes the base URL, the token
    or the flag. *)
Theorem authentication_idempotent (m m1 : machine) :
  ensure_authenticated m = (Ok tt, m1) ->
  authed m1 = true /\
  (authed m = false ->
   calls m1 = calls m ++
              [{| c_request := auth_request (self m); c_guard := guard m |}]) /\
  ensure_authenticated m1 = (Ok tt, m1) /\
  times 2 ensure_authenticated m = (Ok [tt; tt], m1) /\
  (forall fuel method path payload o m2,
      do_request fuel method path payload m1 = (o, m2) ->
      authed m2 = true /\
      _instance_scheme_and_authority (self m2) = _instance_scheme_and_authority (self m1) /\
      _access_token (self m2) = _access_token (self m1) /\
      exists new, calls m2 = calls m1 ++ new /\
                  Forall (fun c => is_auth_call c = false) new).
Proof.
  intros E.
  pose proof (ensure_authenticated_spec _ _ _ E) as (_ & _ & _ & Ha).
  specialize (Ha eq_refl).
  pose proof (ensure_authenticated_done _ Ha) as E1.
  split_and!; try done.
  - intros Hna. revert E. unfold ensure_authenticated.
    rewrite bind_get, Hna. simpl. intros E.
    destruct (authenticate_frame m) as (_ & _ & _ & _ & _ & Hc & _).
    by rewrite E in Hc.
  - simpl. rewrite (bind_of _ _ _ _ _ E).
    erewrite bind_of; last by rewrite (bind_of _ _ _ _ _ E1), bind_ret.
    reflexivity.
  - intros fuel method path payload o m2 E2.
    apply (dispatch_keeps_session _ _ _ _ _ _ _ Ha) in E2
      as (? & ? & ? & _ & new & ? & Hs).
    split_and!; try done. exists new. split; [done |].
    by eapply sent_by_not_auth.
Qed.

(** C10, as the code has it.  When the token endpoint answers with
    success, the connector is flagged authenticated before the body is
    looked into.  If the body has no instance_url the call raises with
    base URL, token and headers as they were; if it has an instance_url
    but no access_token the call raises with the base URL already set
    to it, token and headers as they were.  Either way later dispatches
    do not authenticate and build their requests from that state. *)
Theorem authenticated_before_body_is_read (m : machine) (s' : server)
    (text : string) (d : json) :
  answers (remote m) (auth_request (self m)) s' text ->
  loads text = Ok d ->
  (forall e,
      PyJson.getitem d "instance_url" = Raise e ->
      exists m1,
        _authenticate m = (Raise e, m1) /\
        authed m1 = true /\
        _instance_scheme_and_authority (self m1) = _instance_scheme_and_authority (self m) /\
        _access_token (self m1) = _access_token (self m) /\
        request_headers (self m1) = request_headers (self m) /\
        forall fuel method path payload o m2,
          do_request fuel method path payload m1 = (o, m2) ->
          exists new, calls m2 = calls m1 ++ new /\ Forall (sent_by (self m1)) new) /\
  (forall instance_url e,
      PyJson.getitem d "instance_url" = Ok instance_url ->
      PyJson.getitem d "access_token" = Raise e ->
      exists m1,
        _authenticate m = (Raise e, m1) /\
        authed m1 = true /\
        _instance_scheme_and_authority (self m1) = instance_url /\
        _access_token (self m1) = _access_token (self m) /\
        request_headers (self m1) = request_headers (self m) /\
        forall fuel method path payload o m2,
          do_request fuel method path payload m1 = (o, m2) ->
          exists new, calls m2 = calls m1 ++ new /\ Forall (sent_by (self m1)) new).
Proof.
  intros Ha Hl. split.
  - intros e Hi. eexists. split; [by eapply authenticate_without_instance_url |].
    split_and!; try done.
    intros fuel method path payload o m2 E.
    by apply dispatch_keeps_session in E as (_ & _ & _ & _ & ?).
  - intros instance_url e Hi Ht. eexists.
    split; [by eapply authenticate_without_access_token |].
    split_and!; try done.
    intros fuel method path payload o m2 E.
    by apply dispatch_keeps_session in E as (_ & _ & _ & _ & ?).
Qed.

(** *** The schema caches *)

Lemma times_cached {A} (c : M A) (a : A) (m : machine) (n : nat) :
  c m = (Ok a, m) -> times n c m = (Ok (replicate n a), m).
Proof.
  intros E. induction n as [| n IH]; simpl; [done |].
  rewrite (bind_of _ _ _ _ _ E). by rewrite (bind_of _ _ _ _ _ IH).
Qed.

(** X25.  Where the schema caches hold.  A names fetch on an empty
    cache that returns has sent one GET sobjects, with the guard off,
    after nothing but authentication exchanges; when the list it got is
    not empty, any number of further calls return that list and change
    nothing.  A fields fetch for an uncached name that returns has sent
    one GET sobjects/name/describe, with the guard off, after nothing
    but authentication exchanges; further calls for that name return
    the same fields and change nothing, and the entries of other names
    are as they were.  No dispatch and no schema fetch, whatever its
    outcome, removes or replaces a fields entry or a non-empty names
    list. *)
Theorem schema_caches_fill_once (fuel fuel' : nat) (m m1 : machine) :
  (forall names,
      names_cache m = [] ->
      _get_salesforce_object_names (S fuel) m = (Ok names, m1) ->
      (exists pre,
          calls m1 = calls m ++ pre ++
                     [{| c_request := dispatch_request (self m1) "GET" "sobjects" NoBody;
                         c_guard := false |}] /\
          Forall (fun c => is_auth_call c = true) pre) /\
      (names <> [] ->
       forall n, times n (_get_salesforce_object_names fuel') m1
                 = (Ok (replicate n names), m1))) /\
  (forall name fields,
      fields_cache m !! name = None ->
      _get_salesforce_object_fields (S fuel) name m = (Ok fields, m1) ->
      (exists pre,
          calls m1 = calls m ++ pre ++
                     [{| c_request :=
                           dispatch_request (self m1) "GET"
                             ("sobjects/" +:+ name +:+ "/describe") NoBody;
                         c_guard := false |}] /\
          Forall (fun c => is_auth_call c = true) pre) /\
      (forall n, times n (_get_salesforce_object_fields fuel' name) m1
                 = (Ok (replicate n fields), m1)) /\
      (forall other, other <> name ->
                     fields_cache m1 !! other = fields_cache m !! other)) /\
  (forall method path payload o m2,
      do_request fuel' method path payload m = (o, m2) ->
      (names_cache m <> [] -> names_cache m2 = names_cache m) /\
      (forall name fields, fields_cache m !! name = Some fields ->
                           fields_cache m2 !! name = Some fields)) /\
  (forall o m2,
      _get_salesforce_object_names fuel' m = (o, m2) ->
      (names_cache m <> [] -> names_cache m2 = names_cache m) /\
      (forall name fields, fields_cache m !! name = Some fields ->
                           fields_cache m2 !! name = Some fields)) /\
  (forall name' o m2,
      _get_salesforce_object_fields fuel' name' m = (o, m2) ->
      (names_cache m <> [] -> names_cache m2 = names_cache m) /\
      (forall name fields, fields_cache m !! name = Some fields ->
                           fields_cache m2 !! name = Some fields)).
Proof.
  split_and!.
  - intros names Hn E. rewrite names_one_level in E.
    apply names_fetch_spec in E as (_ & _ & _ & H & _); [| done].
    destruct (H _ eq_refl) as (_ & _ & Hc & pre & Hs & Hp & _).
    split; [by exists pre |].
    intros Hne n. apply times_cached. unfold _get_salesforce_object_names.
    rewrite names_cached; by rewrite Hc.
  - intros name fields Hn E. rewrite fields_one_level in E.
    apply fields_fetch_spec in E as (_ & _ & _ & H & _); [| done].
    destruct (H _ eq_refl) as (_ & _ & Hc & pre & Hs & Hp & _).
    split_and!; [by exists pre | |].
    + intros n. apply times_cached. unfold _get_salesforce_object_fields.
      apply fields_cached. by rewrite Hc, lookup_insert_eq.
    + intros other Hne. by rewrite Hc, lookup_insert_ne.
  - intros method path payload o m2 E.
    by apply do_request_evolves in E as [_ _ _ ? ?].
  - intros o m2 E.
    by apply (names_via_evolves _ _ _ _ (do_request_evolves fuel')) in E
      as [_ _ _ ? ?].
  - intros name' o m2 E.
    by apply (fields_via_evolves _ _ _ _ _ (do_request_evolves fuel')) in E
      as [_ _ _ ? ?].
Qed.

(** *** What a dispatch that returns has established *)

Lemma validate_ok_inv (payload : payload_t) (allowed : list json) :
  _validate_payload_content payload allowed = Ok tt ->
  Forall (fun kv => PyJson.str_in (fst kv) allowed = true) payload.
Proof.
  induction payload as [| [k v] rest IH]; simpl; [by constructor |].
  destruct (PyJson.str_in k allowed) eqn:Hk; simpl; [| done].
  intros H. constructor; [done | by apply IH].
Qed.

Lemma names_via_ok (m m' : machine) (names : list json) :
  get_salesforce_object_names_via unvalidated_request m = (Ok names, m') ->
  names = names_cache m' /\ (guard m = true -> guard m' = true).
Proof.
  intros E. destruct (names_cache m) as [| x xs] eqn:Hn.
  - apply names_fetch_spec in E as (_ & _ & _ & H & _); [| done].
    by destruct (H _ eq_refl) as (? & _ & ? & _).
  - rewrite names_cached in E by (by rewrite Hn). by inversion E; subst.
Qed.

Lemma fields_via_ok (name : string) (m m' : machine) (fields : list json) :
  get_salesforce_object_fields_via unvalidated_request name m = (Ok fields, m') ->
  fields_cache m' !! name = Some fields /\ (guard m = true -> guard m' = true).
Proof.
  intros E. destruct (fields_cache m !! name) as [fs |] eqn:Hn.
  - erewrite fields_cached in E by done. by inversion E; subst.
  - apply fields_fetch_spec in E as (_ & _ & _ & H & _); [| done].
    destruct (H _ eq_refl) as (? & _ & Hc & _).
    split; [| done]. by rewrite Hc, lookup_insert_eq.
Qed.

Lemma check_object_ok (path : string) (m m' : machine) (x : option string) :
  guard m = true ->
  check_object unvalidated_request path m = (Ok x, m') ->
  exists name,
    _obtain_salesforce_object_name_from_path path = Ok name /\
    x = Some name /\
    (PyStr.truthy name = true -> PyJson.str_in name (names_cache m') = true).
Proof.
  intros Hg. unfold check_object. rewrite bind_get, Hg, bind_lift.
  destruct (_obtain_salesforce_object_name_from_path path) as [name | e |];
    [| done | done].
  intros E. open_bind E u m1 E1; [| done | done].
  unfold ret in E. inversion E; subst. clear E.
  exists name. split_and!; try done. intros Ht. rewrite Ht in E1.
  open_bind E1 names m2 E2; [| done | done].
  apply names_via_ok in E2 as [-> _].
  unfold py_assert, ret, raise in E1.
  destruct (PyJson.str_in name (names_cache m2)) eqn:Hin; by inversion E1; subst.
Qed.

Lemma attempt_ok (method target : string) (payload : option payload_t)
    (name : string) (m m' : machine) (text : string) :
  guard m = true ->
  has_payload method = true ->
  attempt unvalidated_request method target payload (Some name) m = (Ok text, m') ->
  exists p fields,
    payload = Some p /\ p <> [] /\
    fields_cache m' !! name = Some fields /\
    Forall (fun kv => PyJson.str_in (fst kv) fields = true) p.
Proof.
  intros Hg Hp. unfold attempt. rewrite Hp, bind_assert.
  destruct payload as [[| kv p] |]; try done. simpl payload_truthy. cbv iota.
  rewrite bind_get, Hg. intros E. open_bind E u m1 E1; [| done | done].
  rewrite bind_ret in E1.
  open_bind E1 fields m2 E2; [| done | done].
  apply fields_via_ok in E2 as [Hf _].
  unfold lift in E1. simpl default in E1.
  destruct (_validate_payload_content (kv :: p) fields) as [[] | |] eqn:Hv;
    inversion E1; subst. clear E1.
  rewrite bind_get in E. apply checked_cases in E as [-> _]. simpl.
  exists (kv :: p), fields. split_and!; try done. by apply validate_ok_inv.
Qed.

(** What a dispatch that returns leaves in the flags. *)
Lemma do_request_ok_flags (fuel : nat) (method path : string)
    (payload : option payload_t) (m m' : machine) (text : string) :
  do_request (S fuel) method path payload m = (Ok text, m') ->
  guard m' = true /\ authed m' = true.
Proof.
  simpl. unfold do_request_body. intros E.
  pose proof (do_request_evolves fuel) as Hrec.
  rewrite bind_assert in E. destruct (supported method); [| done].
  open_bind E u1 m1 E1; [| done | done].
  apply ensure_authenticated_spec in E1 as (_ & _ & _ & Ha1).
  specialize (Ha1 eq_refl).
  open_bind E name_opt m2 E2; [| done | done].
  apply (check_object_evolves _ _ _ _ _ Hrec) in E2.
  assert (authed m2 = true) as Ha2.
  { destruct E2 as [_ s _ _ _]. by destruct (s Ha1). }
  rewrite bind_get in E.
  open_bind E text' m3 E3; [| done | done].
  apply (attempt_evolves _ _ _ _ _ _ _ _ _ Hrec Ha2 eq_refl eq_refl) in E3.
  rewrite bind_update in E. unfold ret in E. inversion E; subst. simpl.
  split; [done |]. destruct E3 as [_ s _ _ _]. by destruct (s Ha2).
Qed.

(** X1.  A dispatch that returns leaves the guard on and the connector
    authenticated, whatever the guard was when it started. *)
Theorem dispatch_ok_postcondition (fuel : nat) (method path : string)
    (payload : option payload_t) (m m' : machine) (text : string) :
  do_request (S fuel) method path payload m = (Ok text, m') ->
  guard m' = true /\ authed m' = true.
Proof. apply do_request_ok_flags. Qed.

(** What a validated dispatch that returns has checked. *)
Lemma do_request_ok_checked (fuel : nat) (method path : string)
    (payload : option payload_t) (m m' : machine) (text : string) :
  guard m = true ->
  do_request (S (S fuel)) method path payload m = (Ok text, m') ->
  exists name,
    _obtain_salesforce_object_name_from_path path = Ok name /\
    (PyStr.truthy name = true -> PyJson.str_in name (names_cache m') = true) /\
    (has_payload method = true ->
     exists p fields,
       payload = Some p /\ p <> [] /\
       fields_cache m' !! name = Some fields /\
       Forall (fun kv => PyJson.str_in (fst kv) fields = true) p).
Proof.
  intros Hg. rewrite do_request_two_levels. unfold do_request_body. intros E.
  pose proof unvalidated_request_evolves as Hrec.
  rewrite bind_assert in E. destruct (supported method); [| done].
  open_bind E u1 m1 E1; [| done | done].
  apply ensure_authenticated_spec in E1 as (_ & [Hg1 _ _ _] & _ & Ha1).
  specialize (Ha1 eq_refl). rewrite Hg in Hg1.
  open_bind E name_opt m2 E2; [| done | done].
  pose proof (check_object_guard _ _ _ _ Hg1 E2) as Hg2.
  pose proof (check_object_evolves _ _ _ _ _ Hrec E2) as Hev2.
  apply (check_object_ok _ _ _ _ Hg1) in E2 as (name & Hname & -> & Hin).
  assert (authed m2 = true) as Ha2.
  { destruct Hev2 as [_ s _ _ _]. by destruct (s Ha1). }
  rewrite bind_get in E.
  open_bind E text' m3 E3; [| done | done].
  pose proof (attempt_evolves _ _ _ _ _ _ _ _ _ Hrec Ha2 eq_refl eq_refl E3) as Hev3.
  rewrite bind_update in E. unfold ret in E. inversion E; subst. clear E. simpl.
  exists name. split_and!; try done.
  - intros Ht. specialize (Hin Ht). destruct Hev3 as [_ _ _ nm _].
    rewrite nm; [done |]. by destruct (names_cache m2).
  - intros Hp. by eapply attempt_ok.
Qed.

(** X2.  A dispatch that starts with the guard on and returns has
    checked what it sent: the object name of its path, when there is one,
    is in the names cache, and for POST and PATCH the payload is not
    empty and each of its keys is among the cached fields of that
    object. *)
Theorem validated_dispatch_sound (fuel : nat) (method path : string)
    (payload : option payload_t) (m m' : machine) (text : string) :
  guard m = true ->
  do_request (S (S fuel)) method path payload m = (Ok text, m') ->
  exists name,
    _obtain_salesforce_object_name_from_path path = Ok name /\
    (PyStr.truthy name = true -> PyJson.str_in name (names_cache m') = true) /\
    (has_payload method = true ->
     exists p fields,
       payload = Some p /\ p <> [] /\
       fields_cache m' !! name = Some fields /\
       Forall (fun kv => PyJson.str_in (fst kv) fields = true) p).
Proof. apply do_request_ok_checked. Qed.

(** *** Dispatches on warm caches *)

Lemma check_object_warm (recur : dispatcher) (path name : string) (m : machine) :
  guard m = true ->
  _obtain_salesforce_object_name_from_path path = Ok name ->
  (PyStr.truthy name = true -> PyJson.str_in name (names_cache m) = true) ->
  check_object recur path m = (Ok (Some name), m).
Proof.
  intros Hg Hname Hin. unfold check_object.
  rewrite bind_get, Hg, bind_lift, Hname.
  destruct (PyStr.truthy name); [| done].
  specialize (Hin eq_refl).
  erewrite bind_of; last first.
  { erewrite bind_of; last first.
    { apply names_cached. intros Hn. by rewrite Hn in Hin. }
    cbv beta iota. by rewrite Hin. }
  done.
Qed.

Lemma check_object_unknown (recur : dispatcher) (path name : string) (m : machine) :
  guard m = true ->
  _obtain_salesforce_object_name_from_path path = Ok name ->
  PyStr.truthy name = true ->
  names_cache m <> [] ->
  PyJson.str_in name (names_cache m) = false ->
  check_object recur path m
    = (Raise (AssertionError (name +:+ " isn't a valid object")), m).
Proof.
  intros Hg Hname Ht Hn Hin. unfold check_object.
  rewrite bind_get, Hg, bind_lift, Hname, Ht.
  erewrite bind_of; last first.
  { erewrite bind_of; last by apply names_cached.
    cbv beta iota. by rewrite Hin. }
  done.
Qed.

Lemma attempt_warm (recur : dispatcher) (method target : string)
    (payload : option payload_t) (name : string) (fields : list json) (m : machine) :
  guard m = true ->
  (has_payload method = true ->
   payload_truthy payload = true /\
   fields_cache m !! name = Some fields /\
   _validate_payload_content (default [] payload) fields = Ok tt) ->
  attempt recur method target payload (Some name) m
    = checked {| verb := method; url := target; headers := request_headers (self m);
                 body := sent_body method payload |} m.
Proof.
  intros Hg Hp. unfold attempt, sent_body.
  destruct (has_payload method); [| by rewrite bind_get].
  destruct (Hp eq_refl) as (Ht & Hf & Hv).
  rewrite bind_assert, Ht, bind_get, Hg.
  erewrite bind_of; last first.
  { rewrite bind_ret. erewrite bind_of; last by apply fields_cached.
    cbv beta iota. unfold lift. by rewrite Hv. }
  by rewrite bind_get.
Qed.

(** The dispatch that finds everything it needs in the caches. *)
Lemma do_request_warm (fuel : nat) (method path name : string)
    (payload : option payload_t) (fields : list json) (m : machine) (s' : server)
    (text : string) :
  authed m = true ->
  guard m = true ->
  supported method = true ->
  _obtain_salesforce_object_name_from_path path = Ok name ->
  (PyStr.truthy name = true -> PyJson.str_in name (names_cache m) = true) ->
  (has_payload method = true ->
   payload_truthy payload = true /\
   fields_cache m !! name = Some fields /\
   Forall (fun kv => PyJson.str_in (fst kv) fields = true) (default [] payload)) ->
  answers (remote m)
    (dispatch_request (self m) method path (sent_body method payload)) s' text ->
  do_request (S fuel) method path payload m =
  (Ok text,
   with_self (set_validate true)
     (sent (dispatch_request (self m) method path (sent_body method payload)) s' m)).
Proof.
  intros Ha Hg Hm Hname Hin Hp Hs. simpl. unfold do_request_body.
  rewrite bind_assert, Hm, (bind_of _ _ _ _ _ (ensure_authenticated_done _ Ha)).
  rewrite (bind_of _ _ _ _ _ (check_object_warm _ _ _ _ Hg Hname Hin)).
  rewrite bind_get.
  erewrite bind_of; last first.
  { rewrite (attempt_warm _ _ _ _ name fields); [by apply checked_ok | done |].
    intros Hhp. destruct (Hp Hhp) as (? & ? & Hv). split_and!; try done.
    by apply validate_all_allowed. }
  done.
Qed.

(** X3.  With the connector authenticated, the guard on, the object name
    of the path in the names cache and, for POST and PATCH, a non-empty
    payload whose keys are all in the cached fields of that object, a
    dispatch sends its own request and nothing else, and returns the
    text of the answer. *)
Theorem warm_dispatch_single_request (fuel : nat) (method path name : string)
    (payload : option payload_t) (fields : list json) (m : machine) (s' : server)
    (text : string) :
  authed m = true ->
  guard m = true ->
  supported method = true ->
  _obtain_salesforce_object_name_from_path path = Ok name ->
  (PyStr.truthy name = true -> PyJson.str_in name (names_cache m) = true) ->
  (has_payload method = true ->
   payload_truthy payload = true /\
   fields_cache m !! name = Some fields /\
   Forall (fun kv => PyJson.str_in (fst kv) fields = true) (default [] payload)) ->
  answers (remote m)
    (dispatch_request (self m) method path (sent_body method payload)) s' text ->
  do_request (S fuel) method path payload m =
  (Ok text,
   with_self (set_validate true)
     (sent (dispatch_request (self m) method path (sent_body method payload)) s' m)).
Proof. apply do_request_warm. Qed.

(** X4.  With the guard on and a non-empty names cache that lacks the
    object name of the path, a dispatch raises the assertion error that
    names the object; nothing is sent and the connector is as before. *)
Theorem unknown_object_rejected (fuel : nat) (method path name : string)
    (payload : option payload_t) (m : machine) :
  authed m = true ->
  guard m = true ->
  supported method = true ->
  _obtain_salesforce_object_name_from_path path = Ok name ->
  PyStr.truthy name = true ->
  names_cache m <> [] ->
  PyJson.str_in name (names_cache m) = false ->
  do_request (S fuel) method path payload m
    = (Raise (AssertionError (name +:+ " isn't a valid object")), m).
Proof.
  intros Ha Hg Hm Hname Ht Hn Hin. simpl. unfold do_request_body.
  rewrite bind_assert, Hm, (bind_of _ _ _ _ _ (ensure_authenticated_done _ Ha)).
  by rewrite (bind_of _ _ _ _ _ (check_object_unknown _ _ _ _ Hg Hname Ht Hn Hin)).
Qed.

(** X5.  With the guard on, a known object and its fields in the cache,
    a POST or PATCH whose payload has a key outside those fields raises
    the error that names the first such key; the request is not sent and
    the connector is as before. *)
Theorem invalid_field_rejected (fuel : nat) (method path name : string)
    (before after : payload_t) (k v : string) (fields : list json) (m : machine) :
  authed m = true ->
  guard m = true ->
  supported method = true ->
  has_payload method = true ->
  _obtain_salesforce_object_name_from_path path = Ok name ->
  (PyStr.truthy name = true -> PyJson.str_in name (names_cache m) = true) ->
  fields_cache m !! name = Some fields ->
  Forall (fun kv => PyJson.str_in (fst kv) fields = true) before ->
  PyJson.str_in k fields = false ->
  do_request (S fuel) method path (Some (before ++ (k, v) :: after)) m
    = (Raise (ValueError (k +:+ " isn't a valid field")), m).
Proof.
  intros Ha Hg Hm Hp Hname Hin Hf Hb Hk. simpl. unfold do_request_body.
  rewrite bind_assert, Hm, (bind_of _ _ _ _ _ (ensure_authenticated_done _ Ha)).
  rewrite (bind_of _ _ _ _ _ (check_object_warm _ _ _ _ Hg Hname Hin)).
  rewrite bind_get.
  erewrite bind_of; last first.
  { unfold attempt. rewrite Hp, bind_assert.
    replace (payload_truthy (Some (before ++ (k, v) :: after))) with true
      by (by destruct before).
    rewrite bind_get, Hg.
    erewrite bind_of; last first.
    { rewrite bind_ret. erewrite bind_of; last by apply fields_cached.
      cbv beta iota. unfold lift. simpl default.
      by rewrite (validate_first_offender _ _ _ _ _ Hb Hk). }
    done. }
  done.
Qed.

(** X6.  After a dispatch that started with the guard on and returned,
    the same dispatch again needs no authentication and no schema fetch:
    whatever budget it is given, it sends its own request only. *)
Theorem repeated_dispatch_single_request (fuel fuel' : nat) (method path : string)
    (payload : option payload_t) (m m' : machine) (text text' : string)
    (s' : server) :
  guard m = true ->
  do_request (S (S fuel)) method path payload m = (Ok text, m') ->
  answers (remote m')
    (dispatch_request (self m') method path (sent_body method payload)) s' text' ->
  do_request (S fuel') method path payload m' =
  (Ok text',
   with_self (set_validate true)
     (sent (dispatch_request (self m') method path (sent_body method payload)) s' m')).
Proof.
  intros Hg E Hs.
  destruct (do_request_ok_flags _ _ _ _ _ _ _ E) as [Hg' Ha'].
  destruct (do_request_ok_checked _ _ _ _ _ _ _ Hg E) as (name & Hname & Hin & Hp).
  assert (supported method = true) as Hm.
  { rewrite do_request_two_levels in E. unfold do_request_body in E.
    rewrite bind_assert in E. by destruct (supported method). }
  destruct (has_payload method) eqn:Hhp.
  - destruct (Hp eq_refl) as (p & fields & -> & Hne & Hf & Hv).
    eapply (do_request_warm _ _ _ name _ fields); try done.
    intros _. split_and!; try done. by destruct p.
  - eapply (do_request_warm _ _ _ name _ []); try done.
    by rewrite Hhp.
Qed.

(** *** Arguments that are not used, or not accepted *)

Lemma attempt_without_body (recur : dispatcher) (method target : string)
    (payload : option payload_t) (name_opt : option string) (m : machine) :
  has_payload method = false ->
  attempt recur method target payload name_opt m
    = checked {| verb := method; url := target; headers := request_headers (self m);
                 body := NoBody |} m.
Proof. intros H. unfold attempt. by rewrite H, bind_get. Qed.

(** X7.  For a method other than POST and PATCH the payload argument is
    never looked at: the dispatch runs exactly as it does without one. *)
Theorem payload_ignored_without_body (fuel : nat) (method path : string)
    (payload : option payload_t) (m : machine) :
  has_payload method = false ->
  do_request fuel method path payload m = do_request fuel method path None m.
Proof.
  intros H. destruct fuel as [| fuel]; [done |]. simpl. unfold do_request_body.
  apply bind_ext; [done |]. intros _ m1.
  apply bind_ext; [done |]. intros _ m2.
  apply bind_ext; [done |]. intros name_opt m3.
  rewrite !bind_get. apply bind_ext; [| done].
  by rewrite !attempt_without_body.
Qed.

(** X8.  A method outside POST, GET, PATCH and DELETE is refused before
    anything else happens: the dispatch raises without authenticating,
    without sending a request and without changing the connector. *)
Theorem unsupported_method_rejected (fuel : nat) (method path : string)
    (payload : option payload_t) (m : machine) :
  supported method = false ->
  do_request (S fuel) method path payload m
    = (Raise (AssertionError "Method isn't supported."), m).
Proof.
  intros H. simpl. unfold do_request_body. by rewrite bind_assert, H.
Qed.

(** *** A schema fetch that fails stores nothing *)

Lemma names_fetch_raise (m m' : machine) (e : exn) :
  names_cache m = [] ->
  get_salesforce_object_names_via unvalidated_request m = (Raise e, m') ->
  names_cache m' = [].
Proof.
  intros Hn. unfold get_salesforce_object_names_via.
  rewrite bind_get, Hn. intros E.
  open_bind E u m1 E1; [by rewrite bind_get in E | | done].
  inversion E; subst. clear E. rewrite bind_update in E1.
  open_bind E1 response m2 E2.
  - apply unvalidated_request_spec in E2 as (_ & _ & Hnm & _).
    rewrite bind_lift in E1.
    destruct (names_under "sobjects" response); [done | | done].
    inversion E1; subst. by rewrite Hnm.
  - inversion E1; subst.
    apply unvalidated_request_spec in E2 as (_ & _ & Hnm & _). by rewrite Hnm.
  - done.
Qed.

Lemma fields_fetch_raise (name : string) (m m' : machine) (e : exn) :
  fields_cache m !! name = None ->
  get_salesforce_object_fields_via unvalidated_request name m = (Raise e, m') ->
  fields_cache m' = fields_cache m.
Proof.
  intros Hn. unfold get_salesforce_object_fields_via.
  rewrite bind_get, Hn. intros E.
  open_bind E u m1 E1.
  - rewrite bind_get in E. rewrite bind_update in E1.
    open_bind E1 response m2 E2; [| done | done].
    rewrite bind_lift in E1.
    destruct (names_under "fields" response) as [fields | |]; [| done | done].
    rewrite bind_get in E1. unfold update in E1. inversion E1; subst. clear E1.
    simpl in E. by rewrite lookup_insert_eq in E.
  - inversion E; subst. clear E. rewrite bind_update in E1.
    open_bind E1 response m2 E2.
    + apply unvalidated_request_spec in E2 as (_ & _ & _ & Hfl & _).
      rewrite bind_lift in E1.
      destruct (names_under "fields" response); [done | | done].
      inversion E1; subst. by rewrite Hfl.
    + inversion E1; subst.
      by apply unvalidated_request_spec in E2 as (_ & _ & _ & Hfl & _).
    + done.
  - done.
Qed.

(** X9.  A schema fetch that raises, for whatever reason (the transport,
    the status, a body that is not JSON or lacks the expected keys),
    stores nothing: the names cache is still empty, the fields cache is
    what it was, and the name asked for is still missing, so the next
    call goes to the remote side again. *)
Theorem failed_fetch_not_cached (fuel : nat) (m m' : machine) (e : exn) :
  (names_cache m = [] ->
   _get_salesforce_object_names (S fuel) m = (Raise e, m') ->
   names_cache m' = [] /\ fields_cache m' = fields_cache m) /\
  (forall name,
      fields_cache m !! name = None ->
      _get_salesforce_object_fields (S fuel) name m = (Raise e, m') ->
      fields_cache m' = fields_cache m /\ fields_cache m' !! name = None /\
      names_cache m' = names_cache m).
Proof.
  split.
  - intros Hn E. rewrite names_one_level in E.
    split; [by eapply names_fetch_raise |].
    by apply names_fetch_spec in E as (_ & ? & _).
  - intros name Hn E. rewrite fields_one_level in E.
    pose proof (fields_fetch_raise _ _ _ _ Hn E) as Hf.
    split_and!; [done | by rewrite Hf |].
    by apply fields_fetch_spec in E as (_ & ? & _).
Qed.

(** *** The SOQL helper *)

Lemma do_request_without_object (fuel : nat) (method path : string) (m : machine)
    (s' : server) (text : string) :
  authed m = true ->
  supported method = true ->
  has_payload method = false ->
  _obtain_salesforce_object_name_from_path path = Ok "" ->
  answers (remote m) (dispatch_request (self m) method path NoBody) s' text ->
  do_request (S fuel) method path None m =
  (Ok text,
   with_self (set_validate true)
     (sent (dispatch_request (self m) method path NoBody) s' m)).
Proof.
  intros Ha Hm Hp Hname Hs.
  assert (sent_body method None = NoBody) as Hb by (unfold sent_body; by rewrite Hp).
  destruct (guard m) eqn:Hg.
  - rewrite <- Hb.
    eapply (do_request_warm _ _ _ "" _ []); try done.
    + by rewrite Hp.
    + by rewrite Hb.
  - rewrite do_request_guard_off by done. rewrite <- Hb.
    apply unvalidated_request_ok; try done.
    + by rewrite Hp.
    + by rewrite Hb.
Qed.

(** X10.  A SOQL query whose path yields no object name costs one GET on
    an authenticated connector, whatever the guard and the caches: the
    helper returns what the decoded answer holds under records, and
    raises, after the request has gone out, when the answer is not JSON
    or has no such key. *)
Theorem soql_query_single_get (fuel : nat) (query : string) (m : machine)
    (s' : server) (text : string) :
  authed m = true ->
  _obtain_salesforce_object_name_from_path (soql_path query) = Ok "" ->
  answers (remote m) (dispatch_request (self m) "GET" (soql_path query) NoBody) s'
    text ->
  do_query_with_SOQL (S fuel) query m =
  (match loads text with
   | Ok response => PyJson.getitem response "records"
   | Raise e => Raise e
   | OutOfFuel => OutOfFuel
   end,
   with_self (set_validate true)
     (sent (dispatch_request (self m) "GET" (soql_path query) NoBody) s' m)).
Proof.
  intros Ha Hname Hs. unfold do_query_with_SOQL.
  rewrite (bind_of _ _ _ _ _
             (do_request_without_object fuel "GET" _ _ _ _ Ha eq_refl eq_refl Hname Hs)).
  rewrite bind_lift. by destruct (loads text).
Qed.

(** *** How many requests a dispatch sends *)

Lemma adds_refl (m : machine) : adds 0 m m.
Proof. exists []. by rewrite app_nil_r. Qed.

Lemma adds_none (k : nat) (m : machine) : adds k m m.
Proof. exists []. split_and!; [by rewrite app_nil_r | simpl; lia | done]. Qed.

Lemma adds_weaken (j k : nat) (m m' : machine) : j <= k -> adds j m m' -> adds k m m'.
Proof. intros H (new & ? & ? & ?). exists new. split_and!; [done | lia | done]. Qed.

Lemma adds_trans (j k : nat) (m1 m2 m3 : machine) :
  adds j m1 m2 -> adds k m2 m3 -> adds (j + k) m1 m3.
Proof.
  intros (n1 & e1 & l1 & f1) (n2 & e2 & l2 & f2). exists (n1 ++ n2).
  split_and!.
  - by rewrite e2, e1, app_assoc.
  - rewrite length_app. lia.
  - by apply Forall_app.
Qed.

Lemma adds_with_self (k : nat) (f : ObjectsHandler -> ObjectsHandler) (m m' : machine) :
  adds k m m' -> adds k m (with_self f m').
Proof. done. Qed.

Lemma adds_from_with_self (k : nat) (f : ObjectsHandler -> ObjectsHandler)
    (m m' : machine) :
  adds k (with_self f m) m' -> adds k m m'.
Proof. done. Qed.

Lemma ensure_authenticated_adds (m m' : machine) (o : outcome unit) :
  ensure_authenticated m = (o, m') ->
  adds 1 m m' /\ (authed m = true -> adds 0 m m').
Proof.
  unfold ensure_authenticated. rewrite bind_get.
  destruct (authed m) eqn:Ha; simpl.
  - intros [= <- <-]. split; [| intros _]; apply adds_none.
  - intros E. destruct (authenticate_frame m) as (_ & _ & _ & _ & _ & Hc & _).
    rewrite E in Hc. simpl in Hc. split; [| done].
    eexists. split; [exact Hc |]. split; [done |]. by repeat constructor.
Qed.

Lemma checked_adds (r : request) (m m' : machine) (o : outcome string) :
  body r = NoBody -> checked r m = (o, m') -> adds 1 m m'.
Proof.
  intros Hb E. apply checked_cases in E as [-> _].
  eexists. split; [done |]. split; [done |].
  constructor; [| constructor]. unfold carries_json. simpl. by rewrite Hb.
Qed.

Lemma unvalidated_request_adds (method path : string) (payload : option payload_t)
    (m m' : machine) (o : outcome string) :
  has_payload method = false ->
  unvalidated_request method path payload m = (o, m') ->
  adds 2 m m' /\ (authed m = true -> adds 1 m m').
Proof.
  intros Hp. unfold unvalidated_request. intros E.
  rewrite bind_assert in E. destruct (supported method).
  2: { inversion E; subst. split; [| intros _]; apply adds_none. }
  open_bind E u1 m1 E1; apply ensure_authenticated_adds in E1 as [H1 H0].
  2, 3: inversion E; subst; split;
    [by apply (adds_weaken 1); [lia |]
    | intros Ha; apply (adds_weaken 0); [lia | by apply H0]].
  rewrite bind_get, Hp in E.
  assert (adds 1 m1 m') as H2.
  { open_bind E text m2 E2.
    - rewrite bind_get in E2. apply checked_adds in E2; [| done].
      rewrite bind_update in E. unfold ret in E. by inversion E; subst.
    - rewrite bind_get in E2. apply checked_adds in E2; [| done].
      by inversion E; subst.
    - rewrite bind_get in E2. apply checked_adds in E2; [| done].
      by inversion E; subst. }
  split.
  - by apply (adds_trans 1 1 m m1 m').
  - intros Ha. by apply (adds_trans 0 1 m m1 m'); [apply H0 |].
Qed.

Lemma names_via_adds (m m' : machine) (o : outcome (list json)) :
  get_salesforce_object_names_via unvalidated_request m = (o, m') ->
  adds 2 m m' /\ (authed m = true -> adds 1 m m').
Proof.
  unfold get_salesforce_object_names_via. rewrite bind_get.
  destruct (names_cache m) as [| x xs].
  2: { rewrite bind_ret, bind_get. intros [= <- <-].
       split; [| intros _]; apply adds_none. }
  intros E.
  assert (forall o1 m1,
            unvalidated_request "GET" "sobjects" None
              (with_self (set_validate false) m) = (o1, m1) ->
            adds 2 m m1 /\ (authed m = true -> adds 1 m m1)) as Hreq.
  { intros o1 m1 E1. by apply unvalidated_request_adds in E1. }
  open_bind E u m1 E1; rewrite bind_update in E1.
  all: open_bind E1 response m2 E2; apply Hreq in E2.
  all: try rewrite bind_lift in E1.
  all: try (destruct (names_under "sobjects" response); unfold update in E1).
  all: try rewrite bind_get in E.
  all: unfold ret in *; inversion E1; inversion E; by subst.
Qed.

Lemma fields_via_adds (name : string) (m m' : machine) (o : outcome (list json)) :
  get_salesforce_object_fields_via unvalidated_request name m = (o, m') ->
  adds 2 m m' /\ (authed m = true -> adds 1 m m').
Proof.
  unfold get_salesforce_object_fields_via. rewrite bind_get.
  destruct (fields_cache m !! name) as [fs |] eqn:Hn.
  { rewrite bind_ret, bind_get, Hn. intros [= <- <-].
    split; [| intros _]; apply adds_none. }
  intros E.
  assert (forall o1 m1,
            unvalidated_request "GET" ("sobjects/" +:+ name +:+ "/describe") None
              (with_self (set_validate false) m) = (o1, m1) ->
            adds 2 m m1 /\ (authed m = true -> adds 1 m m1)) as Hreq.
  { intros o1 m1 E1. by apply unvalidated_request_adds in E1. }
  open_bind E u m1 E1; rewrite bind_update in E1.
  all: open_bind E1 response m2 E2; apply Hreq in E2.
  all: try rewrite bind_lift in E1.
  all: try (destruct (names_under "fields" response);
            try rewrite bind_get in E1; unfold update in E1).
  all: try rewrite bind_get in E.
  all: try (inversion E1; subst; simpl in E).
  all: try (destruct (_ !! name) in E).
  all: unfold ret, raise in *; inversion E; by subst.
Qed.

Lemma names_check_adds (name : string) (m m1 : machine) (o1 : outcome unit) :
  bind (get_salesforce_object_names_via unvalidated_request)
    (fun names => py_assert (PyJson.str_in name names)
                    (name +:+ " isn't a valid object")) m = (o1, m1) ->
  adds 2 m m1 /\ (authed m = true -> adds 1 m m1).
Proof.
  intros E1. open_bind E1 names m2 E2; apply names_via_adds in E2.
  - unfold py_assert, ret, raise in E1.
    destruct (PyJson.str_in name names); by inversion E1; subst.
  - by inversion E1; subst.
  - by inversion E1; subst.
Qed.

Lemma check_object_adds (path : string) (m m' : machine) (o : outcome (option string)) :
  check_object unvalidated_request path m = (o, m') ->
  adds 2 m m' /\ (authed m = true -> adds 1 m m').
Proof.
  unfold check_object. rewrite bind_get.
  destruct (guard m); [| intros [= <- <-]; split; [| intros _]; apply adds_none].
  rewrite bind_lift.
  destruct (_obtain_salesforce_object_name_from_path path) as [name | e |];
    [| intros [= <- <-]; split; [| intros _]; apply adds_none ..].
  intros E. destruct (PyStr.truthy name).
  - open_bind E u m1 E1; apply names_check_adds in E1; unfold ret in E;
      by inversion E; subst.
  - rewrite bind_ret in E. unfold ret in E. inversion E; subst.
    split; [| intros _]; apply adds_none.
Qed.

Lemma attempt_without_payload (recur : dispatcher) (method target : string)
    (payload : option payload_t) (name_opt : option string) (m : machine) :
  has_payload method = true ->
  payload_truthy payload = false ->
  attempt recur method target payload name_opt m
    = (Raise (AssertionError "Payload must be defined for a POST, PATCH request."), m).
Proof. intros Hp Ht. unfold attempt. by rewrite Hp, bind_assert, Ht. Qed.

Lemma validation_adds (g : bool) (payload : option payload_t)
    (name_opt : option string) (m m1 : machine) (o1 : outcome unit) :
  authed m = true ->
  (if g
   then bind (match name_opt with
              | Some name => ret name
              | None => raise (UnboundLocalError "salesforce_object_name")
              end)
          (fun name =>
             bind (get_salesforce_object_fields_via unvalidated_request name)
               (fun object_fields =>
                  lift (_validate_payload_content (default [] payload) object_fields)))
   else ret tt) m = (o1, m1) ->
  adds 1 m m1.
Proof.
  intros Ha E1. destruct g.
  - destruct name_opt as [name |].
    + rewrite bind_ret in E1.
      open_bind E1 fields m2 E2; apply fields_via_adds in E2 as [_ H];
        specialize (H Ha); unfold lift in E1; by inversion E1; subst.
    + unfold bind, raise in E1. inversion E1; subst. apply adds_none.
  - unfold ret in E1. inversion E1; subst. apply adds_none.
Qed.

Lemma attempt_count (method target : string) (payload : option payload_t)
    (name_opt : option string) (m m' : machine) (o : outcome string) :
  authed m = true ->
  attempt unvalidated_request method target payload name_opt m = (o, m') ->
  exists new, calls m' = calls m ++ new /\ length new <= 2.
Proof.
  intros Ha. unfold attempt.
  assert (forall r m1 o1 m2,
            adds 1 m m1 -> checked r m1 = (o1, m2) ->
            exists new', calls m2 = calls m ++ new' /\ length new' <= 2) as Hsend.
  { intros r m1 o1 m2 (new & Hc & Hl & _) Ec. apply checked_cases in Ec as [-> _].
    simpl. eexists. split; [by rewrite Hc, <- app_assoc |].
    rewrite length_app. simpl. lia. }
  destruct (has_payload method).
  - rewrite bind_assert.
    destruct (payload_truthy payload);
      [| intros [= <- <-]; exists []; split; [by rewrite app_nil_r | simpl; lia]].
    rewrite bind_get. intros E.
    open_bind E u m1 E1; apply (validation_adds _ _ _ _ _ _ Ha) in E1.
    + rewrite bind_get in E. by eapply Hsend.
    + inversion E; subst. destruct E1 as (new & ? & ? & _).
      exists new. split; [done | lia].
    + inversion E; subst. destruct E1 as (new & ? & ? & _).
      exists new. split; [done | lia].
  - rewrite bind_get. apply Hsend, adds_none.
Qed.

(** X11.  A dispatch sends at most four requests: the authentication,
    one listing of objects, one describe and its own; at most three when
    the connector is already authenticated. *)
Theorem dispatch_request_bound (fuel : nat) (method path : string)
    (payload : option payload_t) (m m' : machine) (o : outcome string) :
  do_request (S (S fuel)) method path payload m = (o, m') ->
  exists new, calls m' = calls m ++ new /\ length new <= 4 /\
              (authed m = true -> length new <= 3).
Proof.
  rewrite do_request_two_levels. unfold do_request_body. intros E.
  pose proof unvalidated_request_evolves as Hrec.
  rewrite bind_assert in E. destruct (supported method).
  2: { inversion E; subst. exists []. split_and!; [by rewrite app_nil_r | simpl; lia ..]. }
  destruct (ensure_authenticated m) as [o1 m1] eqn:E1.
  rewrite (bind_of _ _ _ _ _ E1) in E.
  pose proof (ensure_authenticated_spec _ _ _ E1) as (_ & _ & _ & Ha1).
  apply ensure_authenticated_adds in E1 as [(n1 & Hc1 & Hl1 & _) Hzero].
  assert (authed m = true -> n1 = []) as Hn1.
  { intros Ha. destruct (Hzero Ha) as (n0 & Hc0 & Hl0 & _).
    destruct n0; [| simpl in Hl0; lia]. rewrite Hc0 in Hc1.
    symmetry. by apply (app_inv_head (calls m)). }
  assert (exists new, calls m1 = calls m ++ new /\ length new <= 4 /\
                      (authed m = true -> length new <= 3)) as Hfirst.
  { exists n1. split_and!; [done | lia |]. intros Ha. rewrite (Hn1 Ha). simpl. lia. }
  destruct o1 as [[] | e |]; [| by inversion E; subst ..].
  specialize (Ha1 eq_refl). clear Hfirst.
  destruct (check_object unvalidated_request path m1) as [o2 m2] eqn:E2.
  rewrite (bind_of _ _ _ _ _ E2) in E.
  pose proof (check_object_evolves _ _ _ _ _ Hrec E2) as Hev2.
  apply check_object_adds in E2 as [_ H2].
  destruct (H2 Ha1) as (n2 & Hc2 & Hl2 & _).
  assert (exists new, calls m2 = calls m ++ new /\ length new <= 4 /\
                      (authed m = true -> length new <= 3)) as Hsecond.
  { exists (n1 ++ n2). split_and!; [by rewrite Hc2, Hc1, app_assoc | |].
    - rewrite length_app. lia.
    - intros Ha. rewrite (Hn1 Ha). simpl. lia. }
  destruct o2 as [name_opt | e |]; [| by inversion E; subst ..].
  clear Hsecond.
  assert (authed m2 = true) as Ha2.
  { destruct Hev2 as [_ s _ _ _]. by destruct (s Ha1). }
  rewrite bind_get in E.
  destruct (attempt unvalidated_request method (format_url (self m2) path) payload
              name_opt m2) as [o3 m3] eqn:E3.
  rewrite (bind_of _ _ _ _ _ E3) in E.
  apply (attempt_count _ _ _ _ _ _ _ Ha2) in E3 as (n3 & Hc3 & Hl3).
  assert (exists new, calls m3 = calls m ++ new /\ length new <= 4 /\
                      (authed m = true -> length new <= 3)) as Hthird.
  { exists (n1 ++ n2 ++ n3). split_and!; [by rewrite Hc3, Hc2, Hc1, <- !app_assoc | |].
    - rewrite !length_app. lia.
    - intros Ha. rewrite (Hn1 Ha). simpl. rewrite length_app. lia. }
  destruct o3 as [text | e |]; [| by inversion E; subst ..].
  rewrite bind_update in E. unfold ret in E. by inversion E; subst.
Qed.

(** X12.  A POST or PATCH without a payload, or with an empty one, never
    returns and never sends its own request: at most the authentication
    and one listing of objects go out before it raises, none of them with
    a JSON body. *)
Theorem missing_payload_rejected (fuel : nat) (method path : string)
    (payload : option payload_t) (m m' : machine) (o : outcome string) :
  has_payload method = true ->
  payload_truthy payload = false ->
  do_request (S (S fuel)) method path payload m = (o, m') ->
  is_ok o = false /\ adds 2 m m'.
Proof.
  intros Hp Ht. rewrite do_request_two_levels. unfold do_request_body. intros E.
  rewrite bind_assert in E. destruct (supported method).
  2: { inversion E; subst. split; [done | apply adds_none]. }
  destruct (ensure_authenticated m) as [o1 m1] eqn:E1.
  rewrite (bind_of _ _ _ _ _ E1) in E.
  pose proof (ensure_authenticated_spec _ _ _ E1) as (Hf1 & _ & _ & Ha1).
  apply ensure_authenticated_adds in E1 as [H1 _].
  apply (adds_weaken 1 2) in H1 as H1'; [| lia].
  destruct o1 as [[] | e |]; [| by inversion E; subst ..].
  specialize (Ha1 eq_refl).
  destruct (check_object unvalidated_request path m1) as [o2 m2] eqn:E2.
  rewrite (bind_of _ _ _ _ _ E2) in E.
  apply check_object_adds in E2 as [_ H2]. specialize (H2 Ha1).
  pose proof (adds_trans 1 1 m m1 m2 H1 H2) as H12.
  destruct o2 as [name_opt | e |]; [| by inversion E; subst ..].
  rewrite bind_get in E.
  rewrite (bind_of _ _ _ _ _ (attempt_without_payload _ _ _ _ _ m2 Hp Ht)) in E.
  by inversion E; subst.
Qed.

(** *** The path interpreter on the shapes it expects *)

Lemma append_cons (x : ascii) (a b : string) :
  String x a +:+ b = String x (a +:+ b).
Proof. reflexivity. Qed.

Lemma append_assoc (a b c : string) : (a +:+ b) +:+ c = a +:+ b +:+ c.
Proof.
  induction a as [| x a IH]; [done |]. rewrite !append_cons. f_equal. exact IH.
Qed.

Lemma append_empty_r (a : string) : a +:+ "" = a.
Proof.
  induction a as [| x a IH]; [done |]. rewrite append_cons. f_equal. exact IH.
Qed.

Lemma prefix_append (s t : string) : String.prefix s (s +:+ t) = true.
Proof.
  induction s as [| x s IH].
  - change ("" +:+ t) with t. by destruct t.
  - rewrite append_cons. simpl. by destruct (ascii_dec x x).
Qed.

Lemma contains_prefix (needle s : string) :
  String.prefix needle s = true -> PyStr.contains needle s = true.
Proof.
  unfold PyStr.contains. intros H. destruct s as [| c s].
  - by destruct needle.
  - unfold String.index. by rewrite H.
Qed.

Lemma contains_here (needle post : string) :
  PyStr.contains needle (needle +:+ post) = true.
Proof. apply contains_prefix. exact (prefix_append needle post). Qed.

Lemma contains_cons (needle : string) (c : ascii) (s : string) :
  PyStr.contains needle s = true -> PyStr.contains needle (String c s) = true.
Proof.
  unfold PyStr.contains.
  change (String.index 0 needle (String c s))
    with (if String.prefix needle (String c s) then Some 0
          else match String.index 0 needle s with
               | Some n => Some (S n)
               | None => None
               end).
  destruct (String.prefix needle (String c s)); [done |].
  by destruct (String.index 0 needle s).
Qed.

Lemma contains_occurs (needle pre post : string) :
  PyStr.contains needle (pre +:+ needle +:+ post) = true.
Proof.
  induction pre as [| c pre IH].
  - change ("" +:+ needle +:+ post) with (needle +:+ post). apply contains_here.
  - rewrite append_cons. by apply contains_cons.
Qed.

Lemma contains_cons_false (needle : string) (c : ascii) (s : string) :
  PyStr.contains needle (String c s) = false -> PyStr.contains needle s = false.
Proof.
  intros H. destruct (PyStr.contains needle s) eqn:E; [| done].
  by rewrite (contains_cons _ c _ E) in H.
Qed.

Lemma split_without_sep (sep : ascii) (s : string) :
  PyStr.contains (String sep "") s = false -> PyStr.split sep s = [s].
Proof.
  induction s as [| c s IH]; [done |]. intros H. simpl.
  destruct (Ascii.eqb_spec c sep) as [-> | Hne].
  - by rewrite (contains_here (String sep "") s
                 : PyStr.contains (String sep "") (String sep s) = true) in H.
  - by rewrite (IH (contains_cons_false _ _ _ H)).
Qed.

Lemma split_append (sep : ascii) (a b : string) :
  PyStr.contains (String sep "") a = false ->
  PyStr.split sep (a +:+ String sep b) = a :: PyStr.split sep b.
Proof.
  induction a as [| c a IH]; intros H.
  - change ("" +:+ String sep b) with (String sep b). simpl.
    by rewrite Ascii.eqb_refl.
  - rewrite append_cons. simpl.
    destruct (Ascii.eqb_spec c sep) as [-> | Hne].
    + by rewrite (contains_here (String sep "") a
                   : PyStr.contains (String sep "") (String sep a) = true) in H.
    + by rewrite (IH (contains_cons_false _ _ _ H)).
Qed.

(** X13.  The path that the fields fetch builds for an object reads back
    as that object: for every name without a slash, the describe path of
    the name yields the name. *)
Theorem describe_path_round_trip (name : string) :
  PyStr.contains "/" name = false ->
  _obtain_salesforce_object_name_from_path ("sobjects/" +:+ name +:+ "/describe")
    = Ok name.
Proof.
  intros Hn. unfold _obtain_salesforce_object_name_from_path.
  replace (PyStr.contains "describe" ("sobjects/" +:+ name +:+ "/describe"))
    with true.
  2: { symmetry.
       replace ("sobjects/" +:+ name +:+ "/describe")
         with (("sobjects/" +:+ name +:+ "/") +:+ "describe" +:+ "")
         by (by rewrite !append_assoc).
       apply contains_occurs. }
  change ("sobjects/" +:+ name +:+ "/describe")
    with ("sobjects" +:+ String "/" (name +:+ String "/" "describe")).
  rewrite split_append by done. by rewrite split_append.
Qed.

(** X14.  A path made of sobjects, a slash and a name, alone or followed
    by a slash and anything (an identifier), yields the name, provided the
    name has no slash and the path contains neither describe nor the SOQL
    marker. *)
Theorem sobjects_path_name (name more : string) :
  PyStr.contains "/" name = false ->
  more = "" \/ (exists rest, more = "/" +:+ rest) ->
  PyStr.contains "describe" ("sobjects/" +:+ name +:+ more) = false ->
  PyStr.contains "query?q=SELECT" ("sobjects/" +:+ name +:+ more) = false ->
  _obtain_salesforce_object_name_from_path ("sobjects/" +:+ name +:+ more) = Ok name.
Proof.
  intros Hn Hmore Hd Hq. unfold _obtain_salesforce_object_name_from_path.
  rewrite Hd, Hq.
  change (String.eqb ("sobjects/" +:+ name +:+ more) "sobjects") with false.
  cbv iota.
  change (PyStr.index ("sobjects/" +:+ name +:+ more) "sobjects") with (Ok (A:=nat) 0).
  cbv iota.
  change ("sobjects/" +:+ name +:+ more)
    with ("sobjects" +:+ String "/" (name +:+ more)).
  rewrite split_append by done.
  destruct Hmore as [-> | [rest ->]].
  - by rewrite append_empty_r, split_without_sep.
  - change (name +:+ "/" +:+ rest) with (name +:+ String "/" rest).
    by rewrite split_append.
Qed.

(** *** The two SOQL patterns on every subject *)

Lemma run_max_repeat (min : nat) (r : Re.regex) (s : list ascii) (g : Re.captures)
    (k : list ascii -> Re.captures -> Re.result) :
  Re.run (Re.MaxRepeat min r) s g k
    = Re.max_until (Re.run r) min k (min + length s + 2) 0 None s g.
Proof. reflexivity. Qed.

Lemma max_until_step step min k budget count last s g :
  Re.max_until step min k (S budget) count last s g =
  if Nat.ltb count min then
    step s g (fun s' g' => Re.max_until step min k budget (S count) last s' g')
  else
    match (if bool_decide (last = Some (length s)) then None
           else step s g
                  (fun s' g' =>
                     Re.max_until step min k budget (S count) (Some (length s)) s' g'))
    with
    | Some res => Some res
    | None => k s g
    end.
Proof. reflexivity. Qed.

Lemma max_until_through step min k :
  through step ->
  forall budget count last s g,
    Re.max_until step min k budget count last s g = None \/
    exists s' g', Re.max_until step min k budget count last s g = k s' g'.
Proof.
  intros Hstep. induction budget as [| budget IH]; intros count last s g;
    [by left |].
  rewrite max_until_step. destruct (Nat.ltb count min).
  - destruct (Hstep s g
                (fun s' g' => Re.max_until step min k budget (S count) last s' g'))
      as [-> | (s' & g' & ->)]; [by left | apply IH].
  - destruct (bool_decide (last = Some (length s))); [right; by eexists _, _ |].
    destruct (Hstep s g
                (fun s' g' =>
                   Re.max_until step min k budget (S count) (Some (length s)) s' g'))
      as [-> | (s' & g' & ->)]; [right; by eexists _, _ |].
    destruct (IH (S count) (Some (length s)) s' g') as [-> | (s'' & g'' & E)].
    + right. by eexists _, _.
    + rewrite E. destruct (k s'' g'') eqn:Ek; right; [| by eexists _, _].
      exists s'', g''. by rewrite Ek.
Qed.

Lemma through_lit (c : ascii) : through (Re.run (Re.Lit c)).
Proof.
  intros s g k. destruct s as [| x s]; [by left |]. simpl.
  destruct (Ascii.eqb x c); [right; by eexists _, _ | by left].
Qed.

(** A run of literals matches or not whatever the captures, and leaves
    them alone. *)
Lemma literals_run (cs : list ascii) (s : list ascii) :
  (forall g, Re.run (literals cs) s g whole = None) \/
  (exists rest, forall g, Re.run (literals cs) s g whole = Some (rest, g)).
Proof.
  revert s. induction cs as [| c cs IH]; intros s.
  - right. by exists s.
  - destruct s as [| x s]; [by left |].
    change (Re.run (literals (c :: cs)) (x :: s))
      with (fun g k => if Ascii.eqb x c
                       then Re.run (literals cs) s g k else None).
    cbv beta. destruct (Ascii.eqb x c); [apply IH | by left].
Qed.

Lemma run_any_cons (x : ascii) (s : list ascii) (g : Re.captures)
    (k : list ascii -> Re.captures -> Re.result) :
  Re.run Re.AnyChar (x :: s) g k = if Ascii.eqb x Re.newline then None else k s g.
Proof. reflexivity. Qed.

Lemma run_any_nil (g : Re.captures) (k : list ascii -> Re.captures -> Re.result) :
  Re.run Re.AnyChar [] g k = None.
Proof. reflexivity. Qed.

(** The inner star: it ends in its continuation at a later position, with
    the captures it got, and it does not fail where its continuation
    would succeed at once. *)
Lemma star_result (kk : list ascii -> Re.captures -> Re.result) :
  forall budget count last s g,
    Re.max_until (Re.run Re.AnyChar) 0 kk budget count last s g = None \/
    exists s', length s' <= length s /\
               Re.max_until (Re.run Re.AnyChar) 0 kk budget count last s g = kk s' g.
Proof.
  induction budget as [| budget IH]; intros count last s g; [by left |].
  rewrite max_until_step. change (Nat.ltb count 0) with false. cbv iota.
  destruct (bool_decide (last = Some (length s))).
  { right. exists s. split; [lia |]. by destruct (kk s g). }
  destruct s as [| x s];
    [rewrite run_any_nil; right; exists []; split; [simpl; lia | done] |].
  rewrite run_any_cons. destruct (Ascii.eqb x Re.newline).
  { right. exists (x :: s). split; [lia | done]. }
  destruct (IH (S count) (Some (length (x :: s))) s g) as [-> | (s' & Hl & ->)].
  - right. exists (x :: s). split; [lia | done].
  - destruct (kk s' g) eqn:Ek.
    + right. exists s'. split; [simpl; lia | by rewrite Ek].
    + right. exists (x :: s). split; [lia | done].
Qed.

Lemma star_not_none (kk : list ascii -> Re.captures -> Re.result) :
  forall budget count last s g,
    kk s g <> None ->
    Re.max_until (Re.run Re.AnyChar) 0 kk (S budget) count last s g <> None.
Proof.
  intros budget count last s g Hk. rewrite max_until_step.
  change (Nat.ltb count 0) with false. cbv iota.
  by destruct (if bool_decide (last = Some (length s)) then None else _).
Qed.

Lemma rest_group_run (s : list ascii) (g : Re.captures)
    (k : list ascii -> Re.captures -> Re.result) :
  Re.run rest_group s g k =
  Re.max_until (Re.run Re.AnyChar) 0
    (fun s' g' =>
       k s' ((1, string_of_list_ascii (take (length s - length s') s)) :: g'))
    (length s + 2) 0 None s g.
Proof. reflexivity. Qed.

Lemma rest_group_result (s : list ascii) (g : Re.captures)
    (k : list ascii -> Re.captures -> Re.result) :
  Re.run rest_group s g k = None \/
  exists s', length s' <= length s /\
             Re.run rest_group s g k
               = k s' ((1, string_of_list_ascii (take (length s - length s') s)) :: g).
Proof. rewrite rest_group_run. apply star_result. Qed.

Lemma rest_group_not_none (s : list ascii) (g : Re.captures)
    (k : list ascii -> Re.captures -> Re.result) :
  k s ((1, "") :: g) <> None -> Re.run rest_group s g k <> None.
Proof.
  intros Hk. rewrite rest_group_run.
  replace (length s + 2) with (S (length s + 1)) by lia.
  apply star_not_none. by rewrite Nat.sub_diag.
Qed.

(** The repeated group before a run of literals: whenever the whole
    matches, the last iteration of the group is an empty one. *)
Lemma repeated_group_empty (cs : list ascii) :
  forall budget count last s g,
    (count = 0 -> last = None /\ length s + 3 <= budget) ->
    (0 < count -> last = Some (length s) -> Re.group 1 g = "" /\ 1 <= budget) ->
    (0 < count -> last <> Some (length s) -> length s + 2 <= budget) ->
    empty_group
      (Re.max_until (Re.run rest_group) 1
         (fun s' g' => Re.run (literals cs) s' g' whole) budget count last s g).
Proof.
  induction budget as [| budget IH]; intros count last s g H0 Hsame Hdiff; [done |].
  rewrite max_until_step. destruct count as [| count].
  - (* the first iteration *)
    change (Nat.ltb 0 1) with true. cbv iota.
    destruct (H0 eq_refl) as [-> Hb].
    destruct (rest_group_result s g
                (fun s' g' =>
                   Re.max_until (Re.run rest_group) 1
                     (fun s'0 g'0 => Re.run (literals cs) s'0 g'0 whole)
                     budget 1 None s' g'))
      as [-> | (s' & Hl & ->)]; [done |].
    apply IH; [done | done |]. intros _ _. lia.
  - change (Nat.ltb (S count) 1) with false. cbv iota.
    destruct (bool_decide_reflect (last = Some (length s))) as [Hlast | Hlast].
    + (* the iteration before consumed nothing: only the literals are left *)
      destruct (Hsame ltac:(lia) Hlast) as [Hg _].
      destruct (literals_run cs s) as [-> | [rest ->]]; done.
    + specialize (Hdiff ltac:(lia) Hlast).
      destruct (Re.run rest_group s g _) as [res |] eqn:Emore.
      * (* one more iteration matched *)
        destruct (rest_group_result s g
                    (fun s' g' =>
                       Re.max_until (Re.run rest_group) 1
                         (fun s'0 g'0 => Re.run (literals cs) s'0 g'0 whole)
                         budget (S (S count)) (Some (length s)) s' g'))
          as [E | (s' & Hl & E)]; rewrite E in Emore; [done |].
        rewrite <- Emore. apply IH; [done | |].
        -- intros _ [= Heq]. rewrite Heq, Nat.sub_diag. split; [done | lia].
        -- intros _ Hne. assert (length s' <> length s) by congruence. lia.
      * (* no further iteration: then the literals do not match here *)
        destruct (literals_run cs s) as [-> | [rest Hrest]]; [done |].
        exfalso. revert Emore. apply rest_group_not_none.
        destruct budget as [| budget]; [lia |].
        rewrite max_until_step. change (Nat.ltb (S (S count)) 1) with false.
        cbv iota. rewrite bool_decide_true by done. by rewrite Hrest.
Qed.

Lemma run_seq_lit_cons (c x : ascii) (r : Re.regex) (s : list ascii)
    (g : Re.captures) (k : list ascii -> Re.captures -> Re.result) :
  Re.run (Re.Seq (Re.Lit c) r) (x :: s) g k
    = if Ascii.eqb x c then Re.run r s g k else None.
Proof. reflexivity. Qed.

Lemma run_seq_lit_nil (c : ascii) (r : Re.regex) (g : Re.captures)
    (k : list ascii -> Re.captures -> Re.result) :
  Re.run (Re.Seq (Re.Lit c) r) [] g k = None.
Proof. reflexivity. Qed.

Lemma run_seq_repeat (min : nat) (r1 r2 : Re.regex) (s : list ascii)
    (g : Re.captures) (k : list ascii -> Re.captures -> Re.result) :
  Re.run (Re.Seq (Re.MaxRepeat min r1) r2) s g k
    = Re.max_until (Re.run r1) min (fun s' g' => Re.run r2 s' g' k)
        (S (min + length s + 1)) 0 None s g.
Proof.
  change (Re.run (Re.Seq (Re.MaxRepeat min r1) r2) s g k)
    with (Re.max_until (Re.run r1) min (fun s' g' => Re.run r2 s' g' k)
            (min + length s + 2) 0 None s g).
  f_equal. lia.
Qed.

(** The patterns as the connector compiles them. *)
Lemma pattern_from_where_regex :
  Re.compile pattern_from_where =
  Some (Re.Seq (Re.Lit "F") (Re.Seq (Re.Lit "R") (Re.Seq (Re.Lit "O")
          (Re.Seq (Re.MaxRepeat 1 (Re.Lit "M"))
             (Re.Seq (Re.MaxRepeat 1 rest_group)
                (literals (list_ascii_of_string "WHERE"))))))).
Proof. reflexivity. Qed.

Lemma pattern_from_regex :
  Re.compile pattern_from =
  Some (Re.Seq (Re.Lit "F") (Re.Seq (Re.Lit "R") (Re.Seq (Re.Lit "O")
          (Re.Seq (Re.MaxRepeat 1 (Re.Lit "M"))
             (Re.Seq rest_group Re.Empty))))).
Proof. reflexivity. Qed.

Lemma empty_group_seq_lit (c : ascii) (r : Re.regex) :
  (forall s g, empty_group (Re.run r s g whole)) ->
  forall s g, empty_group (Re.run (Re.Seq (Re.Lit c) r) s g whole).
Proof.
  intros H s g. destruct s as [| x s]; [done |].
  rewrite run_seq_lit_cons. destruct (Ascii.eqb x c); [apply H | done].
Qed.

Lemma empty_group_seq_repeat_lit (min : nat) (c : ascii) (r : Re.regex) :
  (forall s g, empty_group (Re.run r s g whole)) ->
  forall s g,
    empty_group (Re.run (Re.Seq (Re.MaxRepeat min (Re.Lit c)) r) s g whole).
Proof.
  intros H s g. rewrite run_seq_repeat.
  destruct (max_until_through (Re.run (Re.Lit c)) min
              (fun s' g' => Re.run r s' g' whole) (through_lit c)
              (S (min + length s + 1)) 0 None s g) as [-> | (s' & g' & ->)];
    [done | apply H].
Qed.

Lemma from_where_empty_group (s : list ascii) (g : Re.captures) :
  empty_group
    (Re.run
       (Re.Seq (Re.Lit "F") (Re.Seq (Re.Lit "R") (Re.Seq (Re.Lit "O")
          (Re.Seq (Re.MaxRepeat 1 (Re.Lit "M"))
             (Re.Seq (Re.MaxRepeat 1 rest_group)
                (literals (list_ascii_of_string "WHERE")))))))
       s g whole).
Proof.
  revert s g. do 3 apply empty_group_seq_lit. apply empty_group_seq_repeat_lit.
  intros s g. rewrite run_seq_repeat.
  apply repeated_group_empty.
  - intros _. split; [done | lia].
  - intros H. lia.
  - intros H. lia.
Qed.

Lemma search_at_empty_group (r : Re.regex) :
  (forall s g, empty_group (Re.run r s g whole)) ->
  forall s, match Re.search_at r s with
            | Some g => Re.group 1 g = ""
            | None => True
            end.
Proof.
  intros H. induction s as [| x s IH].
  - pose proof (H [] []) as H0. unfold Re.search_at.
    change (fun (rest : list ascii) (g : Re.captures) => Some (rest, g)) with whole.
    by destruct (Re.run r [] [] whole) as [[rest g] |].
  - pose proof (H (x :: s) []) as H0.
    change (Re.search_at r (x :: s))
      with (match Re.run r (x :: s) [] whole with
            | Some (_, g) => Some g
            | None => Re.search_at r s
            end).
    by destruct (Re.run r (x :: s) [] whole) as [[rest g] |].
Qed.

(** X15.  A SOQL path with a WHERE in it never yields an object name:
    in every match of the pattern the last iteration of the group is an
    empty one, so the result is the empty string whether the pattern
    matches or not. *)
Theorem soql_where_path_no_name (path : string) :
  PyStr.contains "describe" path = false ->
  PyStr.contains "query?q=SELECT" path = true ->
  PyStr.contains "WHERE" path = true ->
  _obtain_salesforce_object_name_from_path path = Ok "".
Proof.
  intros Hd Hq Hw. unfold _obtain_salesforce_object_name_from_path.
  rewrite Hd, Hq, Hw. unfold Re.search. rewrite pattern_from_where_regex.
  pose proof (search_at_empty_group _ from_where_empty_group
                (list_ascii_of_string path)) as H.
  destruct (Re.search_at _ (list_ascii_of_string path)); [by rewrite H | done].
Qed.

Lemma run_needs_from (r : Re.regex) (s : list ascii) (g : Re.captures)
    (k : list ascii -> Re.captures -> Re.result) :
  Re.run (Re.Seq (Re.Lit "F") (Re.Seq (Re.Lit "R") (Re.Seq (Re.Lit "O")
            (Re.Seq (Re.MaxRepeat 1 (Re.Lit "M")) r)))) s g k <> None ->
  exists rest, s = list_ascii_of_string "FROM" ++ rest.
Proof.
  destruct s as [| a s]; [done |]. rewrite run_seq_lit_cons.
  destruct (Ascii.eqb_spec a "F") as [-> |]; [| done].
  destruct s as [| b s]; [done |]. rewrite run_seq_lit_cons.
  destruct (Ascii.eqb_spec b "R") as [-> |]; [| done].
  destruct s as [| c s]; [done |]. rewrite run_seq_lit_cons.
  destruct (Ascii.eqb_spec c "O") as [-> |]; [| done].
  rewrite run_seq_repeat, max_until_step.
  change (Nat.ltb 0 1) with true. cbv iota.
  destruct s as [| d s]; [done |].
  change (Re.run (Re.Lit "M") (d :: s) g ?k)
    with (if Ascii.eqb d "M" then k s g else None).
  destruct (Ascii.eqb_spec d "M") as [-> |]; [| done].
  intros _. by exists s.
Qed.

Lemma string_of_list_ascii_app (a b : list ascii) :
  string_of_list_ascii (a ++ b) = string_of_list_ascii a +:+ string_of_list_ascii b.
Proof.
  induction a as [| x a IH]; [done |]. simpl. rewrite append_cons. by f_equal.
Qed.

Lemma search_at_occurs (r : Re.regex) (needle : list ascii) :
  (forall s g k, Re.run r s g k <> None -> exists rest, s = needle ++ rest) ->
  forall s g, Re.search_at r s = Some g ->
              exists before rest, s = before ++ needle ++ rest.
Proof.
  intros H. induction s as [| x s IH]; intros g E.
  - destruct (Re.run r [] [] whole) as [[rest g'] |] eqn:Er.
    + destruct (H [] [] whole) as [rest' ->]; [by rewrite Er |]. by exists [], rest'.
    + unfold Re.search_at in E.
      change (fun (rest : list ascii) (g : Re.captures) => Some (rest, g))
        with whole in E.
      by rewrite Er in E.
  - change (Re.search_at r (x :: s))
      with (match Re.run r (x :: s) [] whole with
            | Some (_, g) => Some g
            | None => Re.search_at r s
            end) in E.
    destruct (Re.run r (x :: s) [] whole) as [[rest g'] |] eqn:Er.
    + destruct (H (x :: s) [] whole) as [rest' ->]; [by rewrite Er |].
      by exists [], rest'.
    + destruct (IH _ E) as (before & rest' & ->). by exists (x :: before), rest'.
Qed.

Lemma search_needs_occurrence (r : Re.regex) (needle path : string) :
  (forall s g k, Re.run r s g k <> None ->
                 exists rest, s = list_ascii_of_string needle ++ rest) ->
  PyStr.contains needle path = false ->
  Re.search_at r (list_ascii_of_string path) = None.
Proof.
  intros H Hc. destruct (Re.search_at r (list_ascii_of_string path)) as [g |] eqn:E;
    [| done].
  destruct (search_at_occurs _ _ H _ _ E) as (before & rest & Hs).
  apply (f_equal string_of_list_ascii) in Hs.
  rewrite string_of_list_ascii_of_string, !string_of_list_ascii_app,
    string_of_list_ascii_of_string in Hs.
  rewrite Hs, contains_occurs in Hc. done.
Qed.

(** X16.  A SOQL path without the text FROM in upper case yields no
    object name, with or without a WHERE: neither pattern can match.
    This is the case of every query that spells from in lower case. *)
Theorem soql_path_without_from (path : string) :
  PyStr.contains "describe" path = false ->
  PyStr.contains "query?q=SELECT" path = true ->
  PyStr.contains "FROM" path = false ->
  _obtain_salesforce_object_name_from_path path = Ok "".
Proof.
  intros Hd Hq Hf. unfold _obtain_salesforce_object_name_from_path.
  rewrite Hd, Hq. unfold Re.search.
  rewrite pattern_from_where_regex, pattern_from_regex.
  rewrite !(search_needs_occurrence _ "FROM" path) by (done || apply run_needs_from).
  by destruct (PyStr.contains "WHERE" path).
Qed.

(** The star takes everything up to the end of a subject without
    newline, when its continuation accepts that. *)
Lemma star_takes_all (kk : list ascii -> Re.captures -> Re.result) (g : Re.captures) :
  kk [] g <> None ->
  forall s budget count last,
    Forall (fun x => x <> Re.newline) s ->
    length s + 1 <= budget ->
    last <> Some (length s) ->
    Re.max_until (Re.run Re.AnyChar) 0 kk budget count last s g = kk [] g.
Proof.
  intros Hk. induction s as [| x s IH]; intros budget count last Hs Hb Hl.
  - destruct budget as [| budget]; [simpl in Hb; lia |].
    rewrite max_until_step. change (Nat.ltb count 0) with false. cbv iota.
    rewrite bool_decide_false by done. by rewrite run_any_nil.
  - destruct budget as [| budget]; [simpl in Hb; lia |].
    rewrite max_until_step. change (Nat.ltb count 0) with false. cbv iota.
    rewrite bool_decide_false by done. rewrite run_any_cons.
    inversion Hs as [| ? ? Hx Hs']; subst.
    destruct (Ascii.eqb_spec x Re.newline) as [-> |]; [done |].
    rewrite IH; [| done | simpl in Hb; lia | simpl; intros [= ?]; lia].
    by destruct (kk [] g).
Qed.

Lemma no_char_forall (c : ascii) (s : string) :
  PyStr.contains (String c "") s = false ->
  Forall (fun x => x <> c) (list_ascii_of_string s).
Proof.
  induction s as [| x s IH]; intros H; [by constructor |].
  simpl. constructor.
  - intros ->.
    by rewrite (contains_here (String c "") s
                : PyStr.contains (String c "") (String c s) = true) in H.
  - apply IH. by eapply contains_cons_false.
Qed.

Lemma from_run_rest (rest : list ascii) (g : Re.captures) :
  Forall (fun x => x <> Re.newline) rest ->
  (forall t, rest <> "M"%char :: t) ->
  Re.run
    (Re.Seq (Re.Lit "F") (Re.Seq (Re.Lit "R") (Re.Seq (Re.Lit "O")
       (Re.Seq (Re.MaxRepeat 1 (Re.Lit "M")) (Re.Seq rest_group Re.Empty)))))
    (list_ascii_of_string "FROM" ++ rest) g whole
  = Some ([], (1, string_of_list_ascii rest) :: g).
Proof.
  intros Hn Hm.
  change (list_ascii_of_string "FROM" ++ rest)
    with ("F"%char :: "R"%char :: "O"%char :: "M"%char :: rest).
  rewrite !run_seq_lit_cons. change (Ascii.eqb "F" "F") with true.
  change (Ascii.eqb "R" "R") with true. change (Ascii.eqb "O" "O") with true.
  cbv iota. rewrite run_seq_repeat, max_until_step.
  change (Nat.ltb 0 1) with true. cbv iota.
  change (Re.run (Re.Lit "M") ("M"%char :: rest) g ?k) with (k rest g).
  cbv beta.
  change (1 + length ("M"%char :: rest) + 1) with (S (S (length rest + 1))).
  rewrite max_until_step. change (Nat.ltb 1 1) with false. cbv iota.
  rewrite bool_decide_false by done.
  assert (forall k, Re.run (Re.Lit "M") rest g k = None) as ->.
  { intros k. destruct rest as [| x rest]; [done |]. simpl.
    destruct (Ascii.eqb_spec x "M") as [-> |]; [| done]. by destruct (Hm rest). }
  change (Re.run (Re.Seq rest_group Re.Empty) rest g whole)
    with (Re.run rest_group rest g whole).
  rewrite rest_group_run, star_takes_all; try done; try lia.
  by rewrite Nat.sub_0_r, firstn_all.
Qed.

Lemma list_ascii_of_string_app (a b : string) :
  list_ascii_of_string (a +:+ b) = list_ascii_of_string a ++ list_ascii_of_string b.
Proof.
  induction a as [| x a IH]; [done |]. rewrite append_cons. simpl. by f_equal.
Qed.

(** The search passes over everything before the first FROM. *)
Lemma search_at_first_from (r : Re.regex) (tail : list ascii) :
  (forall s g k, Re.run r s g k <> None ->
                 exists rest, s = list_ascii_of_string "FROM" ++ rest) ->
  forall before : string,
    PyStr.contains "FROM" (before +:+ "FRO") = false ->
    Re.search_at r (list_ascii_of_string before ++ list_ascii_of_string "FROM" ++ tail)
    = Re.search_at r (list_ascii_of_string "FROM" ++ tail).
Proof.
  intros H. induction before as [| x b IH]; intros Hc; [done |].
  change (list_ascii_of_string (String x b) ++ ?t)
    with (x :: (list_ascii_of_string b ++ t)).
  change (Re.search_at r (x :: ?s))
    with (match Re.run r (x :: s) [] whole with
          | Some (_, g) => Some g
          | None => Re.search_at r s
          end).
  destruct (Re.run r (x :: _) [] whole) as [[rest g'] |] eqn:Er.
  - exfalso. destruct (H _ _ _ (eq_ind_r (fun o => o <> None) (Some_ne_None _) Er))
      as [rest' E].
    assert (exists t, String x b +:+ "FRO" = "FROM" +:+ t) as [t Et].
    { destruct b as [| y [| z [| w b]]]; simpl in E; [congruence.. |].
      injection E as -> -> -> -> _. by exists (b +:+ "FRO"). }
    by rewrite Et, contains_here in Hc.
  - apply IH. rewrite append_cons in Hc. by eapply contains_cons_false.
Qed.

(** What the pattern without WHERE captures after the first FROM. *)
Lemma path_after_first_from (before rest : string) :
  PyStr.contains "describe" (before +:+ "FROM" +:+ rest) = false ->
  PyStr.contains "query?q=SELECT" (before +:+ "FROM" +:+ rest) = true ->
  PyStr.contains "WHERE" (before +:+ "FROM" +:+ rest) = false ->
  PyStr.contains "FROM" (before +:+ "FRO") = false ->
  String.prefix "M" rest = false ->
  PyStr.contains (String Re.newline "") rest = false ->
  _obtain_salesforce_object_name_from_path (before +:+ "FROM" +:+ rest) = Ok rest.
Proof.
  intros Hd Hq Hw Hf Hm Hn. unfold _obtain_salesforce_object_name_from_path.
  rewrite Hd, Hq, Hw. unfold Re.search. rewrite pattern_from_regex.
  rewrite !list_ascii_of_string_app.
  rewrite search_at_first_from; [| apply run_needs_from | done].
  unfold Re.search_at at 1.
  destruct (list_ascii_of_string "FROM" ++ list_ascii_of_string rest) eqn:E;
    [done |]. rewrite <- E. clear E.
  change (fun (rest : list ascii) (g : Re.captures) => Some (rest, g)) with whole.
  rewrite from_run_rest.
  - by rewrite string_of_list_ascii_of_string.
  - by apply no_char_forall.
  - intros t Et. apply (f_equal string_of_list_ascii) in Et.
    rewrite string_of_list_ascii_of_string in Et. rewrite Et in Hm.
    change (string_of_list_ascii ("M"%char :: t))
      with (String "M" (string_of_list_ascii t)) in Hm.
    cbn in Hm. by destruct (string_of_list_ascii t).
Qed.

(** X17.  A SOQL path without WHERE whose first FROM is followed by
    [rest] yields exactly [rest], the + after FROM included: the + of
    the pattern repeats the M, it is not matched as a character. *)
Theorem soql_from_path_name (before rest : string) :
  PyStr.contains "describe" (before +:+ "FROM" +:+ rest) = false ->
  PyStr.contains "query?q=SELECT" (before +:+ "FROM" +:+ rest) = true ->
  PyStr.contains "WHERE" (before +:+ "FROM" +:+ rest) = false ->
  PyStr.contains "FROM" (before +:+ "FRO") = false ->
  String.prefix "M" rest = false ->
  PyStr.contains (String Re.newline "") rest = false ->
  _obtain_salesforce_object_name_from_path (before +:+ "FROM" +:+ rest) = Ok rest.
Proof. apply path_after_first_from. Qed.

(** *** Requests the remote side refuses *)

(** X18.  Under the conditions of the warm dispatch, when the remote
    side refuses the request the dispatch raises RequestException after
    that one request; [sent] leaves the connector itself as it was, so
    the guard is still on: only a failing schema fetch leaves it off. *)
Theorem refused_dispatch_keeps_guard (fuel : nat) (method path name : string)
    (payload : option payload_t) (fields : list json) (m : machine) (s' : server) :
  authed m = true ->
  guard m = true ->
  supported method = true ->
  _obtain_salesforce_object_name_from_path path = Ok name ->
  (PyStr.truthy name = true -> PyJson.str_in name (names_cache m) = true) ->
  (has_payload method = true ->
   payload_truthy payload = true /\
   fields_cache m !! name = Some fields /\
   Forall (fun kv => PyJson.str_in (fst kv) fields = true) (default [] payload)) ->
  refuses (remote m)
    (dispatch_request (self m) method path (sent_body method payload)) s' ->
  do_request (S fuel) method path payload m =
  (Raise RequestException,
   sent (dispatch_request (self m) method path (sent_body method payload)) s' m).
Proof.
  intros Ha Hg Hm Hname Hin Hp Hs.
  simpl. unfold do_request_body.
  rewrite bind_assert, Hm, (bind_of _ _ _ _ _ (ensure_authenticated_done _ Ha)).
  rewrite (bind_of _ _ _ _ _ (check_object_warm _ _ _ _ Hg Hname Hin)).
  rewrite bind_get.
  erewrite bind_of; last first.
  { rewrite (attempt_warm _ _ _ _ name fields); [by apply checked_refused | done |].
    intros Hhp. destruct (Hp Hhp) as (? & ? & Hv). split_and!; try done.
    by apply validate_all_allowed. }
  done.
Qed.

Lemma authenticate_refused (m : machine) (s' : server) :
  refuses (remote m) (auth_request (self m)) s' ->
  _authenticate m = (Raise RequestException, sent (auth_request (self m)) s' m).
Proof.
  intros Hs. unfold _authenticate.
  by rewrite bind_get, (bind_of _ _ _ _ _ (checked_refused _ _ _ Hs)).
Qed.

(** X19.  When the token endpoint refuses, a dispatch on a connector
    that is not authenticated raises RequestException after that one
    exchange, whatever its path and payload; [sent] leaves the connector
    as it was, still unauthenticated, so the next dispatch authenticates
    again. *)
Theorem refused_authentication (fuel : nat) (method path : string)
    (payload : option payload_t) (m : machine) (s' : server) :
  authed m = false ->
  supported method = true ->
  refuses (remote m) (auth_request (self m)) s' ->
  do_request (S fuel) method path payload m
    = (Raise RequestException, sent (auth_request (self m)) s' m).
Proof.
  intros Ha Hm Hs. simpl. unfold do_request_body.
  rewrite bind_assert, Hm.
  erewrite bind_of; last first.
  { unfold ensure_authenticated. rewrite bind_get, Ha. simpl negb. cbv iota.
    by apply authenticate_refused. }
  done.
Qed.

(** *** The payload validator, read backwards *)

(** X20.  The validator accepts only payloads all of whose keys are
    allowed, and every failure is the ValueError about a key that is not
    allowed and has only allowed keys before it. *)
Theorem validate_payload_complete (payload : payload_t) (allowed : list json) :
  (_validate_payload_content payload allowed = Ok tt ->
   Forall (fun kv => PyJson.str_in (fst kv) allowed = true) payload) /\
  (forall e,
      _validate_payload_content payload allowed = Raise e ->
      exists before k v after,
        payload = before ++ (k, v) :: after /\
        Forall (fun kv => PyJson.str_in (fst kv) allowed = true) before /\
        PyJson.str_in k allowed = false /\
        e = ValueError (k +:+ " isn't a valid field")) /\
  _validate_payload_content payload allowed <> OutOfFuel.
Proof.
  split_and!.
  - apply validate_ok_inv.
  - induction payload as [| [k v] rest IH]; intros e; simpl; [done |].
    destruct (PyJson.str_in k allowed) eqn:Hk; simpl.
    + intros E. destruct (IH _ E) as (before & k' & v' & after & -> & Hb & Hk' & ->).
      exists ((k, v) :: before), k', v', after. split_and!; try done.
      by constructor.
    + intros [= <-]. by exists [], k, v, rest.
  - induction payload as [| [k v] rest IH]; simpl; [done |].
    by destruct (PyJson.str_in k allowed).
Qed.

(** *** SOQL queries under validation *)

Lemma contains_single_cons (c x : ascii) (s : string) :
  x <> c ->
  PyStr.contains (String c "") s = false ->
  PyStr.contains (String c "") (String x s) = false.
Proof.
  intros Hx. unfold PyStr.contains.
  change (String.index 0 (String c "") (String x s))
    with (if String.prefix (String c "") (String x s) then Some 0
          else match String.index 0 (String c "") s with
               | Some n => Some (S n)
               | None => None
               end).
  replace (String.prefix (String c "") (String x s)) with false.
  - by destruct (String.index 0 (String c "") s).
  - cbn. destruct (ascii_dec c x) as [-> |]; [done | done].
Qed.

Lemma replace_removes (old new : ascii) (s : string) :
  new <> old ->
  PyStr.contains (String old "") (PyStr.replace old new s) = false.
Proof.
  intros Hne. induction s as [| x s IH]; [done |].
  simpl PyStr.replace. apply contains_single_cons; [| done].
  destruct (Ascii.eqb_spec x old); done.
Qed.

Lemma replace_length (old new : ascii) (s : string) :
  String.length (PyStr.replace old new s) = String.length s.
Proof. induction s as [| x s IH]; [done |]. simpl. by f_equal. Qed.

Lemma replace_get (old new : ascii) (s : string) (i : nat) :
  String.get i (PyStr.replace old new s) =
  match String.get i s with
  | Some c => Some (if Ascii.eqb c old then new else c)
  | None => None
  end.
Proof.
  revert i. induction s as [| x s IH]; intros i; [done |].
  destruct i as [| i]; [done |]. simpl. apply IH.
Qed.

(** X21.  The path of a SOQL query is query?q= followed by a text as
    long as the query that has, at each position, a + where the query
    has a space and the character of the query otherwise; so the path
    holds no space. *)
Theorem soql_path_spaces_become_plus (query : string) :
  exists tail,
    soql_path query = "query?q=" +:+ tail /\
    String.length tail = String.length query /\
    (forall i,
        String.get i tail =
        match String.get i query with
        | Some c => Some (if Ascii.eqb c " " then "+"%char else c)
        | None => None
        end) /\
    PyStr.contains " " (soql_path query) = false.
Proof.
  exists (PyStr.replace " " "+" query). split_and!.
  - reflexivity.
  - apply replace_length.
  - intros i. apply replace_get.
  - unfold soql_path.
    change ("query?q=" +:+ PyStr.replace " " "+" query)
      with (String "q" (String "u" (String "e" (String "r" (String "y" (String "?"
              (String "q" (String "=" (PyStr.replace " " "+" query))))))))).
    repeat (apply contains_single_cons; [done |]).
    by apply replace_removes.
Qed.

(** X22.  A SOQL query without WHERE that spells FROM in upper case is
    refused under validation once the object names are cached: the name
    derived from its path is the text after FROM with the + before it,
    which no listed object bears; nothing is sent. *)
Theorem soql_query_rejected (fuel : nat) (query before object : string) (m : machine) :
  authed m = true ->
  guard m = true ->
  soql_path query = before +:+ "FROM" +:+ "+" +:+ object ->
  PyStr.contains "describe" (soql_path query) = false ->
  PyStr.contains "query?q=SELECT" (soql_path query) = true ->
  PyStr.contains "WHERE" (soql_path query) = false ->
  PyStr.contains "FROM" (before +:+ "FRO") = false ->
  PyStr.contains (String Re.newline "") object = false ->
  names_cache m <> [] ->
  PyJson.str_in ("+" +:+ object) (names_cache m) = false ->
  do_query_with_SOQL (S fuel) query m
    = (Raise (AssertionError ("+" +:+ object +:+ " isn't a valid object")), m).
Proof.
  intros Ha Hg Hpath Hd Hq Hw Hf Hn Hc Hin. unfold do_query_with_SOQL.
  assert (_obtain_salesforce_object_name_from_path (soql_path query)
          = Ok ("+" +:+ object)) as Hname.
  { rewrite Hpath in *. apply path_after_first_from; try done.
    apply contains_single_cons; [done | exact Hn]. }
  erewrite bind_of; last first.
  { simpl do_request. unfold do_request_body.
    rewrite bind_assert. change (supported "GET") with true. cbv iota.
    rewrite (bind_of _ _ _ _ _ (ensure_authenticated_done _ Ha)).
    by rewrite (bind_of _ _ _ _ _
                  (check_object_unknown _ _ _ _ Hg Hname eq_refl Hc Hin)). }
  done.
Qed.

(** *** What a schema fetch stores *)



End Protocol.

(** * Worked examples on the scripted platforms *)

Lemma end_to_end_post_witness :
  exists m' : @machine Script.healthy,
    @do_request Script.healthy 2 "POST" "sobjects/Contact" (Some example_payload)
      (@fresh Script.healthy Script.settings tt) = (Ok "created", m') /\
    @remote Script.healthy m' = tt /\
    map c_request (@calls Script.healthy m') =
      [auth_request (__init__ Script.settings);
       @dispatch_request Script.healthy example_session "GET" "sobjects" NoBody;
       @dispatch_request Script.healthy example_session "GET"
         "sobjects/Contact/describe" NoBody;
       @dispatch_request Script.healthy example_session "POST" "sobjects/Contact"
         (Json example_payload)].
Proof.
  apply (@end_to_end_post Script.healthy Script.settings tt tt tt tt tt 2 example_payload
           "auth-body" "sobjects-body" "contact-body" "created"
           (JObj [("instance_url", JStr "https://na1.example");
                  ("access_token", JStr "T0K")])
           (JStr "https://na1.example") (JStr "T0K")
           [JStr "Account"; JStr "Contact"]
           [JStr "FirstName"; JStr "LastName"; JStr "Email"]).
  - lia.
  - discriminate.
  - exists 200. split; reflexivity.
  - reflexivity.
  - reflexivity.
  - reflexivity.
  - exists 200. split; reflexivity.
  - reflexivity.
  - reflexivity.
  - exists 200. split; reflexivity.
  - reflexivity.
  - repeat constructor.
  - exists 201. split; reflexivity.
Defined.

(** C3, as stated, fails on the end-to-end run: the guard is off for the
    two schema fetches and on again when the POST of the outer dispatch
    leaves, before that dispatch has completed; and it is already on when
    objectNames() returns. *)
Lemma guard_on_before_outer_completes :
  fst (@do_request Script.healthy 2 "POST" "sobjects/Contact" (Some example_payload)
         healthy_start) = Ok "created" /\
  map c_guard
    (@calls Script.healthy
       (snd (@do_request Script.healthy 2 "POST" "sobjects/Contact"
               (Some example_payload) healthy_start)))
    = [true; false; false; true] /\
  stays_off
    (map c_guard
       (@calls Script.healthy
          (snd (@do_request Script.healthy 2 "POST" "sobjects/Contact"
                  (Some example_payload) healthy_start)))) = false /\
  _validate_salesforce_object
    (@self Script.healthy
       (snd (@_get_salesforce_object_names Script.healthy 1 healthy_authenticated)))
    = true.
Proof. repeat split; vm_compute; reflexivity. Qed.

Lemma guard_during_schema_fetch_witness :
  (exists new,
      @calls Script.healthy
        (snd (@_get_salesforce_object_names Script.healthy 1 healthy_start))
        = @calls Script.healthy healthy_start ++ new /\
      Forall (fun c => c_guard c = false) new) /\
  (is_ok (fst (@_get_salesforce_object_names Script.healthy 1 healthy_start)) = true ->
   _validate_salesforce_object
     (@self Script.healthy
        (snd (@_get_salesforce_object_names Script.healthy 1 healthy_start))) = true).
Proof.
  apply (proj1 (@guard_during_schema_fetch Script.healthy 0 healthy_start)).
  - reflexivity.
  - vm_compute. reflexivity.
Defined.


(** After the failed listing the very same POST, with a field and an
    object that no schema knows, goes through unchecked. *)
Example unchecked_after_failed_listing :
  fst (@do_request Script.listing_down 2 "POST" "sobjects/Nonsense"
         (Some [("Bogus", "x")])
         (snd (@do_request Script.listing_down 2 "POST" "sobjects/Nonsense"
                 (Some [("Bogus", "x")]) listing_down_authenticated)))
    = Ok "created".
Proof. vm_compute. reflexivity. Qed.

Lemma authentication_idempotent_witness :
  _is_authenticated (@self Script.healthy healthy_authenticated) = true /\
  @ensure_authenticated Script.healthy healthy_authenticated
    = (Ok tt, healthy_authenticated) /\
  @times Script.healthy unit 2 (@ensure_authenticated Script.healthy) healthy_start
    = (Ok [tt; tt], healthy_authenticated).
Proof.
  destruct (@authentication_idempotent Script.healthy healthy_start
              healthy_authenticated) as (H1 & _ & H2 & H3 & _).
  - vm_compute. reflexivity.
  - split; [exact H1 | split; [exact H2 | exact H3]].
Defined.

(** C10, as stated, fails when only the access token is missing: the
    call raises, the connector counts as authenticated, and the base URL
    is the one of the body, not the empty string; the next dispatch goes
    to that URL. *)
Lemma base_url_set_without_token :
  fst (@_authenticate Script.tokenless tokenless_start)
    = Raise (KeyError "access_token") /\
  _is_authenticated
    (@self Script.tokenless (snd (@_authenticate Script.tokenless tokenless_start)))
    = true /\
  _instance_scheme_and_authority
    (@self Script.tokenless (snd (@_authenticate Script.tokenless tokenless_start)))
    = JStr "https://na1.example" /\
  _instance_scheme_and_authority
    (@self Script.tokenless (snd (@_authenticate Script.tokenless tokenless_start)))
    <> JStr "" /\
  map (fun c => url (c_request c))
    (@calls Script.tokenless
       (snd (@do_request Script.tokenless 2 "GET" "sobjects" None
               (snd (@_authenticate Script.tokenless tokenless_start)))))
    = ["https://login.example/token";
       "https://na1.example/services/data/v47.0/sobjects"].
Proof. repeat split; try (vm_compute; reflexivity). vm_compute. discriminate. Qed.

Lemma authenticated_before_body_is_read_witness :
  exists m1 : @machine Script.tokenless,
    @_authenticate Script.tokenless tokenless_start
      = (Raise (KeyError "access_token"), m1) /\
    _is_authenticated (@self Script.tokenless m1) = true /\
    _instance_scheme_and_authority (@self Script.tokenless m1)
      = JStr "https://na1.example" /\
    _access_token (@self Script.tokenless m1) = JStr "" /\
    request_headers (@self Script.tokenless m1)
      = [("Authorization", "OAuth"); ("Content-type", "application/json")].
Proof.
  destruct (proj2 (@authenticated_before_body_is_read Script.tokenless tokenless_start tt
                     "auth-body-without-token"
                     (JObj [("instance_url", JStr "https://na1.example")])
                     ltac:(exists 200; split; reflexivity) eq_refl)
              (JStr "https://na1.example") (KeyError "access_token") eq_refl eq_refl)
    as (m1 & H1 & H2 & H3 & H4 & H5 & _).
  exists m1. repeat split; assumption.
Defined.

(** C6.  For an organisation that lists no object the names cache
    misses what the claim says: the test [if not cache] does not tell an
    empty listing from no listing, so the empty list is not remembered
    and the second objectNames() sends GET sobjects again. *)
Lemma empty_listing_fetched_again :
  fst (@times Script.bare (list json) 2 (@_get_salesforce_object_names Script.bare 1)
         bare_start) = Ok [[]; []] /\
  occurrences
    (@dispatch_request Script.bare
       (@logged_in Script.bare (JStr "https://na1.example") (JStr "T0K")
          (__init__ Script.settings)) "GET" "sobjects" NoBody)
    (@calls Script.bare
       (snd (@times Script.bare (list json) 2
               (@_get_salesforce_object_names Script.bare 1) bare_start))) = 2.
Proof. split; vm_compute; reflexivity. Qed.

(** The fields cache, which tests membership, does remember an empty
    list: the second objectFields("Account") sends nothing. *)
Example empty_description_remembered :
  fst (@times Script.blank (list json) 2
         (@_get_salesforce_object_fields Script.blank 1 "Account") blank_start)
    = Ok [[]; []] /\
  occurrences
    (@dispatch_request Script.blank
       (@logged_in Script.blank (JStr "https://na1.example") (JStr "T0K")
          (__init__ Script.settings)) "GET" "sobjects/Account/describe" NoBody)
    (@calls Script.blank
       (snd (@times Script.blank (list json) 2
               (@_get_salesforce_object_fields Script.blank 1 "Account")
               blank_start))) = 1.
Proof. split; vm_compute; reflexivity. Qed.

Lemma schema_caches_fill_once_witness :
  (exists pre,
      @calls Script.healthy
        (snd (@_get_salesforce_object_names Script.healthy 1 healthy_start))
      = @calls Script.healthy healthy_start ++ pre ++
        [{| c_request :=
              @dispatch_request Script.healthy
                (@self Script.healthy
                   (snd (@_get_salesforce_object_names Script.healthy 1 healthy_start)))
                "GET" "sobjects" NoBody;
            c_guard := false |}] /\
      Forall (fun c => is_auth_call c = true) pre) /\
  @times Script.healthy (list json) 3 (@_get_salesforce_object_names Script.healthy 5)
    (snd (@_get_salesforce_object_names Script.healthy 1 healthy_start))
  = (Ok (replicate 3 [JStr "Account"; JStr "Contact"]),
     snd (@_get_salesforce_object_names Script.healthy 1 healthy_start)).
Proof.
  destruct (proj1 (@schema_caches_fill_once Script.healthy 0 5 healthy_start
                     (snd (@_get_salesforce_object_names Script.healthy 1 healthy_start)))
              [JStr "Account"; JStr "Contact"]) as [H1 H2].
  - reflexivity.
  - vm_compute. reflexivity.
  - split; [exact H1 |]. apply H2. discriminate.
Defined.

(** ** The further properties, on the scripted platforms *)

Lemma dispatch_ok_postcondition_witness :
  _validate_salesforce_object (@self Script.healthy healthy_warm) = true /\
  _is_authenticated (@self Script.healthy healthy_warm) = true.
Proof.
  apply (@dispatch_ok_postcondition Script.healthy 1 "POST" "sobjects/Contact"
           (Some example_payload) healthy_start healthy_warm "created").
  vm_compute. reflexivity.
Defined.

Lemma validated_dispatch_sound_witness :
  exists name,
    _obtain_salesforce_object_name_from_path "sobjects/Contact" = Ok name /\
    (PyStr.truthy name = true ->
     PyJson.str_in name
       (_salesforce_object_names_cache (@self Script.healthy healthy_warm)) = true) /\
    (has_payload "POST" = true ->
     exists p fields,
       Some example_payload = Some p /\ p <> [] /\
       _salesforce_object_fields_cache (@self Script.healthy healthy_warm) !! name
         = Some fields /\
       Forall (fun kv => PyJson.str_in (fst kv) fields = true) p).
Proof.
  apply (@validated_dispatch_sound Script.healthy 0 "POST" "sobjects/Contact"
           (Some example_payload) healthy_start healthy_warm "created").
  - reflexivity.
  - vm_compute. reflexivity.
Defined.

Lemma warm_dispatch_single_request_witness :
  @do_request Script.healthy 1 "POST" "sobjects/Contact" (Some example_payload)
    healthy_warm
  = (Ok "created",
     @with_self Script.healthy (set_validate true)
       (@sent Script.healthy
          (@dispatch_request Script.healthy (@self Script.healthy healthy_warm)
             "POST" "sobjects/Contact" (sent_body "POST" (Some example_payload)))
          tt healthy_warm)).
Proof.
  apply (@warm_dispatch_single_request Script.healthy 0 "POST" "sobjects/Contact"
           "Contact" (Some example_payload)
           [JStr "FirstName"; JStr "LastName"; JStr "Email"] healthy_warm tt "created").
  - vm_compute. reflexivity.
  - vm_compute. reflexivity.
  - reflexivity.
  - vm_compute. reflexivity.
  - intros _. vm_compute. reflexivity.
  - intros _. split; [reflexivity |]. split; [vm_compute; reflexivity |].
    repeat constructor.
  - exists 201. split; vm_compute; reflexivity.
Defined.

Lemma unknown_object_rejected_witness :
  @do_request Script.healthy 1 "GET" "sobjects/Lead" None healthy_warm
  = (Raise (AssertionError ("Lead" +:+ " isn't a valid object")), healthy_warm).
Proof.
  apply (@unknown_object_rejected Script.healthy 0 "GET" "sobjects/Lead" "Lead" None
           healthy_warm).
  - vm_compute. reflexivity.
  - vm_compute. reflexivity.
  - reflexivity.
  - vm_compute. reflexivity.
  - reflexivity.
  - vm_compute. discriminate.
  - vm_compute. reflexivity.
Defined.

Lemma invalid_field_rejected_witness :
  @do_request Script.healthy 1 "POST" "sobjects/Contact"
    (Some ([("FirstName", "A")] ++ ("Bogus", "x") :: [("Email", "e")])) healthy_warm
  = (Raise (ValueError ("Bogus" +:+ " isn't a valid field")), healthy_warm).
Proof.
  apply (@invalid_field_rejected Script.healthy 0 "POST" "sobjects/Contact" "Contact"
           [("FirstName", "A")] [("Email", "e")] "Bogus" "x"
           [JStr "FirstName"; JStr "LastName"; JStr "Email"] healthy_warm).
  - vm_compute. reflexivity.
  - vm_compute. reflexivity.
  - reflexivity.
  - reflexivity.
  - vm_compute. reflexivity.
  - intros _. vm_compute. reflexivity.
  - vm_compute. reflexivity.
  - repeat constructor.
  - reflexivity.
Defined.

Lemma repeated_dispatch_single_request_witness :
  @do_request Script.healthy 4 "POST" "sobjects/Contact" (Some example_payload)
    healthy_warm
  = (Ok "created",
     @with_self Script.healthy (set_validate true)
       (@sent Script.healthy
          (@dispatch_request Script.healthy (@self Script.healthy healthy_warm)
             "POST" "sobjects/Contact" (sent_body "POST" (Some example_payload)))
          tt healthy_warm)).
Proof.
  apply (@repeated_dispatch_single_request Script.healthy 0 3 "POST" "sobjects/Contact"
           (Some example_payload) healthy_start healthy_warm "created" "created" tt).
  - reflexivity.
  - vm_compute. reflexivity.
  - exists 201. split; vm_compute; reflexivity.
Defined.

Lemma payload_ignored_without_body_witness :
  @do_request Script.healthy 2 "GET" "sobjects/Contact" (Some [("Bogus", "x")])
    healthy_start
  = @do_request Script.healthy 2 "GET" "sobjects/Contact" None healthy_start.
Proof.
  apply (@payload_ignored_without_body Script.healthy 2 "GET" "sobjects/Contact"
           (Some [("Bogus", "x")]) healthy_start).
  reflexivity.
Defined.

Lemma unsupported_method_rejected_witness :
  @do_request Script.healthy 2 "PUT" "sobjects/Contact" (Some example_payload)
    healthy_start
  = (Raise (AssertionError "Method isn't supported."), healthy_start).
Proof.
  apply (@unsupported_method_rejected Script.healthy 1 "PUT" "sobjects/Contact"
           (Some example_payload) healthy_start).
  reflexivity.
Defined.

Lemma failed_fetch_not_cached_witness :
  _salesforce_object_names_cache
    (@self Script.listing_down
       (snd (@_get_salesforce_object_names Script.listing_down 1
               listing_down_authenticated))) = [] /\
  _salesforce_object_fields_cache
    (@self Script.listing_down
       (snd (@_get_salesforce_object_names Script.listing_down 1
               listing_down_authenticated)))
  = _salesforce_object_fields_cache (@self Script.listing_down listing_down_authenticated).
Proof.
  apply (proj1 (@failed_fetch_not_cached Script.listing_down 0
                  listing_down_authenticated
                  (snd (@_get_salesforce_object_names Script.listing_down 1
                          listing_down_authenticated))
                  RequestException)).
  - reflexivity.
  - vm_compute. reflexivity.
Defined.

Lemma soql_query_single_get_witness :
  @do_query_with_SOQL Script.querying 1 "SELECT Name from Account"
    querying_authenticated
  = (Ok (JArr [JObj [("Name", JStr "Acme")]]),
     @with_self Script.querying (set_validate true)
       (@sent Script.querying
          (@dispatch_request Script.querying
             (@self Script.querying querying_authenticated) "GET"
             (soql_path "SELECT Name from Account") NoBody)
          tt querying_authenticated)).
Proof.
  apply (@soql_query_single_get Script.querying 0 "SELECT Name from Account"
           querying_authenticated tt "records-body").
  - vm_compute. reflexivity.
  - vm_compute. reflexivity.
  - exists 200. split; vm_compute; reflexivity.
Defined.

Lemma dispatch_request_bound_witness :
  exists new,
    @calls Script.healthy healthy_warm = @calls Script.healthy healthy_start ++ new /\
    length new <= 4 /\
    (_is_authenticated (@self Script.healthy healthy_start) = true -> length new <= 3).
Proof.
  apply (@dispatch_request_bound Script.healthy 0 "POST" "sobjects/Contact"
           (Some example_payload) healthy_start healthy_warm (Ok "created")).
  vm_compute. reflexivity.
Defined.

Lemma missing_payload_rejected_witness :
  is_ok (fst (@do_request Script.healthy 2 "POST" "sobjects/Contact" (Some [])
                healthy_start)) = false /\
  @adds Script.healthy 2 healthy_start
    (snd (@do_request Script.healthy 2 "POST" "sobjects/Contact" (Some [])
            healthy_start)).
Proof.
  apply (@missing_payload_rejected Script.healthy 0 "POST" "sobjects/Contact" (Some [])
           healthy_start).
  - reflexivity.
  - reflexivity.
  - vm_compute. reflexivity.
Defined.

Lemma describe_path_round_trip_witness :
  _obtain_salesforce_object_name_from_path ("sobjects/" +:+ "Account" +:+ "/describe")
    = Ok "Account".
Proof. apply (describe_path_round_trip "Account"). vm_compute. reflexivity. Defined.

Lemma sobjects_path_name_witness :
  _obtain_salesforce_object_name_from_path ("sobjects/" +:+ "Account" +:+ "/001xx")
    = Ok "Account".
Proof.
  apply (sobjects_path_name "Account" "/001xx").
  - vm_compute. reflexivity.
  - right. exists "001xx". reflexivity.
  - vm_compute. reflexivity.
  - vm_compute. reflexivity.
Defined.

Lemma soql_where_path_no_name_witness :
  _obtain_salesforce_object_name_from_path "query?q=SELECT+Id+FROM+Account+WHERE+Id=1"
    = Ok "".
Proof.
  apply (soql_where_path_no_name "query?q=SELECT+Id+FROM+Account+WHERE+Id=1");
    vm_compute; reflexivity.
Defined.

Lemma soql_path_without_from_witness :
  _obtain_salesforce_object_name_from_path "query?q=SELECT+Name+from+Account" = Ok "".
Proof.
  apply (soql_path_without_from "query?q=SELECT+Name+from+Account");
    vm_compute; reflexivity.
Defined.

Lemma soql_from_path_name_witness :
  _obtain_salesforce_object_name_from_path
    ("query?q=SELECT+Name+" +:+ "FROM" +:+ "+Account") = Ok "+Account".
Proof.
  apply (soql_from_path_name "query?q=SELECT+Name+" "+Account");
    vm_compute; reflexivity.
Defined.

Lemma refused_dispatch_keeps_guard_witness :
  @do_request Script.healthy 1 "PATCH" "sobjects/Contact" (Some example_payload)
    healthy_warm
  = (Raise RequestException,
     @sent Script.healthy
       (@dispatch_request Script.healthy (@self Script.healthy healthy_warm)
          "PATCH" "sobjects/Contact" (sent_body "PATCH" (Some example_payload)))
       tt healthy_warm).
Proof.
  apply (@refused_dispatch_keeps_guard Script.healthy 0 "PATCH" "sobjects/Contact"
           "Contact" (Some example_payload)
           [JStr "FirstName"; JStr "LastName"; JStr "Email"] healthy_warm tt).
  - vm_compute. reflexivity.
  - vm_compute. reflexivity.
  - reflexivity.
  - vm_compute. reflexivity.
  - intros _. vm_compute. reflexivity.
  - intros _. split; [reflexivity |]. split; [vm_compute; reflexivity |].
    repeat constructor.
  - split; vm_compute; reflexivity.
Defined.

Lemma refused_authentication_witness :
  @do_request Script.locked_out 1 "GET" "sobjects" None locked_out_start
  = (Raise RequestException,
     @sent Script.locked_out
       (auth_request (@self Script.locked_out locked_out_start)) tt locked_out_start).
Proof.
  apply (@refused_authentication Script.locked_out 0 "GET" "sobjects" None
           locked_out_start tt).
  - reflexivity.
  - reflexivity.
  - split; vm_compute; reflexivity.
Defined.

Lemma validate_payload_complete_witness :
  Forall (fun kv => PyJson.str_in (fst kv) [JStr "FirstName"; JStr "LastName"] = true)
    example_payload.
Proof.
  apply (proj1 (validate_payload_complete example_payload
                  [JStr "FirstName"; JStr "LastName"])).
  reflexivity.
Defined.

Lemma soql_query_rejected_witness :
  @do_query_with_SOQL Script.healthy 1 "SELECT Name FROM Account" healthy_warm
  = (Raise (AssertionError ("+" +:+ "Account" +:+ " isn't a valid object")),
     healthy_warm).
Proof.
  apply (@soql_query_rejected Script.healthy 0 "SELECT Name FROM Account"
           "query?q=SELECT+Name+" "Account" healthy_warm).
  - vm_compute. reflexivity.
  - vm_compute. reflexivity.
  - vm_compute. reflexivity.
  - vm_compute. reflexivity.
  - vm_compute. reflexivity.
  - vm_compute. reflexivity.
  - vm_compute. reflexivity.
  - vm_compute. reflexivity.
  - vm_compute. discriminate.
  - vm_compute. reflexivity.
Defined.


